(** * Balance aggregation and valuation of the wallet service

    A shallow embedding of [WalletService.getBalances],
    [processBalancesWithNetworks] and [calculateTotal]
    (safejet-exchange-api/src/wallet/wallet.service.ts), with the
    properties of the aggregation engine stated over it.

    JavaScript numbers are IEEE 754 binary64 values: they are modelled by
    [spec_float] at precision 53 and maximal exponent 1024, with the
    operations of [SpecFloat].  Decimal quantities are exact base-10
    values.  Exceptions are modelled by a result type. *)

From Stdlib Require Import String Ascii ZArith QArith List Bool Lia.
From Stdlib Require Import Permutation Sorted SpecFloat Qfield OrderedTypeEx.
Import ListNotations.

Local Open Scope Z_scope.

(** ** JavaScript numbers *)

Module JsNumber.

Definition number := spec_float.

Definition prec : Z := 53.
Definition emax : Z := 1024.

Definition zero : number := S754_zero false.
Definition nan : number := S754_nan.

Definition add (x y : number) : number := SFadd prec emax x y.
Definition sub (x y : number) : number := SFsub prec emax x y.
Definition mul (x y : number) : number := SFmul prec emax x y.
Definition div (x y : number) : number := SFdiv prec emax x y.

(** [x < y] and [x > y]; both are false when an operand is NaN. *)
Definition lt (x y : number) : bool := SFltb x y.
Definition gt (x y : number) : bool := SFltb y x.

(** The number nearest to an integer. *)
Definition ofZ (z : Z) : number := binary_normalize prec emax z 0 false.

Definition ofNat (n : nat) : number := ofZ (Z.of_nat n).

Definition one : number := ofZ 1.
Definition hundred : number := ofZ 100.

Definition isZero (x : number) : bool :=
  match x with
  | S754_zero _ => true
  | _ => false
  end.

Definition isFinite (x : number) : bool :=
  match x with
  | S754_zero _ | S754_finite _ _ _ => true
  | _ => false
  end.

(** Largest integer below a finite non-zero number [(-1)^s * m * 2^e]. *)
Definition floorZ (s : bool) (m : positive) (e : Z) : Z :=
  let v := if s then Zneg m else Zpos m in
  if 0 <=? e then v * 2 ^ e else v / 2 ^ (- e).

Definition ceilZ (s : bool) (m : positive) (e : Z) : Z :=
  - floorZ (negb s) m e.

(** [Math.floor] *)
Definition floor (x : number) : number :=
  match x with
  | S754_finite s m e =>
      match floorZ s m e with
      | Z0 => S754_zero s
      | z => ofZ z
      end
  | _ => x
  end.

(** [Math.ceil] *)
Definition ceil (x : number) : number :=
  match x with
  | S754_finite s m e =>
      match ceilZ s m e with
      | Z0 => S754_zero s
      | z => ofZ z
      end
  | _ => x
  end.

(** [Math.max] of two arguments. *)
Definition max (x y : number) : number :=
  match x, y with
  | S754_nan, _ | _, S754_nan => S754_nan
  | S754_zero sx, S754_zero sy => S754_zero (sx && sy)
  | _, _ => if lt x y then y else x
  end.

(** The result of [ToIntegerOrInfinity]. *)
Variant integerOrInfinity :=
  | NegInfinity
  | Finite (z : Z)
  | PosInfinity.

Definition toIntegerOrInfinity (x : number) : integerOrInfinity :=
  match x with
  | S754_nan | S754_zero _ => Finite 0
  | S754_infinity s => if s then NegInfinity else PosInfinity
  | S754_finite s m e => Finite (if s then ceilZ s m e else floorZ s m e)
  end.

End JsNumber.

(** ** [Array.prototype.slice] *)

Section Slice.
Context {A : Type}.

(** The clamped index that [slice] derives from a relative index. *)
Definition sliceIndex (len : nat) (i : JsNumber.integerOrInfinity) : nat :=
  match i with
  | JsNumber.NegInfinity => 0%nat
  | JsNumber.PosInfinity => len
  | JsNumber.Finite z =>
      if z <? 0 then Z.to_nat (Z.max (Z.of_nat len + z) 0)
      else Z.to_nat (Z.min z (Z.of_nat len))
  end.

Definition slice (l : list A) (first last : JsNumber.number) : list A :=
  let k := sliceIndex (length l) (JsNumber.toIntegerOrInfinity first) in
  let final := sliceIndex (length l) (JsNumber.toIntegerOrInfinity last) in
  firstn (final - k) (skipn k l).
End Slice.

(** ** The decimal arithmetic layer *)

(** Modelled from the spec: the decimal arithmetic layer (the [Decimal]
    class the service imports from the package decimal.js, which is not
    part of the repository).  Section 4.1 of the specification describes it
    as exact base-10 arithmetic, parsed from and serialised to canonical
    decimal strings, that raises on a malformed string.  A value is
    [unscaled / 10 ^ scale], kept with the least possible scale; the
    literals accepted are an optional sign, digits with an optional
    fraction, and an optional exponent. *)
Module Decimal.

Record t := mk { unscaled : Z; scale : nat }.

Fixpoint normalize (m : Z) (s : nat) : t :=
  match s with
  | O => mk m 0
  | S s' => if m mod 10 =? 0 then normalize (m / 10) s' else mk m s
  end.

Definition canonical (d : t) : bool :=
  match scale d with
  | O => true
  | S _ => negb (unscaled d mod 10 =? 0)
  end.

Definition zero : t := mk 0 0.

Definition pow10 (n : nat) : Z := 10 ^ Z.of_nat n.

Definition plus (a b : t) : t :=
  let s := Nat.max (scale a) (scale b) in
  normalize (unscaled a * pow10 (s - scale a) + unscaled b * pow10 (s - scale b)) s.

Definition minus (a b : t) : t :=
  let s := Nat.max (scale a) (scale b) in
  normalize (unscaled a * pow10 (s - scale a) - unscaled b * pow10 (s - scale b)) s.

Definition times (a b : t) : t :=
  normalize (unscaled a * unscaled b) (scale a + scale b).

Definition isZero (a : t) : bool := unscaled a =? 0.

(** The rational number a decimal denotes. *)
Definition toQ (d : t) : Q := inject_Z (unscaled d) / inject_Z (pow10 (scale d)).

(** *** Digits *)

Definition isDigit (c : ascii) : bool :=
  (48 <=? nat_of_ascii c)%nat && (nat_of_ascii c <=? 57)%nat.

Definition digitValue (c : ascii) : Z := Z.of_nat (nat_of_ascii c - 48).

Definition digitChar (d : Z) : ascii := ascii_of_nat (48 + Z.to_nat d).

Definition digitsValueFrom (a : Z) (ds : list ascii) : Z :=
  fold_left (fun acc c => 10 * acc + digitValue c) ds a.

Definition digitsValue (ds : list ascii) : Z := digitsValueFrom 0 ds.

Fixpoint spanDigits (l : list ascii) : list ascii * list ascii :=
  match l with
  | c :: l' =>
      if isDigit c then let (ds, rest) := spanDigits l' in (c :: ds, rest)
      else ([], l)
  | [] => ([], [])
  end.

Fixpoint digitsFuel (fuel : nat) (n : Z) (acc : list ascii) : list ascii :=
  match fuel with
  | O => acc
  | S f =>
      let acc' := digitChar (n mod 10) :: acc in
      if n / 10 =? 0 then acc' else digitsFuel f (n / 10) acc'
  end.

(** The decimal digits of a natural number, most significant first. *)
Definition digitsOf (n : Z) : list ascii :=
  digitsFuel (S (Z.to_nat (Z.log2 n))) n [].

(** *** Parsing *)

Definition parseSign (l : list ascii) : bool * list ascii :=
  match l with
  | "-"%char :: l' => (true, l')
  | "+"%char :: l' => (false, l')
  | _ => (false, l)
  end.

Definition parseExponent (l : list ascii) : option Z :=
  match l with
  | [] => Some 0
  | c :: l' =>
      if (c =? "e")%char || (c =? "E")%char then
        let (neg, l'') := parseSign l' in
        match spanDigits l'' with
        | ((_ :: _) as ds, []) =>
            Some (if neg then - digitsValue ds else digitsValue ds)
        | _ => None
        end
      else None
  end.

Definition parseChars (l : list ascii) : option t :=
  let (neg, l1) := parseSign l in
  let (ip, l2) := spanDigits l1 in
  let (fp, l3) :=
    match l2 with
    | "."%char :: l2' => spanDigits l2'
    | _ => ([], l2)
    end in
  match ip ++ fp with
  | [] => None
  | ds =>
      match parseExponent l3 with
      | None => None
      | Some e =>
          let m := if neg then - digitsValue ds else digitsValue ds in
          let k := Z.of_nat (length fp) - e in
          Some (if 0 <=? k then normalize m (Z.to_nat k)
                else normalize (m * 10 ^ (- k)) 0)
      end
  end.

(** [new Decimal(s)] for a string [s]; [None] stands for the raised error. *)
Definition ofString (s : string) : option t :=
  parseChars (list_ascii_of_string s).

(** *** Printing *)

Definition padTo (n : nat) (ds : list ascii) : list ascii :=
  repeat "0"%char (n - length ds) ++ ds.

Definition printChars (d : t) : list ascii :=
  let ds := padTo (S (scale d)) (digitsOf (Z.abs (unscaled d))) in
  let ip := firstn (length ds - scale d) ds in
  let fp := skipn (length ds - scale d) ds in
  (if unscaled d <? 0 then ["-"%char] else [])
    ++ ip ++ match scale d with O => [] | S _ => "."%char :: fp end.

Definition toString (d : t) : string :=
  string_of_list_ascii (printChars d).

(** *** Conversion to a number *)

(** [toNumber]: the binary64 value nearest to the decimal (ties to even). *)
Definition toNumber (d : t) : JsNumber.number :=
  let den := S754_finite false (Z.to_pos (pow10 (scale d))) 0 in
  match unscaled d with
  | Z0 => S754_zero false
  | Zpos p => JsNumber.div (S754_finite false p 0) den
  | Zneg p => JsNumber.div (S754_finite true p 0) den
  end.

End Decimal.

(** ** Exceptions *)

Variant Exception :=
  | DecimalError (argument : string).

Variant result (A : Type) :=
  | Ok (a : A)
  | Throw (e : Exception).

Arguments Ok {A} a.
Arguments Throw {A} e.

Definition bind {A B : Type} (c : result A) (k : A -> result B) : result B :=
  match c with
  | Ok a => k a
  | Throw e => Throw e
  end.

Notation "x <- c ;; k" := (bind c (fun x => k))
  (at level 61, c at next level, right associativity).

(** A left-to-right loop whose body may throw. *)
Fixpoint foldM {A B : Type} (f : B -> A -> result B) (l : list A) (b : B) : result B :=
  match l with
  | [] => Ok b
  | a :: l' => b' <- f b a ;; foldM f l' b'
  end.

(** [Array.prototype.filter] with a predicate that may throw. *)
Fixpoint filterM {A : Type} (f : A -> result bool) (l : list A) : result (list A) :=
  match l with
  | [] => Ok []
  | a :: l' =>
      keep <- f a ;;
      rest <- filterM f l' ;;
      Ok (if keep then a :: rest else rest)
  end.

(** [new Decimal(s)] *)
Definition newDecimal (s : string) : result Decimal.t :=
  match Decimal.ofString s with
  | Some d => Ok d
  | None => Throw (DecimalError s)
  end.

(** [s || '0'] for a string and for a nullable string. *)
Definition orZero (s : string) : string :=
  if (s =? "")%string then "0"%string else s.

Definition orZeroOpt (s : option string) : string :=
  match s with
  | None => "0"%string
  | Some s => orZero s
  end.

(** [ToNumber] of a string and of a nullable string: a decimal literal
    converts to the nearest number, the empty string and [null] to 0 and
    any other string to NaN (white space and the literals [Infinity] and
    [0x..] are left out). *)
Definition stringToNumber (s : string) : JsNumber.number :=
  if (s =? "")%string then JsNumber.zero
  else
    match Decimal.ofString s with
    | Some d =>
        if Decimal.isZero d then
          S754_zero (fst (Decimal.parseSign (list_ascii_of_string s)))
        else Decimal.toNumber d
    | None => JsNumber.nan
    end.

Definition toNumberOpt (s : option string) : JsNumber.number :=
  match s with
  | None => JsNumber.zero
  | Some s => stringToNumber s
  end.

(** ** Entities *)

(** The union type ['spot' | 'funding'] of a balance. *)
Variant BalanceType := spot | funding.

Definition typeString (t : BalanceType) : string :=
  match t with
  | spot => "spot"
  | funding => "funding"
  end.

Definition BalanceType_eqb (a b : BalanceType) : bool :=
  match a, b with
  | spot, spot | funding, funding => true
  | _, _ => false
  end.

(** Modelled from the spec: the entities [Token], [WalletBalance] and
    [Wallet] are declared outside the service; they carry the fields the
    service reads.  Prices and balances are decimal strings, a price
    possibly [null] (section 3 of the specification). *)
Module Token.
Record t := mk {
  symbol : string;
  baseSymbol : string;
  name : string;
  decimals : Z;
  blockchain : string;
  networkVersion : string;
  currentPrice : option string;
  changePercent24h : option string
}.
End Token.

Module WalletBalance.
Record t := mk {
  walletId : string;
  balance : string;
  type : BalanceType;
  token : Token.t
}.
End WalletBalance.

Module Wallet.
Record t := mk {
  id : string;
  userId : string;
  blockchain : string;
  network : string;
  status : string
}.
End Wallet.

(** The element of [networks] built for each balance row. *)
Module NetworkBalance.
Record t := mk {
  blockchain : string;
  networkVersion : string;
  balance : string;
  type : BalanceType;
  usdValue : string
}.
End NetworkBalance.

(** The object stored in [combinedBalances] for each merge key. *)
Module Combined.
Record t := mk {
  symbol : string;
  baseSymbol : string;
  name : string;
  decimals : Z;
  balance : string;
  usdValue : string;
  type : BalanceType;
  token : Token.t;
  networks : list NetworkBalance.t
}.
End Combined.

(** ** [processBalancesWithNetworks] *)

(** [`${balance.token.baseSymbol}_${balance.type}`] *)
Definition mergeKey (baseSymbol : string) (type : BalanceType) : string :=
  (baseSymbol ++ "_" ++ typeString type)%string.

Definition keyOf (b : WalletBalance.t) : string :=
  mergeKey (Token.baseSymbol (WalletBalance.token b)) (WalletBalance.type b).

(** The [Map] [combinedBalances], in insertion order. *)
Definition CombinedMap := list (string * Combined.t).

Fixpoint mapGet (key : string) (m : CombinedMap) : option Combined.t :=
  match m with
  | [] => None
  | (k, v) :: m' => if (k =? key)%string then Some v else mapGet key m'
  end.

(** The update of the object stored under a key, which keeps its place. *)
Fixpoint mapUpdate (key : string) (v : Combined.t) (m : CombinedMap) : CombinedMap :=
  match m with
  | [] => []
  | (k, v') :: m' =>
      if (k =? key)%string then (k, v) :: m' else (k, v') :: mapUpdate key v m'
  end.

Definition mapValues (m : CombinedMap) : list Combined.t := map snd m.

(** The body of the [forEach] over the balance rows.  An entry is always
    stored with its [networks] array, so the test for a missing array before
    the [push] never applies. *)
Definition combineStep (m : CombinedMap) (b : WalletBalance.t) : result CombinedMap :=
  let tok := WalletBalance.token b in
  let key := keyOf b in
  let rawBalance := orZero (WalletBalance.balance b) in
  currentBalance <- newDecimal rawBalance ;;
  price <- newDecimal (orZeroOpt (Token.currentPrice tok)) ;;
  let usdValue := Decimal.times currentBalance price in
  let networkBalance :=
    NetworkBalance.mk (Token.blockchain tok) (Token.networkVersion tok)
      rawBalance (WalletBalance.type b) (Decimal.toString usdValue) in
  match mapGet key m with
  | Some existing =>
      oldBalance <- newDecimal (Combined.balance existing) ;;
      let newBalance := Decimal.plus oldBalance currentBalance in
      oldUsdValue <- newDecimal (Combined.usdValue existing) ;;
      let newUsdValue := Decimal.plus oldUsdValue usdValue in
      Ok (mapUpdate key
            (Combined.mk (Combined.symbol existing) (Combined.baseSymbol existing)
               (Combined.name existing) (Combined.decimals existing)
               (Decimal.toString newBalance) (Decimal.toString newUsdValue)
               (Combined.type existing) (Combined.token existing)
               (Combined.networks existing ++ [networkBalance]))
            m)
  | None =>
      Ok (m ++ [(key,
            Combined.mk (Token.symbol tok) (Token.baseSymbol tok) (Token.name tok)
              (Token.decimals tok)
              (Decimal.toString currentBalance) (Decimal.toString usdValue)
              (WalletBalance.type b) tok [networkBalance])])
  end.

Definition combineBalances (balances : list WalletBalance.t) : result CombinedMap :=
  foldM combineStep balances [].

(** Modelled from the spec: [String.prototype.localeCompare], whose
    collation belongs to the host; section 4.4 of the specification orders
    symbols lexicographically.  The result is -1, 0 or 1. *)
Definition localeCompare (a b : string) : JsNumber.number :=
  match String.compare a b with
  | Lt => JsNumber.ofZ (-1)
  | Eq => JsNumber.zero
  | Gt => JsNumber.ofZ 1
  end.

(** The comparison function given to [sort]. *)
Definition compareBalances (a b : Combined.t) : result JsNumber.number :=
  valueA <- newDecimal (Combined.usdValue a) ;;
  valueB <- newDecimal (Combined.usdValue b) ;;
  if negb (Decimal.isZero valueA) && negb (Decimal.isZero valueB) then
    Ok (Decimal.toNumber (Decimal.minus valueB valueA))
  else if negb (Decimal.isZero valueA) then Ok (JsNumber.ofZ (-1))
  else if negb (Decimal.isZero valueB) then Ok JsNumber.one
  else Ok (localeCompare (Combined.symbol a) (Combined.symbol b)).

(** [Array.prototype.sort] is stable: with a comparison function that
    orders the elements consistently its result is the one of a stable
    insertion sort, where an element moves behind those the comparison
    function puts strictly before it (a positive result; NaN counts as 0). *)
Section Sort.
Context {A : Type}.
Variable compareFn : A -> A -> result JsNumber.number.

Fixpoint insertSorted (x : A) (l : list A) : result (list A) :=
  match l with
  | [] => Ok [x]
  | y :: l' =>
      v <- compareFn x y ;;
      if JsNumber.gt v JsNumber.zero then
        rest <- insertSorted x l' ;; Ok (y :: rest)
      else Ok (x :: l)
  end.

Fixpoint sort (l : list A) : result (list A) :=
  match l with
  | [] => Ok []
  | x :: l' => sorted <- sort l' ;; insertSorted x sorted
  end.
End Sort.

Definition processBalancesWithNetworks (balances : list WalletBalance.t)
  : result (list Combined.t) :=
  combinedBalances <- combineBalances balances ;;
  sort compareBalances (mapValues combinedBalances).

(** ** [calculateTotal] *)

(** With the default price field, [currentPrice]. *)
Definition totalStep (total : JsNumber.number) (b : Combined.t) : result JsNumber.number :=
  amount <- newDecimal (orZero (Combined.balance b)) ;;
  price <- newDecimal (orZeroOpt (Token.currentPrice (Combined.token b))) ;;
  Ok (JsNumber.add total (Decimal.toNumber (Decimal.times amount price))).

Definition calculateTotal (balances : list Combined.t) : result JsNumber.number :=
  foldM totalStep balances JsNumber.zero.

(** ** [getBalances] *)

Module PaginationParams.
Record t := mk {
  page : JsNumber.number;
  limit : JsNumber.number
}.
End PaginationParams.

Module Pagination.
Record t := mk {
  total : JsNumber.number;
  page : JsNumber.number;
  limit : JsNumber.number;
  totalPages : JsNumber.number;
  hasMore : bool
}.
End Pagination.

(** The object [getBalances] resolves to; [spotTotal] and [fundingTotal]
    are absent from the answer for a user without active wallet. *)
Module Response.
Record t := mk {
  balances : list Combined.t;
  total : JsNumber.number;
  spotTotal : option JsNumber.number;
  fundingTotal : option JsNumber.number;
  change24h : JsNumber.number;
  changePercent24h : JsNumber.number;
  pagination : Pagination.t
}.
End Response.

(** The tables behind the three repositories; the balance rows come with
    their token joined. *)
Record Database := {
  wallets : list Wallet.t;
  walletBalances : list WalletBalance.t;
  tokens : list Token.t
}.

(** [walletRepository.find({ where: { userId, status: 'active' } })] *)
Definition findActiveWallets (db : Database) (userId : string) : list Wallet.t :=
  filter (fun w => (Wallet.userId w =? userId)%string && (Wallet.status w =? "active")%string)
         (wallets db).

(** The query on the balance rows of the wallets, restricted to a type when
    one is given. *)
Definition queryBalances (db : Database) (walletIds : list string) (type : option string)
  : list WalletBalance.t :=
  filter (fun b =>
            existsb (fun i => (i =? WalletBalance.walletId b)%string) walletIds
            && match type with
               | None => true
               | Some ty =>
                   if (ty =? "")%string then true
                   else (typeString (WalletBalance.type b) =? ty)%string
               end)
         (walletBalances db).

(** [tokenRepository.findOne({ where: { symbol } })] *)
Definition findTokenBySymbol (db : Database) (symbol : string) : option Token.t :=
  find (fun t => (Token.symbol t =? symbol)%string) (tokens db).

(** The body of the loop that accumulates [totalChange24h] and
    [totalValue]. *)
Definition changeStep (db : Database) (acc : JsNumber.number * JsNumber.number)
  (b : Combined.t) : JsNumber.number * JsNumber.number :=
  let (totalChange24h, totalValue) := acc in
  match findTokenBySymbol db (Combined.symbol b) with
  | Some token =>
      if JsNumber.gt (stringToNumber (Combined.balance b)) JsNumber.zero then
        let currentValue :=
          JsNumber.mul (stringToNumber (Combined.balance b))
                       (toNumberOpt (Token.currentPrice token)) in
        let tokenChange :=
          JsNumber.mul currentValue
            (JsNumber.div (toNumberOpt (Token.changePercent24h token)) JsNumber.hundred) in
        (JsNumber.add totalChange24h tokenChange, JsNumber.add totalValue currentValue)
      else acc
  | None => acc
  end.

Definition changeTotals (db : Database) (displayBalances : list Combined.t)
  : JsNumber.number * JsNumber.number :=
  fold_left (changeStep db) displayBalances (JsNumber.zero, JsNumber.zero).

(** The balances kept for display. *)
Definition displayOf (processedBalances : list Combined.t) (showZeroBalances : bool)
  : result (list Combined.t) :=
  if showZeroBalances then Ok processedBalances
  else filterM (fun b => v <- newDecimal (Combined.usdValue b) ;;
                         Ok (negb (Decimal.isZero v)))
               processedBalances.

Definition isType (ty : BalanceType) (b : Combined.t) : bool :=
  BalanceType_eqb (Combined.type b) ty.

Definition getBalances (db : Database) (userId : string) (type : option string)
  (pagination : PaginationParams.t) (showZeroBalances : bool) : result Response.t :=
  let page := JsNumber.max JsNumber.one (JsNumber.floor (PaginationParams.page pagination)) in
  let limit := JsNumber.max JsNumber.one (JsNumber.floor (PaginationParams.limit pagination)) in
  let wallets := findActiveWallets db userId in
  match wallets with
  | [] =>
      Ok (Response.mk [] JsNumber.zero None None JsNumber.zero JsNumber.zero
            (Pagination.mk JsNumber.zero page limit JsNumber.zero false))
  | _ :: _ =>
      let walletIds := map Wallet.id wallets in
      let balances := queryBalances db walletIds type in
      processedBalances <- processBalancesWithNetworks balances ;;
      displayBalances <- displayOf processedBalances showZeroBalances ;;
      let spotBalances := filter (isType spot) displayBalances in
      let fundingBalances := filter (isType funding) displayBalances in
      spotTotal <- calculateTotal spotBalances ;;
      fundingTotal <- calculateTotal fundingBalances ;;
      let startIndex :=
        JsNumber.mul (JsNumber.sub (PaginationParams.page pagination) JsNumber.one)
                     (PaginationParams.limit pagination) in
      let paginatedBalances :=
        slice displayBalances startIndex
              (JsNumber.add startIndex (PaginationParams.limit pagination)) in
      let (totalChange24h, totalValue) := changeTotals db displayBalances in
      let changePercent24h :=
        if JsNumber.gt totalValue JsNumber.zero then
          JsNumber.mul (JsNumber.div totalChange24h totalValue) JsNumber.hundred
        else JsNumber.zero in
      let count := JsNumber.ofNat (length displayBalances) in
      Ok (Response.mk paginatedBalances
            (JsNumber.add spotTotal fundingTotal)
            (Some spotTotal) (Some fundingTotal)
            totalChange24h changePercent24h
            (Pagination.mk count
               (PaginationParams.page pagination) (PaginationParams.limit pagination)
               (JsNumber.ceil (JsNumber.div count (PaginationParams.limit pagination)))
               (JsNumber.lt (JsNumber.mul (PaginationParams.page pagination)
                                          (PaginationParams.limit pagination))
                            count)))
  end.

(** ** The aggregation, stated on the rows *)

(** The decimals a row denotes; a field that does not parse makes the row
    ill-formed, and its decimal is irrelevant. *)
Definition decimalOr0 (s : string) : Decimal.t :=
  match Decimal.ofString s with
  | Some d => d
  | None => Decimal.zero
  end.

Definition parses (s : string) : bool :=
  match Decimal.ofString s with
  | Some _ => true
  | None => false
  end.

Definition rawAmount (b : WalletBalance.t) : string := orZero (WalletBalance.balance b).

Definition rawPrice (t : Token.t) : string := orZeroOpt (Token.currentPrice t).

Definition amountOf (b : WalletBalance.t) : Decimal.t := decimalOr0 (rawAmount b).

Definition priceOf (b : WalletBalance.t) : Decimal.t :=
  decimalOr0 (rawPrice (WalletBalance.token b)).

Definition usdOf (b : WalletBalance.t) : Decimal.t := Decimal.times (amountOf b) (priceOf b).

Definition wellFormed (b : WalletBalance.t) : bool :=
  parses (rawAmount b) && parses (rawPrice (WalletBalance.token b)).

Definition networkOf (b : WalletBalance.t) : NetworkBalance.t :=
  NetworkBalance.mk (Token.blockchain (WalletBalance.token b))
    (Token.networkVersion (WalletBalance.token b))
    (rawAmount b) (WalletBalance.type b) (Decimal.toString (usdOf b)).

(** The rows merged under a key, in the order of the input. *)
Definition group (key : string) (balances : list WalletBalance.t) : list WalletBalance.t :=
  filter (fun b => (keyOf b =? key)%string) balances.

(** The sum of a non-empty sequence of decimals, added from the left. *)
Definition sumFrom (first : Decimal.t) (others : list Decimal.t) : Decimal.t :=
  fold_left Decimal.plus others first.

(** The entry that a first row and the later rows of its key produce. *)
Definition groupEntry (first : WalletBalance.t) (others : list WalletBalance.t) : Combined.t :=
  let tok := WalletBalance.token first in
  Combined.mk (Token.symbol tok) (Token.baseSymbol tok) (Token.name tok) (Token.decimals tok)
    (Decimal.toString (sumFrom (amountOf first) (map amountOf others)))
    (Decimal.toString (sumFrom (usdOf first) (map usdOf others)))
    (WalletBalance.type first) tok (map networkOf (first :: others)).

Definition entryFor (key : string) (balances : list WalletBalance.t) : option Combined.t :=
  match group key balances with
  | [] => None
  | first :: others => Some (groupEntry first others)
  end.

(** The sum of a sequence of rationals. *)
Definition Qsum (l : list Q) : Q := fold_right Qplus 0%Q l.

(** The key under which an entry is stored. *)
Definition entryKey (e : Combined.t) : string :=
  mergeKey (Combined.baseSymbol e) (Combined.type e).

(** The decimal an entry holds as its total USD value and as its total
    amount. *)
Definition usdDecimal (e : Combined.t) : Decimal.t := decimalOr0 (Combined.usdValue e).

Definition amountDecimal (e : Combined.t) : Decimal.t := decimalOr0 (Combined.balance e).

(** The balances [getBalances] keeps for display, before pagination; none
    for a user without active wallet. *)
Definition displayed (db : Database) (userId : string) (type : option string)
  (showZeroBalances : bool) : result (list Combined.t) :=
  match findActiveWallets db userId with
  | [] => Ok []
  | ws =>
      processedBalances <-
        processBalancesWithNetworks (queryBalances db (map Wallet.id ws) type) ;;
      displayOf processedBalances showZeroBalances
  end.

(** The rows [getBalances] fetches. *)
Definition fetched (db : Database) (userId : string) (type : option string)
  : list WalletBalance.t :=
  queryBalances db (map Wallet.id (findActiveWallets db userId)) type.

(** The sum of numbers, added from the left to 0. *)
Definition numberSum (l : list JsNumber.number) : JsNumber.number :=
  fold_left JsNumber.add l JsNumber.zero.

(** Two rows of the same logical asset: equal base symbol and equal type. *)
Definition sameAsset (r r' : WalletBalance.t) : bool :=
  (Token.baseSymbol (WalletBalance.token r') =? Token.baseSymbol (WalletBalance.token r))%string
  && BalanceType_eqb (WalletBalance.type r') (WalletBalance.type r).

(** Two entries that agree on every field, their network contributions
    taken up to their order. *)
Definition sameUpToNetworks (e1 e2 : Combined.t) : Prop :=
  Combined.symbol e1 = Combined.symbol e2
  /\ Combined.baseSymbol e1 = Combined.baseSymbol e2
  /\ Combined.name e1 = Combined.name e2
  /\ Combined.decimals e1 = Combined.decimals e2
  /\ Combined.balance e1 = Combined.balance e2
  /\ Combined.usdValue e1 = Combined.usdValue e2
  /\ Combined.type e1 = Combined.type e2
  /\ Combined.token e1 = Combined.token e2
  /\ Permutation (Combined.networks e1) (Combined.networks e2).

(** The number an entry adds to a total in [calculateTotal]: its amount
    times the price of its token. *)
Definition totalTerm (e : Combined.t) : JsNumber.number :=
  Decimal.toNumber
    (Decimal.times (decimalOr0 (orZero (Combined.balance e)))
                   (decimalOr0 (rawPrice (Combined.token e)))).

(** The entries whose total USD value is not zero. *)
Definition nonZeroValue (e : Combined.t) : bool := negb (Decimal.isZero (usdDecimal e)).

(** The processed balances kept for display. *)
Definition displayList (processed : list Combined.t) (showZeroBalances : bool)
  : list Combined.t :=
  if showZeroBalances then processed else filter nonZeroValue processed.

(** An entry built by the loop: its two totals are printed decimals. *)
Definition builtEntry (e : Combined.t) : Prop :=
  exists first others, e = groupEntry first others.

(** An entry made from rows that parse. *)
Definition soundEntry (e : Combined.t) : Prop :=
  exists first others, e = groupEntry first others /\ wellFormed first = true.

(** The answer of [getBalances] for a user with an active wallet, from the
    balances kept for display. *)
Definition answerOf (db : Database) (pagination : PaginationParams.t)
  (displayBalances : list Combined.t) : Response.t :=
  let spotTotal := numberSum (map totalTerm (filter (isType spot) displayBalances)) in
  let fundingTotal := numberSum (map totalTerm (filter (isType funding) displayBalances)) in
  let startIndex :=
    JsNumber.mul (JsNumber.sub (PaginationParams.page pagination) JsNumber.one)
                 (PaginationParams.limit pagination) in
  let totals := changeTotals db displayBalances in
  let count := JsNumber.ofNat (length displayBalances) in
  Response.mk
    (slice displayBalances startIndex
       (JsNumber.add startIndex (PaginationParams.limit pagination)))
    (JsNumber.add spotTotal fundingTotal) (Some spotTotal) (Some fundingTotal)
    (fst totals)
    (if JsNumber.gt (snd totals) JsNumber.zero then
       JsNumber.mul (JsNumber.div (fst totals) (snd totals)) JsNumber.hundred
     else JsNumber.zero)
    (Pagination.mk count
       (PaginationParams.page pagination) (PaginationParams.limit pagination)
       (JsNumber.ceil (JsNumber.div count (PaginationParams.limit pagination)))
       (JsNumber.lt (JsNumber.mul (PaginationParams.page pagination)
                                  (PaginationParams.limit pagination))
                    count)).

(** The answer for a user without active wallet. *)
Definition emptyAnswer (pagination : PaginationParams.t) : Response.t :=
  Response.mk [] JsNumber.zero None None JsNumber.zero JsNumber.zero
    (Pagination.mk JsNumber.zero
       (JsNumber.max JsNumber.one (JsNumber.floor (PaginationParams.page pagination)))
       (JsNumber.max JsNumber.one (JsNumber.floor (PaginationParams.limit pagination)))
       JsNumber.zero false).


(** ** The properties of the specification *)

(** [a <= b] for decimals. *)
Definition decimalLeb (a b : Decimal.t) : bool :=
  Decimal.unscaled a * Decimal.pow10 (Decimal.scale b)
  <=? Decimal.unscaled b * Decimal.pow10 (Decimal.scale a).

(** [a <= b] for symbols, in the lexicographic order of their characters. *)
Definition symbolLeb (a b : string) : bool :=
  match String.compare a b with
  | Gt => false
  | _ => true
  end.

(** The sort policy of section 4.4: an entry may stand before another when
    both have a value and the first is worth at least as much, when only the
    first has a value, or when none has and the symbol of the first is not
    behind the symbol of the second. *)
Definition mayPrecede (a b : Combined.t) : bool :=
  if nonZeroValue a && nonZeroValue b then decimalLeb (usdDecimal b) (usdDecimal a)
  else if nonZeroValue a then true
  else if nonZeroValue b then false
  else symbolLeb (Combined.symbol a) (Combined.symbol b).

Definition sortedByPolicy (l : list Combined.t) : Prop :=
  StronglySorted (fun a b => mayPrecede a b = true) l.

(** The coercion of a page number or a page size. *)
Definition coerceUp (x : JsNumber.number) : JsNumber.number :=
  JsNumber.max JsNumber.one (JsNumber.floor x).

(** The page by the coerced parameters: [limit] balances from the offset
    [(page - 1) * limit]. *)
Definition pageOfCoerced (displayBalances : list Combined.t)
  (pagination : PaginationParams.t) : list Combined.t :=
  let page := coerceUp (PaginationParams.page pagination) in
  let limit := coerceUp (PaginationParams.limit pagination) in
  let offset := JsNumber.mul (JsNumber.sub page JsNumber.one) limit in
  slice displayBalances offset (JsNumber.add offset limit).

(** The rows of one base symbol and type carry the same price. *)
Definition uniformPrices (rows : list WalletBalance.t) : Prop :=
  forall r r', In r rows -> In r' rows -> sameAsset r r' = true -> priceOf r = priceOf r'.

(** The total USD value of an entry, as a number. *)
Definition valueNumber (e : Combined.t) : JsNumber.number :=
  Decimal.toNumber (usdDecimal e).

(** The total of a type as section 4.5 has it: the exact sum of the total
    USD values of the entries of the type, made a number at the end. *)
Definition exactTotal (ty : BalanceType) (displayBalances : list Combined.t)
  : JsNumber.number :=
  Decimal.toNumber
    (fold_left Decimal.plus (map usdDecimal (filter (isType ty) displayBalances))
               Decimal.zero).

(** A price that is missing or zero. *)
Definition noPrice (t : Token.t) : bool :=
  parses (rawPrice t) && Decimal.isZero (decimalOr0 (rawPrice t)).

(** No difference of two distinct non-zero values is so small that it
    becomes the number 0. *)
Definition noUnderflow (l : list Combined.t) : Prop :=
  forall a b, In a l -> In b l ->
    nonZeroValue a = true -> nonZeroValue b = true ->
    usdDecimal a <> usdDecimal b ->
    JsNumber.isZero (Decimal.toNumber (Decimal.minus (usdDecimal b) (usdDecimal a))) = false.

(** A number that carries a given sign: a zero, a finite number or an
    infinity, and not NaN. *)
Definition signed (s : bool) (x : JsNumber.number) : Prop :=
  match x with
  | S754_zero s' | S754_infinity s' | S754_finite s' _ _ => s' = s
  | S754_nan => False
  end.

(** ** Sample data *)

Module Sample.
Local Open Scope string_scope.

Definition usdtEth : Token.t :=
  Token.mk "USDT" "USDT" "Tether USD" 6 "ethereum" "ERC20" (Some "1.00") (Some "0.01").

Definition usdtBsc : Token.t :=
  Token.mk "USDT" "USDT" "Tether USD" 18 "bsc" "BEP20" (Some "1.00") (Some "0.01").

Definition btc : Token.t :=
  Token.mk "BTC" "BTC" "Bitcoin" 8 "bitcoin" "NATIVE" (Some "10000") (Some "5").

Definition eth : Token.t :=
  Token.mk "ETH" "ETH" "Ethereum" 18 "ethereum" "NATIVE" (Some "2000") (Some "-10").

Definition doge : Token.t :=
  Token.mk "DOGE" "DOGE" "Dogecoin" 8 "dogecoin" "NATIVE" None None.

(** USDT held on two networks (first scenario of the specification). *)
Definition usdtRows : list WalletBalance.t :=
  [ WalletBalance.mk "w1" "100.50" spot usdtEth;
    WalletBalance.mk "w2" "50.25" spot usdtBsc ].

Definition usdtEntry : Combined.t :=
  Combined.mk "USDT" "USDT" "Tether USD" 6 "150.75" "150.75" spot usdtEth
    [ NetworkBalance.mk "ethereum" "ERC20" "100.50" spot "100.5";
      NetworkBalance.mk "bsc" "BEP20" "50.25" spot "50.25" ].

Definition wallet1 : Wallet.t := Wallet.mk "w1" "alice" "ethereum" "mainnet" "active".
Definition wallet2 : Wallet.t := Wallet.mk "w2" "alice" "bsc" "mainnet" "active".

Definition usdtDb : Database :=
  Build_Database [wallet1; wallet2] usdtRows [usdtEth; usdtBsc; btc; eth; doge].

Definition firstPage : PaginationParams.t :=
  PaginationParams.mk (JsNumber.ofZ 1) (JsNumber.ofZ 20).

(** A row whose amount is the empty string. *)
Definition emptyAmountRow : WalletBalance.t := WalletBalance.mk "w1" "" spot btc.

Definition emptyAmountDb : Database :=
  Build_Database [wallet1] [emptyAmountRow] [btc].

(** A row whose amount is not a decimal literal. *)
Definition malformedRow : WalletBalance.t := WalletBalance.mk "w1" "12,5" spot btc.

Definition malformedDb : Database :=
  Build_Database [wallet1] [WalletBalance.mk "w1" "1" spot eth; malformedRow] [btc; eth].

(** A user who holds only tokens without price. *)
Definition dogeDb : Database :=
  Build_Database [wallet1] [WalletBalance.mk "w1" "7" spot doge] [doge].

(** Three balances worth 30, 10 and 0 dollars (fourth scenario of the
    specification). *)
Definition tokenA : Token.t := Token.mk "AAA" "AAA" "Token A" 8 "chainA" "NATIVE" (Some "30") None.
Definition tokenB : Token.t := Token.mk "BBB" "BBB" "Token B" 8 "chainB" "NATIVE" (Some "10") None.
Definition tokenC : Token.t := Token.mk "CCC" "CCC" "Token C" 8 "chainC" "NATIVE" None None.

Definition threeDb : Database :=
  Build_Database [wallet1]
    [ WalletBalance.mk "w1" "1" spot tokenC;
      WalletBalance.mk "w1" "1" spot tokenB;
      WalletBalance.mk "w1" "1" spot tokenA ]
    [tokenA; tokenB; tokenC].

(** Two balances whose values differ by less than any number can tell. *)
Definition tokenUnit (symbol : string) : Token.t :=
  Token.mk symbol symbol symbol 8 "chain" "NATIVE" (Some "1") None.

Definition tinyRows : list WalletBalance.t :=
  [ WalletBalance.mk "w1" "1e-400" spot (tokenUnit "AAA");
    WalletBalance.mk "w1" "2e-400" spot (tokenUnit "BBB") ].

(** USDT on a test network, without price. *)
Definition usdtTest : Token.t :=
  Token.mk "USDT" "USDT" "Tether USD" 6 "ethereum" "TESTNET" None None.

Definition pricedRow : WalletBalance.t := WalletBalance.mk "w1" "10" spot usdtEth.
Definition pricelessRow : WalletBalance.t := WalletBalance.mk "w1" "5" spot usdtTest.

Definition pricedFirstDb : Database :=
  Build_Database [wallet1] [pricedRow; pricelessRow] [usdtEth; usdtTest].

Definition pricedOnlyDb : Database :=
  Build_Database [wallet1] [pricedRow] [usdtEth; usdtTest].

Definition pricelessFirstDb : Database :=
  Build_Database [wallet1] [pricelessRow; pricedRow] [usdtTest; usdtEth].

(** Two balances worth 0.1 and 0.2 dollars. *)
Definition dimesDb : Database :=
  Build_Database [wallet1]
    [ WalletBalance.mk "w1" "0.1" spot (tokenUnit "AAA");
      WalletBalance.mk "w1" "0.2" spot (tokenUnit "BBB") ]
    [tokenUnit "AAA"; tokenUnit "BBB"].
End Sample.

(** ** The other functions of the wallet service *)

(** The exceptions of the framework that the wallet functions throw. *)
Variant HttpException :=
  | NotFoundException (message : string)
  | BadRequestException (message : string).

(** The outcome of a function that may throw an exception of type [E]. *)
Variant outcome (E A : Type) :=
  | Returned (a : A)
  | Raised (e : E).

Arguments Returned {E A} a.
Arguments Raised {E A} e.

(** [getWallets]: the active wallets of a user. *)
Definition getWallets (db : Database) (userId : string) : list Wallet.t :=
  filter (fun w => (Wallet.userId w =? userId)%string && (Wallet.status w =? "active")%string)
         (wallets db).

(** [getWallet]: [walletRepository.findOne({ where: { id: walletId, userId } })],
    and an exception when there is none. *)
Definition getWallet (db : Database) (userId walletId : string)
  : outcome HttpException Wallet.t :=
  match find (fun w => (Wallet.id w =? walletId)%string && (Wallet.userId w =? userId)%string)
             (wallets db) with
  | Some wallet => Returned wallet
  | None => Raised (NotFoundException "Wallet not found")
  end.

(** [getWalletBalances]; the type is ['spot'] when it is not given. *)
Definition getWalletBalances (db : Database) (userId walletId : string)
  (type : option BalanceType) : outcome HttpException (list WalletBalance.t) :=
  let type := match type with Some t => t | None => spot end in
  match getWallet db userId walletId with
  | Raised e => Raised e
  | Returned wallet =>
      Returned
        (filter (fun b => (WalletBalance.walletId b =? Wallet.id wallet)%string
                          && BalanceType_eqb (WalletBalance.type b) type)
                (walletBalances db))
  end.

(** [formatBalance]: the error of the constructor is caught and ['0']
    returned; the parameter [decimals] is not used. *)
Definition formatBalance (balance : string) (decimals : Z) : string :=
  match newDecimal balance with
  | Ok d => Decimal.toString d
  | Throw _ => "0"%string
  end.

(** [Array.prototype.findIndex], [None] standing for -1, and
    [Array.prototype.filter] with a predicate that reads the index. *)
Fixpoint findIndexFrom {A : Type} (f : A -> bool) (l : list A) (i : nat) : option nat :=
  match l with
  | [] => None
  | x :: l' => if f x then Some i else findIndexFrom f l' (S i)
  end.

Definition findIndex {A : Type} (f : A -> bool) (l : list A) : option nat :=
  findIndexFrom f l 0.

Fixpoint filterIndexedFrom {A : Type} (f : A -> nat -> bool) (l : list A) (i : nat)
  : list A :=
  match l with
  | [] => []
  | x :: l' =>
      if f x i then x :: filterIndexedFrom f l' (S i) else filterIndexedFrom f l' (S i)
  end.

Definition filterIndexed {A : Type} (f : A -> nat -> bool) (l : list A) : list A :=
  filterIndexedFrom f l 0.

(** The tokens kept by [getTokenPrices]: those met first for their symbol. *)
Definition uniqueTokens (tokens : list Token.t) : list Token.t :=
  filterIndexed
    (fun token index =>
       match findIndex (fun t => (Token.symbol t =? Token.symbol token)%string) tokens with
       | Some first => (index =? first)%nat
       | None => false
       end)
    tokens.




(** [getTokenPrices], over the price service [getCryptoPrice (symbol, 'USD')],
    where [None] stands for a request that fails; a failed request leaves
    the price 0.  The requests are for distinct symbols and write distinct
    keys, so the order in which they complete does not show in the record. *)
Section TokenPrices.
Variable getCryptoPrice : string -> option JsNumber.number.


Definition requestedSymbols (tokens : list Token.t) : list string :=
  map Token.symbol (uniqueTokens tokens).

End TokenPrices.

(** [getTotalBalance].  [toUpperCase] is the method of strings and
    [getRateForCurrency] the exchange service, [None] standing for a request
    that fails.  Every exception is caught and replaced by one error.  The
    two answers of [getBalances] carry [total], so the branch for an answer
    without [total] is never taken. *)
Variant TotalBalanceError :=
  | FailedToCalculateTotalBalance.

Definition defaultPagination : PaginationParams.t :=
  PaginationParams.mk (JsNumber.ofZ 1) (JsNumber.ofZ 20).

Section TotalBalance.
Variable toUpperCase : string -> string.
Variable getRateForCurrency : string -> option JsNumber.number.

Definition getTotalBalance (db : Database) (userId currency : string)
  (type : option string) : outcome TotalBalanceError JsNumber.number :=
  match getBalances db userId type defaultPagination true with
  | Throw _ => Raised FailedToCalculateTotalBalance
  | Ok data =>
      if (toUpperCase currency =? "USD")%string then Returned (Response.total data)
      else
        match getRateForCurrency currency with
        | Some rate => Returned (JsNumber.mul (Response.total data) rate)
        | None => Raised FailedToCalculateTotalBalance
        end
  end.
End TotalBalance.

(** ** The controller *)

(** [x || d] for an optional number: 0, NaN and a missing value give [d]. *)
Definition numberOr (x : option JsNumber.number) (d : JsNumber.number) : JsNumber.number :=
  match x with
  | Some (S754_zero _) | Some S754_nan | None => d
  | Some v => v
  end.

(** [WalletController.getBalances]: a type other than ['spot'] and
    ['funding'] is dropped, and the page and the limit default to 1 and 20. *)
Definition controllerGetBalances (db : Database) (userId : string) (type : option string)
  (page limit : option JsNumber.number) : result Response.t :=
  let validType :=
    match type with
    | Some t => if (t =? "spot")%string || (t =? "funding")%string then Some t else None
    | None => None
    end in
  getBalances db userId validType
    (PaginationParams.mk (numberOr page (JsNumber.ofZ 1)) (numberOr limit (JsNumber.ofZ 20)))
    true.

(** ** Definitions for the further properties *)

(** All the network contributions of a list of entries. *)
Definition allNetworks (l : list Combined.t) : list NetworkBalance.t :=
  flat_map Combined.networks l.

(** The rows of the base symbol and type of an entry. *)
Definition rowsOfEntry (e : Combined.t) (balances : list WalletBalance.t)
  : list WalletBalance.t :=
  filter (fun r =>
            (Token.baseSymbol (WalletBalance.token r) =? Combined.baseSymbol e)%string
            && BalanceType_eqb (WalletBalance.type r) (Combined.type e))
         balances.

(** The string of the first field of a row that does not parse. *)
Definition offendingField (b : WalletBalance.t) : string :=
  if parses (rawAmount b) then rawPrice (WalletBalance.token b) else rawAmount b.

(** The tokens met first for their symbol, by the symbols seen so far. *)
Fixpoint firstsFrom (seen : list string) (tokens : list Token.t) : list Token.t :=
  match tokens with
  | [] => []
  | t :: tokens' =>
      if existsb (fun s => (s =? Token.symbol t)%string) seen then firstsFrom seen tokens'
      else t :: firstsFrom (Token.symbol t :: seen) tokens'
  end.

(** Upper case for the letters a to z. *)
Definition asciiUpper (s : string) : string :=
  string_of_list_ascii
    (map (fun c => let n := nat_of_ascii c in
                   if (97 <=? n)%nat && (n <=? 122)%nat then ascii_of_nat (n - 32) else c)
         (list_ascii_of_string s)).

(** ** Further sample data *)

Module Scenario.
Local Open Scope string_scope.

(** A second user, with a wallet of her own, beside the first. *)
Definition walletOfBob : Wallet.t := Wallet.mk "w9" "bob" "ethereum" "mainnet" "active".

Definition retiredWallet : Wallet.t := Wallet.mk "w3" "alice" "bitcoin" "mainnet" "inactive".

Definition sharedDb : Database :=
  Build_Database [Sample.wallet1; walletOfBob; retiredWallet]
    [ WalletBalance.mk "w1" "2" spot Sample.btc;
      WalletBalance.mk "w1" "3" funding Sample.eth;
      WalletBalance.mk "w9" "40" spot Sample.eth;
      WalletBalance.mk "w3" "1" spot Sample.btc;
      WalletBalance.mk "w1" "0" spot Sample.doge ]
    [Sample.btc; Sample.eth; Sample.doge].

(** A row whose price is not a decimal literal, behind a good row. *)
Definition badPriceToken : Token.t :=
  Token.mk "BAD" "BAD" "Bad price" 8 "chain" "NATIVE" (Some "n/a") None.

Definition badPriceRows : list WalletBalance.t :=
  [ WalletBalance.mk "w1" "1" spot Sample.btc;
    WalletBalance.mk "w1" "5" spot badPriceToken;
    WalletBalance.mk "w1" "x" spot Sample.eth ].

Definition badPriceDb : Database :=
  Build_Database [Sample.wallet1] badPriceRows [Sample.btc; badPriceToken; Sample.eth].

(** A holding of USDT on a test network only, whose token has no price,
    beside the priced token of the same symbol in the table of tokens; and
    the same with the two tokens stored in the other order. *)
Definition testnetOnlyDb : Database :=
  Build_Database [Sample.wallet1] [Sample.pricelessRow] [Sample.usdtEth; Sample.usdtTest].

Definition testnetFirstDb : Database :=
  Build_Database [Sample.wallet1] [Sample.pricelessRow] [Sample.usdtTest; Sample.usdtEth].

(** A price service that knows two symbols. *)
Definition priceService (symbol : string) : option JsNumber.number :=
  if symbol =? "BTC" then Some (JsNumber.ofZ 10000)
  else if symbol =? "ETH" then Some (JsNumber.ofZ 2000)
  else None.

(** An exchange service that knows one currency. *)
Definition rateService (currency : string) : option JsNumber.number :=
  if currency =? "NGN" then Some (JsNumber.ofZ 1500) else None.
End Scenario.

(** ** Facts about the decimal layer *)

Module DecimalFacts.
Import Decimal.

Lemma pow10_pos n : 0 < pow10 n.
Proof. unfold pow10. apply Z.pow_pos_nonneg; lia. Qed.

Lemma pow10_S n : pow10 (S n) = 10 * pow10 n.
Proof. unfold pow10. rewrite Nat2Z.inj_succ, Z.pow_succ_r; lia. Qed.

Lemma pow10_add a b : pow10 (a + b) = pow10 a * pow10 b.
Proof. unfold pow10. rewrite Nat2Z.inj_add, Z.pow_add_r; lia. Qed.

Lemma inject_pow10_nonzero n : ~ (inject_Z (pow10 n) == 0)%Q.
Proof.
  pose proof (pow10_pos n) as H. unfold Qeq. simpl. lia.
Qed.

(** Two decimals denote the same rational exactly when they agree after
    cross multiplication. *)
Lemma toQ_eq_iff a b :
  (toQ a == toQ b)%Q <-> unscaled a * pow10 (scale b) = unscaled b * pow10 (scale a).
Proof.
  unfold toQ.
  pose proof (inject_pow10_nonzero (scale a)) as Ha.
  pose proof (inject_pow10_nonzero (scale b)) as Hb.
  split; intros H.
  - assert (E : (inject_Z (unscaled a) * inject_Z (pow10 (scale b))
                == inject_Z (unscaled b) * inject_Z (pow10 (scale a)))%Q).
    { transitivity (inject_Z (unscaled a) / inject_Z (pow10 (scale a))
                    * (inject_Z (pow10 (scale a)) * inject_Z (pow10 (scale b))))%Q.
      - field. exact Ha.
      - rewrite H. field. exact Hb. }
    rewrite <- !inject_Z_mult in E. unfold Qeq in E. simpl in E. lia.
  - assert (E : (inject_Z (unscaled a) * inject_Z (pow10 (scale b))
                == inject_Z (unscaled b) * inject_Z (pow10 (scale a)))%Q).
    { rewrite <- !inject_Z_mult. rewrite H. reflexivity. }
    transitivity (inject_Z (unscaled a) * inject_Z (pow10 (scale b))
                  / (inject_Z (pow10 (scale a)) * inject_Z (pow10 (scale b))))%Q.
    + field. split; assumption.
    + rewrite E. field. split; assumption.
Qed.

Lemma normalize_canonical m s : canonical (normalize m s) = true.
Proof.
  revert m. induction s as [|s IH]; intros m; simpl.
  - reflexivity.
  - destruct (m mod 10 =? 0) eqn:E.
    + apply IH.
    + unfold canonical. simpl. rewrite E. reflexivity.
Qed.

Lemma normalize_value m s :
  unscaled (normalize m s) * pow10 s = m * pow10 (scale (normalize m s)).
Proof.
  revert m. induction s as [|s IH]; intros m; simpl.
  - reflexivity.
  - destruct (m mod 10 =? 0) eqn:E.
    + apply Z.eqb_eq in E. rewrite pow10_S.
      specialize (IH (m / 10)).
      pose proof (Z.div_mod m 10 ltac:(lia)) as D.
      rewrite E, Z.add_0_r in D.
      rewrite D at 2. nia.
    + simpl. reflexivity.
Qed.

Lemma normalize_toQ m s : (toQ (normalize m s) == toQ (mk m s))%Q.
Proof. apply toQ_eq_iff. simpl. apply normalize_value. Qed.

Lemma normalize_id d : canonical d = true -> normalize (unscaled d) (scale d) = d.
Proof.
  destruct d as [m s]. unfold canonical. simpl.
  destruct s as [|s]; simpl; [reflexivity|].
  intros H. apply negb_true_iff in H. rewrite H. reflexivity.
Qed.

(** A canonical decimal is determined by the rational it denotes. *)
Lemma canonical_inj a b :
  canonical a = true -> canonical b = true -> (toQ a == toQ b)%Q -> a = b.
Proof.
  assert (W : forall m1 s1 m2 s2, (s1 <= s2)%nat ->
              canonical (mk m1 s1) = true -> canonical (mk m2 s2) = true ->
              m1 * pow10 s2 = m2 * pow10 s1 -> mk m1 s1 = mk m2 s2).
  { intros m1 s1 m2 s2 Hle _ C2 E.
    replace s2 with ((s2 - s1) + s1)%nat in E by lia.
    rewrite pow10_add in E.
    pose proof (pow10_pos s1) as P1.
    assert (E' : m1 * pow10 (s2 - s1) = m2) by nia.
    destruct (s2 - s1)%nat as [|k] eqn:K.
    - assert (s1 = s2) by lia. subst s2.
      unfold pow10 in E'. simpl in E'. f_equal; lia.
    - exfalso. unfold canonical in C2. simpl in C2.
      destruct s2 as [|s2]; [lia|].
      apply negb_true_iff, Z.eqb_neq in C2. apply C2.
      rewrite <- E', pow10_S.
      replace (m1 * (10 * pow10 k)) with ((m1 * pow10 k) * 10) by lia.
      apply Z.mod_mul. lia. }
  intros Ca Cb H. apply toQ_eq_iff in H.
  destruct a as [m1 s1], b as [m2 s2]. simpl in H.
  destruct (Nat.le_ge_cases s1 s2) as [L|L].
  - apply W; assumption.
  - symmetry. apply W; try assumption. symmetry. exact H.
Qed.

Lemma plus_canonical a b : canonical (plus a b) = true.
Proof. apply normalize_canonical. Qed.

Lemma minus_canonical a b : canonical (minus a b) = true.
Proof. apply normalize_canonical. Qed.

Lemma times_canonical a b : canonical (times a b) = true.
Proof. apply normalize_canonical. Qed.

(** Addition, subtraction and multiplication are exact. *)
Lemma plus_toQ a b : (toQ (plus a b) == toQ a + toQ b)%Q.
Proof.
  unfold plus. rewrite normalize_toQ. unfold toQ. simpl.
  set (s := Nat.max (scale a) (scale b)).
  assert (Ea : pow10 s = pow10 (s - scale a) * pow10 (scale a)).
  { rewrite <- pow10_add. f_equal. lia. }
  assert (Eb : pow10 s = pow10 (s - scale b) * pow10 (scale b)).
  { rewrite <- pow10_add. f_equal. lia. }
  pose proof (inject_pow10_nonzero (scale a)).
  pose proof (inject_pow10_nonzero (scale b)).
  pose proof (inject_pow10_nonzero (s - scale a)).
  pose proof (inject_pow10_nonzero (s - scale b)).
  pose proof (inject_pow10_nonzero s) as Hs.
  rewrite inject_Z_plus, !inject_Z_mult.
  transitivity (inject_Z (unscaled a) * inject_Z (pow10 (s - scale a)) / inject_Z (pow10 s)
                + inject_Z (unscaled b) * inject_Z (pow10 (s - scale b)) / inject_Z (pow10 s))%Q.
  { field. exact Hs. }
  rewrite Ea at 1. rewrite Eb. rewrite !inject_Z_mult.
  field. repeat split; assumption.
Qed.

Lemma minus_toQ a b : (toQ (minus a b) == toQ a - toQ b)%Q.
Proof.
  unfold minus. rewrite normalize_toQ. unfold toQ. simpl.
  set (s := Nat.max (scale a) (scale b)).
  assert (Ea : pow10 s = pow10 (s - scale a) * pow10 (scale a)).
  { rewrite <- pow10_add. f_equal. lia. }
  assert (Eb : pow10 s = pow10 (s - scale b) * pow10 (scale b)).
  { rewrite <- pow10_add. f_equal. lia. }
  pose proof (inject_pow10_nonzero (scale a)).
  pose proof (inject_pow10_nonzero (scale b)).
  pose proof (inject_pow10_nonzero (s - scale a)).
  pose proof (inject_pow10_nonzero (s - scale b)).
  pose proof (inject_pow10_nonzero s) as Hs.
  unfold Z.sub at 1. rewrite inject_Z_plus, inject_Z_opp, !inject_Z_mult.
  transitivity (inject_Z (unscaled a) * inject_Z (pow10 (s - scale a)) / inject_Z (pow10 s)
                - inject_Z (unscaled b) * inject_Z (pow10 (s - scale b)) / inject_Z (pow10 s))%Q.
  { field. exact Hs. }
  rewrite Ea at 1. rewrite Eb. rewrite !inject_Z_mult.
  field. repeat split; assumption.
Qed.

Lemma times_toQ a b : (toQ (times a b) == toQ a * toQ b)%Q.
Proof.
  unfold times. rewrite normalize_toQ. unfold toQ. simpl.
  rewrite pow10_add, !inject_Z_mult.
  pose proof (inject_pow10_nonzero (scale a)).
  pose proof (inject_pow10_nonzero (scale b)).
  field. split; assumption.
Qed.

Lemma toQ_zero : (toQ zero == 0)%Q.
Proof. reflexivity. Qed.

Lemma isZero_toQ d : isZero d = true <-> (toQ d == 0)%Q.
Proof.
  unfold isZero. rewrite Z.eqb_eq.
  change 0%Q with (toQ zero). rewrite toQ_eq_iff. simpl.
  pose proof (pow10_pos (scale d)). unfold pow10 at 1. simpl. nia.
Qed.

End DecimalFacts.

(** ** Strings of decimals *)

Module DecimalStrings.
Import Decimal DecimalFacts.

Lemma digitChar_spec d :
  0 <= d < 10 -> isDigit (digitChar d) = true /\ digitValue (digitChar d) = d.
Proof.
  intros H. unfold isDigit, digitValue, digitChar.
  rewrite nat_ascii_embedding by lia.
  split.
  - apply andb_true_iff. split; apply Nat.leb_le; lia.
  - lia.
Qed.

Lemma parseSign_digit c l : isDigit c = true -> parseSign (c :: l) = (false, c :: l).
Proof.
  destruct c as [[] [] [] [] [] [] [] []]; intros H;
    try reflexivity; discriminate H.
Qed.

Lemma isDigit_dot : isDigit "."%char = false.
Proof. reflexivity. Qed.

Lemma spanDigits_all ds : forallb isDigit ds = true -> spanDigits ds = (ds, []).
Proof.
  induction ds as [|c ds IH]; simpl; intros H; [reflexivity|].
  apply andb_true_iff in H. destruct H as [Hc Hds].
  rewrite Hc, (IH Hds). reflexivity.
Qed.

Lemma spanDigits_stop ds c rest :
  forallb isDigit ds = true -> isDigit c = false ->
  spanDigits (ds ++ c :: rest) = (ds, c :: rest).
Proof.
  intros Hds Hc. induction ds as [|x ds IH]; simpl.
  - rewrite Hc. reflexivity.
  - simpl in Hds. apply andb_true_iff in Hds. destruct Hds as [Hx Hds].
    rewrite Hx, (IH Hds). reflexivity.
Qed.

Lemma digitsFuel_digits fuel n acc :
  0 <= n -> forallb isDigit acc = true ->
  forallb isDigit (digitsFuel fuel n acc) = true.
Proof.
  revert n acc. induction fuel as [|f IH]; intros n acc Hn Hacc; cbn [digitsFuel].
  - exact Hacc.
  - assert (Hd : forallb isDigit (digitChar (n mod 10) :: acc) = true).
    { cbn [forallb]. rewrite Hacc, andb_true_r.
      apply digitChar_spec. apply Z.mod_pos_bound. lia. }
    destruct (n / 10 =? 0).
    + exact Hd.
    + apply IH; [apply Z.div_pos; lia | exact Hd].
Qed.

Lemma digitsValueFrom_cons a c ds :
  digitsValueFrom a (c :: ds) = digitsValueFrom (10 * a + digitValue c) ds.
Proof. reflexivity. Qed.

Lemma digitsFuel_value fuel n acc :
  0 <= n < 2 ^ Z.of_nat fuel ->
  digitsValueFrom 0 (digitsFuel fuel n acc) = digitsValueFrom n acc.
Proof.
  revert n acc. induction fuel as [|f IH]; intros n acc H.
  - change (2 ^ Z.of_nat 0) with 1 in H. cbn [digitsFuel]. f_equal. lia.
  - cbn [digitsFuel].
    assert (Hm : 0 <= n mod 10 < 10) by (apply Z.mod_pos_bound; lia).
    pose proof (Z.div_mod n 10 ltac:(lia)) as D.
    destruct (n / 10 =? 0) eqn:E.
    + apply Z.eqb_eq in E. rewrite digitsValueFrom_cons.
      rewrite (proj2 (digitChar_spec _ Hm)). f_equal. lia.
    + rewrite IH.
      * rewrite digitsValueFrom_cons.
        rewrite (proj2 (digitChar_spec _ Hm)). f_equal. lia.
      * rewrite Nat2Z.inj_succ, Z.pow_succ_r in H by lia.
        split; [apply Z.div_pos; lia|].
        apply Z.div_lt_upper_bound; lia.
Qed.

Lemma digitsOf_value n : 0 <= n -> digitsValue (digitsOf n) = n.
Proof.
  intros Hn. unfold digitsValue, digitsOf.
  rewrite digitsFuel_value; [reflexivity|].
  rewrite Nat2Z.inj_succ, Z2Nat.id by apply Z.log2_nonneg.
  destruct (Z.eq_dec n 0) as [->|Hz].
  - split; [lia | reflexivity].
  - split; [lia|]. apply Z.log2_spec. lia.
Qed.

Lemma digitsOf_digits n : 0 <= n -> forallb isDigit (digitsOf n) = true.
Proof. intros Hn. apply digitsFuel_digits; [exact Hn | reflexivity]. Qed.

Lemma padTo_digits k ds : forallb isDigit ds = true -> forallb isDigit (padTo k ds) = true.
Proof.
  intros H. unfold padTo. rewrite forallb_app, H, andb_true_r.
  induction (k - length ds)%nat; simpl; auto.
Qed.

Lemma padTo_value k ds : digitsValue (padTo k ds) = digitsValue ds.
Proof.
  unfold padTo, digitsValue, digitsValueFrom. rewrite fold_left_app.
  f_equal. induction (k - length ds)%nat; simpl; auto.
Qed.

Lemma padTo_length k ds : (k <= length (padTo k ds))%nat.
Proof. unfold padTo. rewrite length_app, repeat_length. lia. Qed.

Lemma parseChars_canonical l d : parseChars l = Some d -> canonical d = true.
Proof.
  unfold parseChars.
  destruct (parseSign l) as [neg l1].
  destruct (spanDigits l1) as [ip l2].
  destruct (match l2 with
            | "."%char :: l2' => spanDigits l2'
            | _ => ([], l2)
            end) as [fp l3].
  destruct (ip ++ fp); [discriminate|].
  destruct (parseExponent l3); [|discriminate].
  intros H. injection H as <-.
  destruct (0 <=? _); [apply normalize_canonical | reflexivity].
Qed.

Lemma ofString_canonical s d : ofString s = Some d -> canonical d = true.
Proof. apply parseChars_canonical. Qed.

Lemma parseChars_printChars d :
  canonical d = true -> parseChars (printChars d) = Some d.
Proof.
  intros C. destruct d as [m s].
  unfold printChars. cbn [unscaled scale].
  set (ds := padTo (S s) (digitsOf (Z.abs m))).
  assert (Hdig : forallb isDigit ds = true).
  { apply padTo_digits, digitsOf_digits. lia. }
  assert (Hval : digitsValue ds = Z.abs m).
  { unfold ds. rewrite padTo_value. apply digitsOf_value. lia. }
  assert (Hlen : (S s <= length ds)%nat) by apply padTo_length.
  set (ip := firstn (length ds - s) ds).
  set (fp := skipn (length ds - s) ds).
  assert (Hsplit : ip ++ fp = ds) by apply firstn_skipn.
  assert (Hfp : length fp = s).
  { unfold fp. rewrite length_skipn. lia. }
  assert (Hipd : forallb isDigit ip = true /\ forallb isDigit fp = true).
  { rewrite <- Hsplit, forallb_app in Hdig. apply andb_true_iff in Hdig. exact Hdig. }
  destruct Hipd as [Hipd Hfpd].
  assert (Hip : exists c ip', ip = c :: ip' /\ isDigit c = true).
  { destruct ip as [|c ip'] eqn:E.
    - exfalso. assert (L : length ip = 0%nat) by (rewrite E; reflexivity).
      unfold ip in L. rewrite length_firstn in L. lia.
    - exists c, ip'. split; [reflexivity|].
      simpl in Hipd. apply andb_true_iff in Hipd. tauto. }
  destruct Hip as (c & ip' & Eip & Hc).
  set (tail := match s with O => [] | S _ => "."%char :: fp end).
  assert (Hsign : parseSign ((if m <? 0 then ["-"%char] else []) ++ ip ++ tail)
                  = (m <? 0, ip ++ tail)).
  { destruct (m <? 0); simpl; [reflexivity|].
    rewrite Eip. simpl. apply parseSign_digit. exact Hc. }
  unfold parseChars. rewrite Hsign.
  assert (Hspan : spanDigits (ip ++ tail) = (ip, tail)).
  { unfold tail. destruct s.
    - rewrite app_nil_r. apply spanDigits_all. exact Hipd.
    - apply spanDigits_stop; [exact Hipd | reflexivity]. }
  rewrite Hspan.
  assert (Hfrac : match tail with
                  | "."%char :: l2' => spanDigits l2'
                  | _ => ([], tail)
                  end = (fp, [])).
  { unfold tail. destruct s.
    - destruct fp; [reflexivity | discriminate Hfp].
    - apply spanDigits_all. exact Hfpd. }
  rewrite Hfrac, Hsplit.
  destruct ds as [|x ds'] eqn:Eds; [simpl in Hlen; lia|].
  cbn [parseExponent]. rewrite Hfp, Z.sub_0_r.
  assert (Hk : (0 <=? Z.of_nat s) = true) by (apply Z.leb_le; lia).
  rewrite Hk, Nat2Z.id. f_equal.
  rewrite Hval.
  replace (if m <? 0 then - Z.abs m else Z.abs m) with m
    by (destruct (Z.ltb_spec m 0); lia).
  apply (normalize_id (mk m s)). exact C.
Qed.

(** Serialising a canonical decimal and parsing it again loses nothing. *)
Lemma ofString_toString d : canonical d = true -> ofString (toString d) = Some d.
Proof.
  intros C. unfold ofString, toString.
  rewrite list_ascii_of_string_of_list_ascii. apply parseChars_printChars. exact C.
Qed.

End DecimalStrings.

(** ** Facts about the result monad and the map *)

Lemma foldM_app {A B : Type} (f : B -> A -> result B) l1 l2 b :
  foldM f (l1 ++ l2) b = (b' <- foldM f l1 b ;; foldM f l2 b').
Proof.
  revert b. induction l1 as [|a l1 IH]; intros b; simpl; [reflexivity|].
  destruct (f b a); simpl; [apply IH | reflexivity].
Qed.

Lemma newDecimal_parses s : parses s = true -> newDecimal s = Ok (decimalOr0 s).
Proof.
  unfold parses, newDecimal, decimalOr0.
  destruct (Decimal.ofString s); [reflexivity | discriminate].
Qed.

Lemma newDecimal_toString d :
  Decimal.canonical d = true -> newDecimal (Decimal.toString d) = Ok d.
Proof.
  intros C. unfold newDecimal. rewrite DecimalStrings.ofString_toString by exact C.
  reflexivity.
Qed.

Lemma decimalOr0_canonical s : Decimal.canonical (decimalOr0 s) = true.
Proof.
  unfold decimalOr0. destruct (Decimal.ofString s) eqn:E.
  - eapply DecimalStrings.ofString_canonical; eassumption.
  - reflexivity.
Qed.

Lemma sumFrom_canonical a l :
  Decimal.canonical a = true -> Decimal.canonical (sumFrom a l) = true.
Proof.
  unfold sumFrom. revert a. induction l as [|x l IH]; intros a C; simpl.
  - exact C.
  - apply IH, DecimalFacts.plus_canonical.
Qed.

Lemma sumFrom_snoc a l x : sumFrom a (l ++ [x]) = Decimal.plus (sumFrom a l) x.
Proof. unfold sumFrom. rewrite fold_left_app. reflexivity. Qed.

Lemma sumFrom_toQ a l :
  (Decimal.toQ (sumFrom a l) == Qsum (map Decimal.toQ (a :: l)))%Q.
Proof.
  unfold sumFrom. revert a. induction l as [|x l IH]; intros a.
  - simpl. ring.
  - cbn [fold_left]. rewrite IH. simpl. rewrite DecimalFacts.plus_toQ. ring.
Qed.

Lemma mapGet_app k m m' :
  mapGet k (m ++ m') = match mapGet k m with
                       | Some v => Some v
                       | None => mapGet k m'
                       end.
Proof.
  induction m as [|[k' v'] m IH]; simpl; [reflexivity|].
  destruct (k' =? k)%string; [reflexivity | exact IH].
Qed.

Lemma mapGet_update k key v m :
  mapGet key m <> None ->
  mapGet k (mapUpdate key v m) = if (key =? k)%string then Some v else mapGet k m.
Proof.
  induction m as [|[k' v'] m IH]; simpl; intros H.
  - congruence.
  - destruct (String.eqb_spec k' key) as [->|Hne]; simpl.
    + destruct (key =? k)%string; reflexivity.
    + destruct (String.eqb_spec k' k) as [->|Hne'].
      * destruct (String.eqb_spec key k); [congruence | reflexivity].
      * apply IH. exact H.
Qed.

Lemma mapUpdate_keys key v m : map fst (mapUpdate key v m) = map fst m.
Proof.
  induction m as [|[k' v'] m IH]; simpl; [reflexivity|].
  destruct (k' =? key)%string; simpl; [reflexivity | rewrite IH; reflexivity].
Qed.

Lemma mapGet_None_keys k m : mapGet k m = None -> ~ In k (map fst m).
Proof.
  induction m as [|[k' v'] m IH]; simpl; intros H; [tauto|].
  destruct (String.eqb_spec k' k) as [->|Hne]; [discriminate|].
  intros [E|E]; [congruence | exact (IH H E)].
Qed.

Lemma mapGet_In k v m : mapGet k m = Some v -> In (k, v) m.
Proof.
  induction m as [|[k' v'] m IH]; simpl; intros H; [discriminate|].
  destruct (String.eqb_spec k' k) as [->|Hne].
  - injection H as ->. left. reflexivity.
  - right. apply IH. exact H.
Qed.

Lemma In_mapGet k v m : NoDup (map fst m) -> In (k, v) m -> mapGet k m = Some v.
Proof.
  induction m as [|[k' v'] m IH]; simpl; intros N H; [tauto|].
  inversion N as [|? ? Hn N']; subst.
  destruct H as [E|H].
  - injection E as -> ->. rewrite String.eqb_refl. reflexivity.
  - destruct (String.eqb_spec k' k) as [->|Hne].
    + exfalso. apply Hn. apply (in_map fst) in H. exact H.
    + apply IH; assumption.
Qed.

(** ** The map that the loop over the rows builds *)

Lemma group_app key l1 l2 : group key (l1 ++ l2) = group key l1 ++ group key l2.
Proof. apply filter_app. Qed.

Lemma entryFor_snoc_other key l b :
  keyOf b <> key -> entryFor key (l ++ [b]) = entryFor key l.
Proof.
  intros H. unfold entryFor. rewrite group_app. unfold group at 2. simpl.
  destruct (String.eqb_spec (keyOf b) key); [contradiction|].
  rewrite app_nil_r. reflexivity.
Qed.

Lemma groupEntry_snoc first others b :
  groupEntry first (others ++ [b]) =
  let e := groupEntry first others in
  Combined.mk (Combined.symbol e) (Combined.baseSymbol e) (Combined.name e)
    (Combined.decimals e)
    (Decimal.toString (Decimal.plus (sumFrom (amountOf first) (map amountOf others)) (amountOf b)))
    (Decimal.toString (Decimal.plus (sumFrom (usdOf first) (map usdOf others)) (usdOf b)))
    (Combined.type e) (Combined.token e) (Combined.networks e ++ [networkOf b]).
Proof.
  unfold groupEntry. cbn [Combined.symbol Combined.baseSymbol Combined.name
    Combined.decimals Combined.type Combined.token Combined.networks].
  cbn [map]. rewrite !map_app. cbn [map]. rewrite !sumFrom_snoc. reflexivity.
Qed.

Lemma usdOf_canonical b : Decimal.canonical (usdOf b) = true.
Proof. apply DecimalFacts.times_canonical. Qed.

Lemma amountOf_canonical b : Decimal.canonical (amountOf b) = true.
Proof. apply decimalOr0_canonical. Qed.

(** The decimals met in the service are in canonical form. *)
Create HintDb canonical.

#[global] Hint Resolve DecimalFacts.plus_canonical DecimalFacts.minus_canonical
  DecimalFacts.times_canonical decimalOr0_canonical sumFrom_canonical
  usdOf_canonical amountOf_canonical : canonical.

(** One step of the loop keeps the description of the map by the rows. *)
Lemma combineStep_spec l m b :
  (forall k, mapGet k m = entryFor k l) ->
  NoDup (map fst m) ->
  wellFormed b = true ->
  exists m', combineStep m b = Ok m'
             /\ (forall k, mapGet k m' = entryFor k (l ++ [b]))
             /\ NoDup (map fst m').
Proof.
  intros Hget Hnd Hwf.
  apply andb_true_iff in Hwf. destruct Hwf as [Ha Hp].
  unfold combineStep.
  fold (rawAmount b). fold (rawPrice (WalletBalance.token b)).
  rewrite (newDecimal_parses _ Ha), (newDecimal_parses _ Hp).
  cbn [bind]. fold (amountOf b). fold (priceOf b). fold (usdOf b).
  rewrite Hget.
  unfold entryFor at 1.
  destruct (group (keyOf b) l) as [|first others] eqn:G.
  - (* a new key *)
    eexists. split; [reflexivity|]. split.
    + intros k. rewrite mapGet_app, Hget.
      destruct (String.eqb_spec (keyOf b) k) as [<-|Hne].
      * unfold entryFor. rewrite group_app, G. unfold group. simpl.
        rewrite String.eqb_refl. reflexivity.
      * rewrite (entryFor_snoc_other _ _ _ Hne).
        destruct (entryFor k l); [reflexivity|].
        simpl. destruct (String.eqb_spec (keyOf b) k); [contradiction | reflexivity].
    + rewrite map_app. simpl.
      apply NoDup_app; [exact Hnd | repeat constructor; intros [] |].
      intros k Hk [<-|[]]. revert Hk.
      apply mapGet_None_keys. rewrite Hget. unfold entryFor. rewrite G. reflexivity.
  - (* a key met before *)
    unfold groupEntry at 1 2. cbn [Combined.balance Combined.usdValue].
    rewrite !newDecimal_toString by auto with canonical.
    cbn [bind].
    eexists. split; [reflexivity|]. split.
    + intros k. rewrite mapGet_update.
      * destruct (String.eqb_spec (keyOf b) k) as [<-|Hne].
        -- unfold entryFor. rewrite group_app, G. unfold group at 1. simpl.
           rewrite String.eqb_refl. simpl.
           rewrite groupEntry_snoc. reflexivity.
        -- rewrite (entryFor_snoc_other _ _ _ Hne). apply Hget.
      * rewrite Hget. unfold entryFor. rewrite G. discriminate.
    + rewrite mapUpdate_keys. exact Hnd.
Qed.

Lemma combineBalances_spec l :
  forallb wellFormed l = true ->
  exists m, combineBalances l = Ok m
            /\ (forall k, mapGet k m = entryFor k l)
            /\ NoDup (map fst m).
Proof.
  unfold combineBalances.
  induction l as [|b l IH] using rev_ind; intros Hwf.
  - exists []. repeat split; constructor.
  - rewrite forallb_app in Hwf. apply andb_true_iff in Hwf.
    destruct Hwf as [Hl Hb]. simpl in Hb. rewrite andb_true_r in Hb.
    destruct (IH Hl) as (m & Hm & Hget & Hnd).
    destruct (combineStep_spec l m b Hget Hnd Hb) as (m' & Hstep & Hget' & Hnd').
    exists m'. rewrite foldM_app, Hm. simpl. rewrite Hstep. simpl. auto.
Qed.

(** A row with a field that does not parse makes the step throw, whatever
    the map holds. *)
Lemma combineStep_throws m b :
  wellFormed b = false -> exists e, combineStep m b = Throw e.
Proof.
  intros H. unfold wellFormed, parses, rawAmount, rawPrice in H.
  unfold combineStep, newDecimal.
  destruct (Decimal.ofString (orZero (WalletBalance.balance b))); simpl.
  - destruct (Decimal.ofString (orZeroOpt (Token.currentPrice (WalletBalance.token b))));
      simpl; [discriminate | eexists; reflexivity].
  - eexists; reflexivity.
Qed.

Lemma foldM_throws {A B : Type} (f : B -> A -> result B) l a :
  In a l -> (forall b, exists e, f b a = Throw e) ->
  forall b, exists e, foldM f l b = Throw e.
Proof.
  intros Hin Hthrow. induction l as [|x l IH]; intros b; [destruct Hin|].
  simpl. destruct Hin as [->|Hin].
  - destruct (Hthrow b) as [e ->]. exists e. reflexivity.
  - destruct (f b x) as [b'|e]; simpl; [apply IH; exact Hin | exists e; reflexivity].
Qed.

Lemma combineBalances_throws l b :
  In b l -> wellFormed b = false -> exists e, combineBalances l = Throw e.
Proof.
  intros Hin Hb. unfold combineBalances.
  apply (foldM_throws combineStep l b Hin).
  intros m. apply combineStep_throws. exact Hb.
Qed.

Lemma combineBalances_wellFormed l m :
  combineBalances l = Ok m -> forallb wellFormed l = true.
Proof.
  intros H. apply forallb_forall. intros b Hin.
  destruct (wellFormed b) eqn:E; [reflexivity|].
  destruct (combineBalances_throws l b Hin E) as [e He]. congruence.
Qed.

(** ** Facts about the entries *)

Lemma group_In key l b : In b (group key l) <-> In b l /\ keyOf b = key.
Proof. unfold group. rewrite filter_In, String.eqb_eq. reflexivity. Qed.

Lemma entryFor_Some key l e :
  entryFor key l = Some e ->
  exists first others,
    group key l = first :: others /\ e = groupEntry first others /\ keyOf first = key.
Proof.
  unfold entryFor. destruct (group key l) as [|first others] eqn:G; [discriminate|].
  intros H. injection H as <-. exists first, others. repeat split.
  apply (group_In key l first). rewrite G. left. reflexivity.
Qed.

Lemma entryFor_key key l e : entryFor key l = Some e -> entryKey e = key.
Proof.
  intros H. destruct (entryFor_Some _ _ _ H) as (first & others & _ & -> & K).
  exact K.
Qed.

Lemma groupEntry_usdValue first others :
  newDecimal (Combined.usdValue (groupEntry first others))
  = Ok (sumFrom (usdOf first) (map usdOf others)).
Proof. apply newDecimal_toString. auto with canonical. Qed.

Lemma groupEntry_balance first others :
  newDecimal (Combined.balance (groupEntry first others))
  = Ok (sumFrom (amountOf first) (map amountOf others)).
Proof. apply newDecimal_toString. auto with canonical. Qed.

Lemma compareBalances_built a b :
  builtEntry a -> builtEntry b -> exists v, compareBalances a b = Ok v.
Proof.
  intros (fa & oa & ->) (fb & ob & ->). unfold compareBalances.
  rewrite !groupEntry_usdValue. cbn [bind].
  destruct (negb _ && negb _); [eexists; reflexivity|].
  destruct (negb _); [eexists; reflexivity|].
  destruct (negb _); eexists; reflexivity.
Qed.

(** ** Facts about sorting *)

Section SortFacts.
Context {A : Type}.
Variable compareFn : A -> A -> result JsNumber.number.
Variable P : A -> Prop.
Hypothesis total : forall x y, P x -> P y -> exists v, compareFn x y = Ok v.

Lemma insertSorted_ok x l :
  P x -> Forall P l ->
  exists s, insertSorted compareFn x l = Ok s /\ Permutation s (x :: l).
Proof.
  intros Hx Hl. induction Hl as [|y l Hy Hl IH]; simpl.
  - exists [x]. split; [reflexivity | apply Permutation_refl].
  - destruct (total x y Hx Hy) as [v ->]. simpl.
    destruct (JsNumber.gt v JsNumber.zero).
    + destruct IH as (s & -> & Hs). simpl. exists (y :: s). split; [reflexivity|].
      etransitivity; [apply perm_skip, Hs | apply perm_swap].
    + exists (x :: y :: l). split; [reflexivity | apply Permutation_refl].
Qed.

Lemma sort_ok l :
  Forall P l -> exists s, sort compareFn l = Ok s /\ Permutation s l.
Proof.
  intros Hl. induction Hl as [|x l Hx Hl IH]; simpl.
  - exists []. split; [reflexivity | constructor].
  - destruct IH as (s & -> & Hs). simpl.
    destruct (insertSorted_ok x s Hx) as (s' & Hs' & Hp).
    + rewrite Forall_forall in *. intros y Hy. apply Hl.
      eapply Permutation_in; eassumption.
    + exists s'. split; [exact Hs'|].
      etransitivity; [exact Hp | apply perm_skip, Hs].
Qed.
End SortFacts.

(** ** The processed balances *)

Lemma mapValues_In l m e :
  (forall k, mapGet k m = entryFor k l) -> NoDup (map fst m) ->
  In e (mapValues m) <-> exists k, entryFor k l = Some e.
Proof.
  intros Hget Hnd. unfold mapValues. rewrite in_map_iff. split.
  - intros ([k e'] & <- & Hin). exists k. rewrite <- Hget.
    apply In_mapGet; assumption.
  - intros (k & Hk). rewrite <- Hget in Hk. exists (k, e).
    split; [reflexivity | apply mapGet_In; exact Hk].
Qed.

Lemma mapValues_keys l m :
  (forall k, mapGet k m = entryFor k l) -> NoDup (map fst m) ->
  map entryKey (mapValues m) = map fst m.
Proof.
  intros Hget Hnd. unfold mapValues. rewrite map_map.
  apply map_ext_in. intros [k e] Hin. simpl.
  apply (entryFor_key k l). rewrite <- Hget. apply In_mapGet; assumption.
Qed.

Lemma entryFor_built k l e : entryFor k l = Some e -> builtEntry e.
Proof.
  intros H. destruct (entryFor_Some _ _ _ H) as (f & o & _ & -> & _).
  exists f, o. reflexivity.
Qed.

(** The processed balances are the entries of the keys of the rows, one for
    each key. *)
Lemma process_spec l :
  forallb wellFormed l = true ->
  exists p, processBalancesWithNetworks l = Ok p
            /\ (forall e, In e p <-> exists k, entryFor k l = Some e)
            /\ NoDup (map entryKey p).
Proof.
  intros Hwf. destruct (combineBalances_spec l Hwf) as (m & Hm & Hget & Hnd).
  unfold processBalancesWithNetworks. rewrite Hm. cbn [bind].
  destruct (sort_ok compareBalances builtEntry compareBalances_built (mapValues m))
    as (p & Hp & Hperm).
  { apply Forall_forall. intros e He.
    apply (mapValues_In l m e Hget Hnd) in He. destruct He as [k Hk].
    eapply entryFor_built; eassumption. }
  exists p. split; [exact Hp|]. split.
  - intros e. rewrite <- (mapValues_In l m e Hget Hnd).
    split; apply Permutation_in; [exact Hperm | symmetry; exact Hperm].
  - apply (Permutation_NoDup (l := map entryKey (mapValues m))).
    + apply Permutation_map. symmetry. exact Hperm.
    + rewrite (mapValues_keys l m Hget Hnd). exact Hnd.
Qed.

Lemma process_wellFormed l p :
  processBalancesWithNetworks l = Ok p -> forallb wellFormed l = true.
Proof.
  unfold processBalancesWithNetworks. intros H.
  destruct (combineBalances l) as [m|e] eqn:E; [|discriminate].
  eapply combineBalances_wellFormed; eassumption.
Qed.

Lemma process_entries l p :
  processBalancesWithNetworks l = Ok p ->
  (forall e, In e p <-> exists k, entryFor k l = Some e) /\ NoDup (map entryKey p).
Proof.
  intros H. destruct (process_spec l (process_wellFormed l p H)) as (p' & Hp' & R).
  rewrite H in Hp'. injection Hp' as <-. exact R.
Qed.

Lemma process_throws l b :
  In b l -> wellFormed b = false -> exists e, processBalancesWithNetworks l = Throw e.
Proof.
  intros Hin Hb. destruct (combineBalances_throws l b Hin Hb) as [e He].
  exists e. unfold processBalancesWithNetworks. rewrite He. reflexivity.
Qed.

Lemma ofString_parses s : parses s = true -> Decimal.ofString s = Some (decimalOr0 s).
Proof.
  unfold parses, decimalOr0. destruct (Decimal.ofString s); [reflexivity | discriminate].
Qed.

Lemma wellFormed_group key l b :
  forallb wellFormed l = true -> In b (group key l) -> wellFormed b = true.
Proof.
  intros Hwf Hin. apply group_In in Hin. destruct Hin as [Hin _].
  rewrite forallb_forall in Hwf. apply Hwf. exact Hin.
Qed.

(** ** Facts about [getBalances] *)

Lemma process_sound l p :
  processBalancesWithNetworks l = Ok p -> Forall soundEntry p.
Proof.
  intros Hp. pose proof (process_wellFormed _ _ Hp) as Hwf.
  destruct (process_entries _ _ Hp) as [Hin _].
  apply Forall_forall. intros e He. apply Hin in He. destruct He as [k Hk].
  destruct (entryFor_Some _ _ _ Hk) as (f & o & G & -> & _).
  exists f, o. split; [reflexivity|].
  apply (wellFormed_group k l); [exact Hwf | rewrite G; left; reflexivity].
Qed.

Lemma toString_nonempty d : Decimal.canonical d = true -> orZero (Decimal.toString d) = Decimal.toString d.
Proof.
  intros C. unfold orZero.
  destruct (String.eqb_spec (Decimal.toString d) "") as [E|E]; [|reflexivity].
  pose proof (DecimalStrings.ofString_toString d C) as R.
  rewrite E in R. discriminate R.
Qed.

Lemma sound_usdDecimal first others :
  usdDecimal (groupEntry first others) = sumFrom (usdOf first) (map usdOf others).
Proof.
  unfold usdDecimal, decimalOr0. cbn [groupEntry Combined.usdValue].
  rewrite DecimalStrings.ofString_toString; [reflexivity | auto with canonical].
Qed.

Lemma sound_amountDecimal first others :
  decimalOr0 (orZero (Combined.balance (groupEntry first others)))
  = sumFrom (amountOf first) (map amountOf others).
Proof.
  cbn [groupEntry Combined.balance].
  rewrite toString_nonempty by auto with canonical.
  unfold decimalOr0.
  rewrite DecimalStrings.ofString_toString; [reflexivity | auto with canonical].
Qed.

Lemma displayOf_sound p showZeroBalances :
  Forall soundEntry p -> displayOf p showZeroBalances = Ok (displayList p showZeroBalances).
Proof.
  intros Hs. unfold displayOf, displayList. destruct showZeroBalances; [reflexivity|].
  induction Hs as [|e p (f & o & -> & _) _ IH]; [reflexivity|].
  cbn [filterM filter]. rewrite groupEntry_usdValue. cbn [bind].
  rewrite IH. cbn [bind]. unfold nonZeroValue. rewrite sound_usdDecimal. reflexivity.
Qed.

Lemma displayList_sound p showZeroBalances :
  Forall soundEntry p -> Forall soundEntry (displayList p showZeroBalances).
Proof.
  intros Hs. unfold displayList. destruct showZeroBalances; [exact Hs|].
  rewrite Forall_forall in *. intros e He. apply filter_In in He. apply Hs, He.
Qed.

Lemma totalStep_sound total e :
  soundEntry e -> totalStep total e = Ok (JsNumber.add total (totalTerm e)).
Proof.
  intros (f & o & -> & Hwf). unfold totalStep, totalTerm.
  cbn [groupEntry Combined.balance Combined.token].
  rewrite toString_nonempty by auto with canonical.
  rewrite newDecimal_toString by auto with canonical.
  apply andb_true_iff in Hwf. destruct Hwf as [_ Hp].
  fold (rawPrice (WalletBalance.token f)).
  rewrite (newDecimal_parses _ Hp). cbn [bind].
  unfold decimalOr0 at 2.
  rewrite DecimalStrings.ofString_toString
    by auto with canonical.
  reflexivity.
Qed.

Lemma foldM_totalStep l total :
  Forall soundEntry l ->
  foldM totalStep l total = Ok (fold_left JsNumber.add (map totalTerm l) total).
Proof.
  intros Hs. revert total. induction Hs as [|e l He _ IH]; intros total; [reflexivity|].
  cbn [foldM map fold_left]. rewrite (totalStep_sound total e He). cbn [bind]. apply IH.
Qed.

Lemma calculateTotal_sound l :
  Forall soundEntry l -> calculateTotal l = Ok (numberSum (map totalTerm l)).
Proof. intros Hs. apply foldM_totalStep. exact Hs. Qed.

Lemma Forall_filter {A : Type} (P : A -> Prop) f l : Forall P l -> Forall P (filter f l).
Proof.
  intros H. rewrite Forall_forall in *. intros x Hx. apply filter_In in Hx. apply H, Hx.
Qed.

Lemma getBalances_empty db userId type pagination showZeroBalances :
  findActiveWallets db userId = [] ->
  getBalances db userId type pagination showZeroBalances = Ok (emptyAnswer pagination).
Proof. intros H. unfold getBalances. rewrite H. reflexivity. Qed.

Lemma getBalances_processed db userId type pagination showZeroBalances p :
  findActiveWallets db userId <> [] ->
  processBalancesWithNetworks (fetched db userId type) = Ok p ->
  getBalances db userId type pagination showZeroBalances
  = Ok (answerOf db pagination (displayList p showZeroBalances)).
Proof.
  intros Hw Hp. unfold getBalances, fetched in *.
  destruct (findActiveWallets db userId) as [|w ws] eqn:W; [contradiction|].
  rewrite Hp. cbn [bind].
  pose proof (process_sound _ _ Hp) as Hs.
  rewrite (displayOf_sound _ showZeroBalances Hs). cbn [bind].
  pose proof (displayList_sound _ showZeroBalances Hs) as Hd.
  rewrite !calculateTotal_sound by (apply Forall_filter; exact Hd).
  cbn [bind]. unfold answerOf.
  destruct (changeTotals db (displayList p showZeroBalances)) as [tc tv].
  reflexivity.
Qed.

Lemma getBalances_throws db userId type pagination showZeroBalances e :
  findActiveWallets db userId <> [] ->
  processBalancesWithNetworks (fetched db userId type) = Throw e ->
  getBalances db userId type pagination showZeroBalances = Throw e.
Proof.
  intros Hw Hp. unfold getBalances, fetched in *.
  destruct (findActiveWallets db userId) as [|w ws] eqn:W; [contradiction|].
  rewrite Hp. reflexivity.
Qed.

Lemma displayed_empty db userId type showZeroBalances :
  findActiveWallets db userId = [] -> displayed db userId type showZeroBalances = Ok [].
Proof. intros H. unfold displayed. rewrite H. reflexivity. Qed.

Lemma displayed_processed db userId type showZeroBalances p :
  findActiveWallets db userId <> [] ->
  processBalancesWithNetworks (fetched db userId type) = Ok p ->
  displayed db userId type showZeroBalances = Ok (displayList p showZeroBalances).
Proof.
  intros Hw Hp. unfold displayed, fetched in *.
  destruct (findActiveWallets db userId) as [|w ws] eqn:W; [contradiction|].
  rewrite Hp. cbn [bind]. apply displayOf_sound. eapply process_sound; eassumption.
Qed.

(** The cases of a call of [getBalances]. *)
Lemma getBalances_cases db userId type pagination showZeroBalances :
  (findActiveWallets db userId = []
   /\ displayed db userId type showZeroBalances = Ok []
   /\ getBalances db userId type pagination showZeroBalances = Ok (emptyAnswer pagination))
  \/ (findActiveWallets db userId <> []
      /\ exists p, processBalancesWithNetworks (fetched db userId type) = Ok p
           /\ displayed db userId type showZeroBalances = Ok (displayList p showZeroBalances)
           /\ getBalances db userId type pagination showZeroBalances
              = Ok (answerOf db pagination (displayList p showZeroBalances)))
  \/ (findActiveWallets db userId <> []
      /\ exists e, processBalancesWithNetworks (fetched db userId type) = Throw e
           /\ displayed db userId type showZeroBalances = Throw e
           /\ getBalances db userId type pagination showZeroBalances = Throw e).
Proof.
  destruct (findActiveWallets db userId) as [|w ws] eqn:W.
  - left. repeat split.
    + apply displayed_empty. exact W.
    + apply getBalances_empty. exact W.
  - right.
    assert (Hw : findActiveWallets db userId <> []) by (rewrite W; discriminate).
    destruct (processBalancesWithNetworks (fetched db userId type)) as [p|e] eqn:Hp.
    + left. split; [discriminate|]. exists p. repeat split.
      * apply displayed_processed; assumption.
      * apply getBalances_processed; assumption.
    + right. split; [discriminate|]. exists e. repeat split.
      * unfold displayed, fetched in *. rewrite W in Hp |- *. rewrite Hp. reflexivity.
      * apply getBalances_throws; assumption.
Qed.

(** ** Facts used by the properties *)

Lemma networks_amounts rows :
  Forall (fun b => wellFormed b = true) rows ->
  map (fun n => Decimal.ofString (NetworkBalance.balance n)) (map networkOf rows)
  = map Some (map amountOf rows).
Proof.
  induction 1 as [|b rows Hb _ IH]; [reflexivity|].
  cbn [map]. rewrite IH. f_equal.
  apply andb_true_iff in Hb. destruct Hb as [Ha _].
  cbn [networkOf NetworkBalance.balance]. apply ofString_parses. exact Ha.
Qed.

Lemma networks_usdValues rows :
  map (fun n => Decimal.ofString (NetworkBalance.usdValue n)) (map networkOf rows)
  = map Some (map usdOf rows).
Proof.
  induction rows as [|b rows IH]; [reflexivity|].
  cbn [map]. rewrite IH. f_equal.
  cbn [networkOf NetworkBalance.usdValue].
  apply DecimalStrings.ofString_toString, usdOf_canonical.
Qed.

Lemma list_ascii_of_string_app s1 s2 :
  list_ascii_of_string (s1 ++ s2)%string
  = list_ascii_of_string s1 ++ list_ascii_of_string s2.
Proof. induction s1 as [|c s1 IH]; simpl; [reflexivity | rewrite IH; reflexivity]. Qed.

Lemma list_ascii_of_string_inj s1 s2 :
  list_ascii_of_string s1 = list_ascii_of_string s2 -> s1 = s2.
Proof.
  intros H. rewrite <- (string_of_list_ascii_of_string s1), H.
  apply string_of_list_ascii_of_string.
Qed.

Lemma mergeKey_chars b t :
  list_ascii_of_string (mergeKey b t)
  = list_ascii_of_string b ++ list_ascii_of_string ("_" ++ typeString t)%string.
Proof. unfold mergeKey. apply list_ascii_of_string_app. Qed.

Lemma mergeKey_inj b1 t1 b2 t2 :
  mergeKey b1 t1 = mergeKey b2 t2 -> b1 = b2 /\ t1 = t2.
Proof.
  intros H. apply (f_equal list_ascii_of_string) in H.
  rewrite !mergeKey_chars in H.
  assert (T : t1 = t2).
  { apply (f_equal (@rev ascii)) in H. rewrite !rev_app_distr in H.
    destruct t1, t2; try reflexivity; simpl in H; discriminate H. }
  split; [|exact T]. subst t2.
  apply app_inv_tail in H. apply list_ascii_of_string_inj. exact H.
Qed.

Lemma BalanceType_eqb_eq a b : BalanceType_eqb a b = true <-> a = b.
Proof. destruct a, b; simpl; split; intros H; congruence. Qed.

Lemma keyOf_sameAsset r r' : (keyOf r' =? keyOf r)%string = sameAsset r r'.
Proof.
  unfold sameAsset, keyOf.
  destruct (String.eqb_spec
              (mergeKey (Token.baseSymbol (WalletBalance.token r')) (WalletBalance.type r'))
              (mergeKey (Token.baseSymbol (WalletBalance.token r)) (WalletBalance.type r)))
    as [E|E].
  - apply mergeKey_inj in E. destruct E as [-> ->].
    rewrite String.eqb_refl. symmetry. apply BalanceType_eqb_eq. reflexivity.
  - symmetry. apply not_true_is_false. intros H.
    apply andb_true_iff in H. destruct H as [Hb Ht].
    apply String.eqb_eq in Hb. apply BalanceType_eqb_eq in Ht.
    apply E. rewrite Hb, Ht. reflexivity.
Qed.

Lemma NoDup_map_inj {A B : Type} (f : A -> B) l x y :
  NoDup (map f l) -> In x l -> In y l -> f x = f y -> x = y.
Proof.
  induction l as [|a l IH]; simpl; intros N Hx Hy E; [tauto|].
  inversion N as [|? ? Hn N']; subst.
  destruct Hx as [->|Hx], Hy as [->|Hy].
  - reflexivity.
  - exfalso. apply Hn. rewrite E. apply in_map. exact Hy.
  - exfalso. apply Hn. rewrite <- E. apply in_map. exact Hx.
  - apply IH; assumption.
Qed.

Lemma Qsum_perm l l' : Permutation l l' -> (Qsum l == Qsum l')%Q.
Proof.
  induction 1 as [|x l l' _ IH|x y l|l l' l'' _ IH1 _ IH2]; simpl.
  - reflexivity.
  - rewrite IH. reflexivity.
  - ring.
  - rewrite IH1. exact IH2.
Qed.

Lemma sumFrom_perm a l b l' :
  Decimal.canonical a = true -> Decimal.canonical b = true ->
  Permutation (a :: l) (b :: l') -> sumFrom a l = sumFrom b l'.
Proof.
  intros Ca Cb Hp. apply DecimalFacts.canonical_inj.
  - apply sumFrom_canonical. exact Ca.
  - apply sumFrom_canonical. exact Cb.
  - rewrite !sumFrom_toQ. apply Qsum_perm, Permutation_map. exact Hp.
Qed.

Lemma group_perm key l l' : Permutation l l' -> Permutation (group key l) (group key l').
Proof.
  unfold group.
  induction 1 as [|x l l' _ IH|x y l|l l' l'' _ IH1 _ IH2]; simpl.
  - constructor.
  - destruct (keyOf x =? key)%string; [apply perm_skip|]; exact IH.
  - destruct (keyOf x =? key)%string, (keyOf y =? key)%string;
      try apply Permutation_refl. apply perm_swap.
  - etransitivity; eassumption.
Qed.

Lemma wellFormed_perm l l' :
  Permutation l l' -> forallb wellFormed l = true -> forallb wellFormed l' = true.
Proof.
  intros Hp H. rewrite forallb_forall in *. intros b Hb. apply H.
  eapply Permutation_in; [symmetry|]; eassumption.
Qed.

Lemma entryFor_perm key l l' first others :
  Permutation l l' -> group key l = first :: others ->
  exists first' others',
    group key l' = first' :: others'
    /\ Permutation (first :: others) (first' :: others')
    /\ keyOf first' = keyOf first.
Proof.
  intros Hp G. pose proof (group_perm key _ _ Hp) as Hg. rewrite G in Hg.
  destruct (group key l') as [|first' others'] eqn:G'.
  - apply Permutation_sym, Permutation_nil in Hg. discriminate.
  - exists first', others'. repeat split; [exact Hg|].
    assert (K : keyOf first = key).
    { apply (group_In key l first). rewrite G. left. reflexivity. }
    assert (K' : keyOf first' = key).
    { apply (group_In key l' first'). rewrite G'. left. reflexivity. }
    congruence.
Qed.

Lemma process_keys l p key :
  processBalancesWithNetworks l = Ok p ->
  In key (map entryKey p) <-> group key l <> [].
Proof.
  intros Hp. destruct (process_entries _ _ Hp) as [Hin _].
  rewrite in_map_iff. split.
  - intros (e & K & He). apply Hin in He. destruct He as [k Hk].
    pose proof (entryFor_key _ _ _ Hk) as K'. rewrite K in K'. subst k.
    unfold entryFor in Hk. destruct (group key l); [discriminate | discriminate].
  - intros G. destruct (group key l) as [|first others] eqn:Gr; [contradiction|].
    assert (Hk : entryFor key l = Some (groupEntry first others)).
    { unfold entryFor. rewrite Gr. reflexivity. }
    exists (groupEntry first others). split.
    + apply (entryFor_key _ _ _ Hk).
    + apply Hin. exists key. exact Hk.
Qed.

Lemma fetched_wallets db userId type b :
  In b (fetched db userId type) -> findActiveWallets db userId <> [].
Proof.
  unfold fetched, queryBalances. intros H E. rewrite E in H.
  apply filter_In in H. destruct H as [_ H]. discriminate H.
Qed.

Lemma usd_scaled rows p :
  Forall (fun b => priceOf b = p) rows ->
  (Qsum (map Decimal.toQ (map usdOf rows))
   == Qsum (map Decimal.toQ (map amountOf rows)) * Decimal.toQ p)%Q.
Proof.
  induction 1 as [|b rows Hb _ IH]; simpl.
  - ring.
  - rewrite IH. unfold usdOf. rewrite DecimalFacts.times_toQ, Hb. ring.
Qed.

Lemma totalTerm_groupEntry first others :
  totalTerm (groupEntry first others)
  = Decimal.toNumber
      (Decimal.times (sumFrom (amountOf first) (map amountOf others)) (priceOf first)).
Proof. unfold totalTerm. rewrite sound_amountDecimal. reflexivity. Qed.

(** With one price for the rows of an entry, the total amount times the
    price is the total USD value. *)
Lemma totalTerm_uniform first others :
  Forall (fun b => priceOf b = priceOf first) others ->
  totalTerm (groupEntry first others) = valueNumber (groupEntry first others).
Proof.
  intros Hu. rewrite totalTerm_groupEntry. unfold valueNumber.
  rewrite sound_usdDecimal. f_equal.
  apply DecimalFacts.canonical_inj.
  - auto with canonical.
  - auto with canonical.
  - rewrite DecimalFacts.times_toQ, !sumFrom_toQ.
    change (usdOf first :: map usdOf others) with (map usdOf (first :: others)).
    change (amountOf first :: map amountOf others) with (map amountOf (first :: others)).
    rewrite (usd_scaled (first :: others) (priceOf first)); [reflexivity|].
    constructor; [reflexivity | exact Hu].
Qed.

Lemma group_uniform key l first others :
  uniformPrices l -> group key l = first :: others ->
  Forall (fun b => priceOf b = priceOf first) others.
Proof.
  intros Hu G.
  assert (Hf : In first l /\ keyOf first = key).
  { apply group_In. rewrite G. left. reflexivity. }
  apply Forall_forall. intros b Hb.
  assert (Hb' : In b l /\ keyOf b = key).
  { apply group_In. rewrite G. right. exact Hb. }
  apply Hu; try tauto.
  rewrite <- keyOf_sameAsset. apply String.eqb_eq.
  destruct Hf as [_ ->], Hb' as [_ ->]. reflexivity.
Qed.

Lemma displayList_In p showZeroBalances e :
  In e (displayList p showZeroBalances) -> In e p.
Proof.
  unfold displayList. destruct showZeroBalances; [tauto|].
  intros H. apply filter_In in H. apply H.
Qed.

Lemma totalTerm_display l p showZeroBalances ty :
  processBalancesWithNetworks l = Ok p -> uniformPrices l ->
  map totalTerm (filter (isType ty) (displayList p showZeroBalances))
  = map valueNumber (filter (isType ty) (displayList p showZeroBalances)).
Proof.
  intros Hp Hu. apply map_ext_in. intros e He.
  apply filter_In in He. destruct He as [He _].
  apply displayList_In in He.
  destruct (process_entries _ _ Hp) as [Hin _].
  apply Hin in He. destruct He as [k Hk].
  destruct (entryFor_Some _ _ _ Hk) as (f & o & G & -> & _).
  apply totalTerm_uniform. eapply group_uniform; eassumption.
Qed.

Lemma usdtRows_uniform : uniformPrices (fetched Sample.usdtDb "alice" None).
Proof.
  intros r r' Hr Hr' _.
  vm_compute in Hr, Hr'.
  destruct Hr as [<-|[<-|[]]], Hr' as [<-|[<-|[]]]; reflexivity.
Qed.

Lemma normalize_zero n : Decimal.normalize 0 n = Decimal.zero.
Proof. induction n as [|n IH]; [reflexivity | exact IH]. Qed.

Lemma times_zero_r a p : Decimal.isZero p = true -> Decimal.times a p = Decimal.zero.
Proof.
  unfold Decimal.isZero, Decimal.times. intros H. apply Z.eqb_eq in H.
  rewrite H, Z.mul_0_r. apply normalize_zero.
Qed.

Lemma noPrice_priceOf b :
  noPrice (WalletBalance.token b) = true -> Decimal.isZero (priceOf b) = true.
Proof. unfold noPrice, priceOf. intros H. apply andb_true_iff in H. apply H. Qed.

(** The price of a token is missing or zero in the sense of [noPrice] when
    the field is [null], empty or a literal of zero. *)
Example noPrice_cases :
  noPrice Sample.doge = true
  /\ noPrice (Token.mk "X" "X" "X" 8 "c" "v" (Some "0.00") None)%string = true
  /\ noPrice (Token.mk "X" "X" "X" 8 "c" "v" (Some "") None)%string = true
  /\ noPrice Sample.btc = false.
Proof. repeat split; vm_compute; reflexivity. Qed.

Lemma changeStep_zero db acc e token :
  findTokenBySymbol db (Combined.symbol e) = Some token ->
  JsNumber.isZero (toNumberOpt (Token.currentPrice token)) = true ->
  JsNumber.isFinite (stringToNumber (Combined.balance e)) = true ->
  JsNumber.isFinite
    (JsNumber.div (toNumberOpt (Token.changePercent24h token)) JsNumber.hundred) = true ->
  changeStep db acc e = acc
  \/ exists z1 z2, JsNumber.isZero z1 = true /\ JsNumber.isZero z2 = true
       /\ changeStep db acc e = (JsNumber.add (fst acc) z1, JsNumber.add (snd acc) z2).
Proof.
  intros Ht Hp Hb Hc. unfold changeStep. destruct acc as [tc tv]. rewrite Ht.
  destruct (JsNumber.gt (stringToNumber (Combined.balance e)) JsNumber.zero);
    [right | left; reflexivity].
  cbn [fst snd].
  destruct (toNumberOpt (Token.currentPrice token)) as [sp| | |]; try discriminate Hp.
  destruct (stringToNumber (Combined.balance e)) as [sb| | |sb mb eb];
    try discriminate Hb;
    destruct (JsNumber.div (toNumberOpt (Token.changePercent24h token)) JsNumber.hundred)
      as [sc| | |sc mc ec]; try discriminate Hc;
    eexists; eexists; (split; [|split; [|reflexivity]]); reflexivity.
Qed.

(** A fetched row whose token has a missing or zero price gets the USD
    value 0, with no error of its own, and its contribution is in the entry
    of its base symbol and type, which is among the balances kept when zero
    balances are shown.  The entry adds 0 to the total of its type when the
    price of the token of its first row is missing or zero, and 0 to the
    24-hour change when the price of the token found by its symbol is
    missing or zero and the amount and the change percentage are finite
    numbers. *)
Lemma priceless_row_contribution (db : Database) (userId : string) (type : option string)
  (processed : list Combined.t) (b : WalletBalance.t) :
  processBalancesWithNetworks (fetched db userId type) = Ok processed ->
  In b (fetched db userId type) ->
  noPrice (WalletBalance.token b) = true ->
  NetworkBalance.usdValue (networkOf b) = "0"%string
  /\ (exists price,
        newDecimal (orZeroOpt (Token.currentPrice (WalletBalance.token b))) = Ok price
        /\ Decimal.isZero price = true)
  /\ exists e,
       displayed db userId type true = Ok processed
       /\ In e processed
       /\ Combined.baseSymbol e = Token.baseSymbol (WalletBalance.token b)
       /\ Combined.type e = WalletBalance.type b
       /\ In (networkOf b) (Combined.networks e)
       /\ (noPrice (Combined.token e) = true -> totalTerm e = JsNumber.zero)
       /\ (forall acc token,
             findTokenBySymbol db (Combined.symbol e) = Some token ->
             JsNumber.isZero (toNumberOpt (Token.currentPrice token)) = true ->
             JsNumber.isFinite (stringToNumber (Combined.balance e)) = true ->
             JsNumber.isFinite
               (JsNumber.div (toNumberOpt (Token.changePercent24h token))
                             JsNumber.hundred) = true ->
             changeStep db acc e = acc
             \/ exists z1 z2, JsNumber.isZero z1 = true /\ JsNumber.isZero z2 = true
                  /\ changeStep db acc e
                     = (JsNumber.add (fst acc) z1, JsNumber.add (snd acc) z2)).
Proof.
  intros Hp Hin Hno.
  assert (Husd : usdOf b = Decimal.zero).
  { apply times_zero_r, noPrice_priceOf. exact Hno. }
  split.
  { cbn [networkOf NetworkBalance.usdValue]. rewrite Husd. reflexivity. }
  split.
  { unfold noPrice in Hno. apply andb_true_iff in Hno. destruct Hno as [P Z].
    exists (decimalOr0 (rawPrice (WalletBalance.token b))).
    split; [apply newDecimal_parses; exact P | exact Z]. }
  destruct (process_entries _ _ Hp) as [Hents _].
  destruct (group (keyOf b) (fetched db userId type)) as [|first others] eqn:G.
  { exfalso. assert (Hg : In b (group (keyOf b) (fetched db userId type)))
      by (apply group_In; split; [exact Hin | reflexivity]).
    rewrite G in Hg. destruct Hg. }
  assert (Hk : entryFor (keyOf b) (fetched db userId type) = Some (groupEntry first others)).
  { unfold entryFor. rewrite G. reflexivity. }
  assert (Hf : keyOf first = keyOf b).
  { apply (group_In (keyOf b) (fetched db userId type) first). rewrite G. left. reflexivity. }
  apply mergeKey_inj in Hf. destruct Hf as [Hb Ht].
  exists (groupEntry first others).
  split.
  { apply (displayed_processed db userId type true processed); [|exact Hp].
    eapply fetched_wallets; eassumption. }
  split; [apply Hents; exists (keyOf b); exact Hk|].
  split; [exact Hb|]. split; [exact Ht|].
  split.
  { cbn [groupEntry Combined.networks]. apply in_map. rewrite <- G.
    apply group_In. split; [exact Hin | reflexivity]. }
  split.
  - intros Hno'. rewrite totalTerm_groupEntry.
    rewrite times_zero_r; [reflexivity|].
    apply noPrice_priceOf. exact Hno'.
  - intros acc token. apply changeStep_zero.
Qed.

(** ** The sign of a number made from a decimal *)

Lemma shr_1_nonneg mrs : 0 <= shr_m mrs -> 0 <= shr_m (shr_1 mrs).
Proof.
  destruct mrs as [m r s]. simpl.
  destruct m as [|[p|p|]|[p|p|]]; simpl; lia.
Qed.

Lemma iter_pos_nonneg n mrs :
  0 <= shr_m mrs -> 0 <= shr_m (SpecFloat.iter_pos shr_1 n mrs).
Proof.
  revert mrs. induction n as [n IH|n IH|]; intros mrs H; simpl.
  - apply IH, IH, shr_1_nonneg, H.
  - apply IH, IH, H.
  - apply shr_1_nonneg, H.
Qed.

Lemma shr_nonneg mrs e n : 0 <= shr_m mrs -> 0 <= shr_m (fst (shr mrs e n)).
Proof.
  intros H. unfold shr. destruct n; simpl; try exact H.
  apply iter_pos_nonneg, H.
Qed.

Lemma shr_record_of_loc_m m l : shr_m (shr_record_of_loc m l) = m.
Proof. destruct l as [|[]]; reflexivity. Qed.

Lemma shr_fexp_nonneg m e l :
  0 <= m -> 0 <= shr_m (fst (shr_fexp JsNumber.prec JsNumber.emax m e l)).
Proof.
  intros H. unfold shr_fexp. apply shr_nonneg. rewrite shr_record_of_loc_m. exact H.
Qed.

Lemma round_nearest_even_nonneg m l : 0 <= m -> 0 <= round_nearest_even m l.
Proof.
  intros H. unfold round_nearest_even. destruct l as [|[]]; try lia.
  destruct (Z.even m); lia.
Qed.

Lemma binary_round_aux_signed s m e l :
  0 <= m -> signed s (binary_round_aux JsNumber.prec JsNumber.emax s m e l).
Proof.
  intros H. unfold binary_round_aux.
  pose proof (shr_fexp_nonneg m e l H) as H1.
  destruct (shr_fexp JsNumber.prec JsNumber.emax m e l) as [mrs' e'].
  cbn [fst] in H1.
  pose proof (shr_fexp_nonneg
                (round_nearest_even (shr_m mrs') (loc_of_shr_record mrs')) e' loc_Exact
                (round_nearest_even_nonneg _ _ H1)) as H2.
  destruct (shr_fexp JsNumber.prec JsNumber.emax
              (round_nearest_even (shr_m mrs') (loc_of_shr_record mrs')) e' loc_Exact)
    as [mrs'' e''].
  cbn [fst] in H2.
  destruct (shr_m mrs'') as [|p|p].
  - reflexivity.
  - destruct (e'' <=? JsNumber.emax - JsNumber.prec); reflexivity.
  - lia.
Qed.

Lemma div_signed s p q :
  signed s (JsNumber.div (S754_finite s p 0) (S754_finite false q 0)).
Proof.
  unfold JsNumber.div, SFdiv.
  destruct (SFdiv_core_binary JsNumber.prec JsNumber.emax (Z.pos p) 0 (Z.pos q) 0)
    as [[mz ez] lz] eqn:E.
  rewrite xorb_false_r. apply binary_round_aux_signed.
  unfold SFdiv_core_binary in E.
  set (m' := match _ - _ - _ with Z0 => _ | Zpos _ => _ | Zneg _ => _ end) in E.
  assert (Hm : 0 <= m').
  { unfold m'. destruct (_ - _ - _); try lia. apply Z.shiftl_nonneg. lia. }
  pose proof (Z.div_pos m' (Z.pos q) Hm ltac:(lia)) as Hq.
  unfold Z.div in Hq. destruct (Z.div_eucl m' (Z.pos q)) as [qq rr].
  injection E as <- _ _. exact Hq.
Qed.

Lemma toNumber_signed d :
  match Decimal.unscaled d with
  | Z0 => Decimal.toNumber d = JsNumber.zero
  | Zpos _ => signed false (Decimal.toNumber d)
  | Zneg _ => signed true (Decimal.toNumber d)
  end.
Proof.
  unfold Decimal.toNumber. destruct (Decimal.unscaled d); [reflexivity| |]; apply div_signed.
Qed.

Lemma gt_zero_signed_true x : signed true x -> JsNumber.gt x JsNumber.zero = false.
Proof. destruct x as [s|s| |s m e]; simpl; intros H; try subst s; try reflexivity; tauto. Qed.

Lemma gt_zero_signed_false x :
  signed false x -> JsNumber.gt x JsNumber.zero = negb (JsNumber.isZero x).
Proof. destruct x as [s|s| |s m e]; simpl; intros H; try subst s; try reflexivity; tauto. Qed.

(** A positive result of the conversion comes from a positive decimal
    only; a positive decimal gives a positive number unless it becomes 0. *)
Lemma gt_zero_toNumber d :
  JsNumber.gt (Decimal.toNumber d) JsNumber.zero
  = (0 <? Decimal.unscaled d) && negb (JsNumber.isZero (Decimal.toNumber d)).
Proof.
  pose proof (toNumber_signed d) as H.
  destruct (Decimal.unscaled d) as [|p|p].
  - rewrite H. reflexivity.
  - rewrite (gt_zero_signed_false _ H). reflexivity.
  - rewrite (gt_zero_signed_true _ H). reflexivity.
Qed.

(** ** The order of decimals *)

Lemma normalize_sign m s : 0 < Decimal.unscaled (Decimal.normalize m s) <-> 0 < m.
Proof.
  pose proof (DecimalFacts.normalize_value m s) as V.
  pose proof (DecimalFacts.pow10_pos s).
  pose proof (DecimalFacts.pow10_pos (Decimal.scale (Decimal.normalize m s))).
  split; intros; nia.
Qed.

Lemma minus_positive a b :
  (0 <? Decimal.unscaled (Decimal.minus b a)) = negb (decimalLeb b a).
Proof.
  unfold decimalLeb, Decimal.minus.
  set (s := Nat.max (Decimal.scale b) (Decimal.scale a)).
  set (m := Decimal.unscaled b * Decimal.pow10 (s - Decimal.scale b)
            - Decimal.unscaled a * Decimal.pow10 (s - Decimal.scale a)).
  assert (K : 0 < m <-> Decimal.unscaled a * Decimal.pow10 (Decimal.scale b)
                        < Decimal.unscaled b * Decimal.pow10 (Decimal.scale a)).
  { unfold m.
    pose proof (DecimalFacts.pow10_pos (Decimal.scale a)).
    pose proof (DecimalFacts.pow10_pos (Decimal.scale b)).
    destruct (Nat.le_ge_cases (Decimal.scale a) (Decimal.scale b)) as [L|L].
    - assert (E1 : Decimal.pow10 (s - Decimal.scale b) = 1).
      { replace (s - Decimal.scale b)%nat with 0%nat by (unfold s; lia). reflexivity. }
      assert (E2 : Decimal.pow10 (s - Decimal.scale a)
                   = Decimal.pow10 (Decimal.scale b - Decimal.scale a)).
      { f_equal. unfold s. lia. }
      assert (E3 : Decimal.pow10 (Decimal.scale b)
                   = Decimal.pow10 (Decimal.scale b - Decimal.scale a)
                     * Decimal.pow10 (Decimal.scale a)).
      { rewrite <- DecimalFacts.pow10_add. f_equal. lia. }
      pose proof (DecimalFacts.pow10_pos (Decimal.scale b - Decimal.scale a)).
      rewrite E1, E2, E3. nia.
    - assert (E1 : Decimal.pow10 (s - Decimal.scale a) = 1).
      { replace (s - Decimal.scale a)%nat with 0%nat by (unfold s; lia). reflexivity. }
      assert (E2 : Decimal.pow10 (s - Decimal.scale b)
                   = Decimal.pow10 (Decimal.scale a - Decimal.scale b)).
      { f_equal. unfold s. lia. }
      assert (E3 : Decimal.pow10 (Decimal.scale a)
                   = Decimal.pow10 (Decimal.scale a - Decimal.scale b)
                     * Decimal.pow10 (Decimal.scale b)).
      { rewrite <- DecimalFacts.pow10_add. f_equal. lia. }
      pose proof (DecimalFacts.pow10_pos (Decimal.scale a - Decimal.scale b)).
      rewrite E1, E2, E3. nia. }
  pose proof (normalize_sign m s) as N.
  destruct (Z.ltb_spec 0 (Decimal.unscaled (Decimal.normalize m s)));
    destruct (Z.leb_spec (Decimal.unscaled b * Decimal.pow10 (Decimal.scale a))
                         (Decimal.unscaled a * Decimal.pow10 (Decimal.scale b)));
    simpl; try reflexivity; exfalso; lia.
Qed.

Lemma decimalLeb_total a b : decimalLeb a b = true \/ decimalLeb b a = true.
Proof. unfold decimalLeb. rewrite !Z.leb_le. lia. Qed.

Lemma decimalLeb_trans a b c :
  decimalLeb a b = true -> decimalLeb b c = true -> decimalLeb a c = true.
Proof.
  unfold decimalLeb. rewrite !Z.leb_le.
  pose proof (DecimalFacts.pow10_pos (Decimal.scale a)).
  pose proof (DecimalFacts.pow10_pos (Decimal.scale b)).
  pose proof (DecimalFacts.pow10_pos (Decimal.scale c)).
  intros L1 L2.
  apply (Z.mul_le_mono_pos_r _ _ (Decimal.pow10 (Decimal.scale b))); [lia|].
  transitivity (Decimal.unscaled b * Decimal.pow10 (Decimal.scale a)
                * Decimal.pow10 (Decimal.scale c)); nia.
Qed.

Lemma decimalLeb_antisym a b :
  Decimal.canonical a = true -> Decimal.canonical b = true ->
  decimalLeb a b = true -> decimalLeb b a = true -> a = b.
Proof.
  unfold decimalLeb. rewrite !Z.leb_le. intros Ca Cb H1 H2.
  apply DecimalFacts.canonical_inj; try assumption.
  apply DecimalFacts.toQ_eq_iff. lia.
Qed.

(** ** The order of symbols *)

Lemma symbolLeb_total a b : symbolLeb a b = true \/ symbolLeb b a = true.
Proof.
  unfold symbolLeb. rewrite (String.compare_antisym b a).
  destruct (String.compare a b); simpl; auto.
Qed.

Lemma symbolLeb_iff a b : symbolLeb a b = true <-> String_as_OT.lt a b \/ a = b.
Proof.
  unfold symbolLeb.
  pose proof (String_as_OT.cmp_lt a b) as L.
  pose proof (String_as_OT.cmp_eq a b) as E.
  unfold String_as_OT.cmp in *.
  destruct (String.compare a b); split; intros H; try reflexivity; try discriminate.
  - right. apply E. reflexivity.
  - left. apply L. reflexivity.
  - destruct H as [H|H]; [apply L in H | apply E in H]; discriminate.
Qed.

Lemma symbolLeb_trans a b c :
  symbolLeb a b = true -> symbolLeb b c = true -> symbolLeb a c = true.
Proof.
  rewrite !symbolLeb_iff. intros [H1| ->] [H2| ->]; auto.
  left. eapply String_as_OT.lt_trans; eassumption.
Qed.

(** ** The sort policy is a total preorder *)

Lemma decimalLeb_refl a : decimalLeb a a = true.
Proof. unfold decimalLeb. apply Z.leb_le. lia. Qed.

Lemma mayPrecede_total a b : mayPrecede a b = true \/ mayPrecede b a = true.
Proof.
  unfold mayPrecede.
  destruct (nonZeroValue a), (nonZeroValue b); simpl; auto.
  - apply or_comm, decimalLeb_total.
  - apply symbolLeb_total.
Qed.

Lemma mayPrecede_trans a b c :
  mayPrecede a b = true -> mayPrecede b c = true -> mayPrecede a c = true.
Proof.
  unfold mayPrecede.
  destruct (nonZeroValue a), (nonZeroValue b), (nonZeroValue c); simpl;
    try discriminate; try reflexivity.
  - intros H1 H2. eapply decimalLeb_trans; eassumption.
  - apply symbolLeb_trans.
Qed.

(** ** Sorting with a comparison function that follows a total preorder *)

Section SortedFacts.
Context {A : Type}.
Variable compareFn : A -> A -> result JsNumber.number.
Variable leb : A -> A -> bool.
Variable P : A -> Prop.
Hypothesis compare_leb :
  forall x y, P x -> P y ->
    exists v, compareFn x y = Ok v /\ JsNumber.gt v JsNumber.zero = negb (leb x y).
Hypothesis leb_total : forall x y, leb x y = true \/ leb y x = true.
Hypothesis leb_trans : forall x y z, leb x y = true -> leb y z = true -> leb x z = true.

Lemma insertSorted_sorted x l s :
  P x -> Forall P l ->
  StronglySorted (fun a b => leb a b = true) l ->
  insertSorted compareFn x l = Ok s ->
  StronglySorted (fun a b => leb a b = true) s /\ Permutation s (x :: l).
Proof.
  intros Hx Hl Hs. revert s.
  induction Hs as [|y l Hs IH Hy]; intros s; simpl.
  - intros E. injection E as <-. split; [|apply Permutation_refl].
    constructor; constructor.
  - apply Forall_cons_iff in Hl. destruct Hl as [Py Pl].
    destruct (compare_leb x y Hx Py) as (v & -> & Hv). cbn [bind]. rewrite Hv.
    destruct (leb x y) eqn:L; cbn [negb].
    + intros E. injection E as <-. split; [|apply Permutation_refl].
      constructor; [constructor; assumption|].
      constructor; [exact L|].
      rewrite Forall_forall in *. intros z Hz. eapply leb_trans; [exact L|].
      apply Hy. exact Hz.
    + destruct (insertSorted compareFn x l) as [rest|e] eqn:R; cbn [bind];
        [|discriminate].
      intros E. injection E as <-.
      destruct (IH Pl rest eq_refl) as [Sr Pr].
      split.
      * constructor; [exact Sr|].
        apply Forall_forall. intros z Hz.
        apply (Permutation_in _ Pr) in Hz. destruct Hz as [<-|Hz].
        -- destruct (leb_total x y) as [T|T]; [congruence | exact T].
        -- rewrite Forall_forall in Hy. apply Hy. exact Hz.
      * etransitivity; [apply perm_skip, Pr | apply perm_swap].
Qed.

Lemma sort_sorted l s :
  Forall P l -> sort compareFn l = Ok s ->
  StronglySorted (fun a b => leb a b = true) s /\ Permutation s l.
Proof.
  intros Hl. revert s. induction Hl as [|x l Hx Hl IH]; intros s; simpl.
  - intros E. injection E as <-. split; constructor.
  - destruct (sort compareFn l) as [sorted|e]; cbn [bind]; [|discriminate].
    destruct (IH sorted eq_refl) as [Ss Ps]. intros E.
    destruct (insertSorted_sorted x sorted s Hx) as [S' P']; try assumption.
    + rewrite Forall_forall in *. intros z Hz. apply Hl.
      eapply Permutation_in; eassumption.
    + split; [exact S'|]. etransitivity; [exact P' | apply perm_skip, Ps].
Qed.
End SortedFacts.

(** ** The processed balances are sorted unless a difference underflows *)

Lemma built_usdValue e :
  builtEntry e -> newDecimal (Combined.usdValue e) = Ok (usdDecimal e).
Proof.
  intros (f & o & ->). rewrite groupEntry_usdValue, sound_usdDecimal. reflexivity.
Qed.

Lemma built_canonical e : builtEntry e -> Decimal.canonical (usdDecimal e) = true.
Proof.
  intros (f & o & ->). rewrite sound_usdDecimal.
  apply sumFrom_canonical, usdOf_canonical.
Qed.

Lemma compareBalances_policy l a b :
  noUnderflow l -> In a l -> In b l -> builtEntry a -> builtEntry b ->
  exists v, compareBalances a b = Ok v
            /\ JsNumber.gt v JsNumber.zero = negb (mayPrecede a b).
Proof.
  intros Hu Ia Ib Ba Bb. unfold compareBalances.
  rewrite (built_usdValue a Ba), (built_usdValue b Bb). cbn [bind].
  unfold mayPrecede.
  pose proof (Hu a b Ia Ib) as U. unfold nonZeroValue in *.
  destruct (negb (Decimal.isZero (usdDecimal a))) eqn:Za;
    destruct (negb (Decimal.isZero (usdDecimal b))) eqn:Zb; cbn [andb].
  - eexists. split; [reflexivity|].
    rewrite gt_zero_toNumber, minus_positive.
    destruct (decimalLeb (usdDecimal b) (usdDecimal a)) eqn:L; [reflexivity|].
    rewrite U; try reflexivity.
    intros E. rewrite E, decimalLeb_refl in L. discriminate L.
  - eexists. split; reflexivity.
  - eexists. split; reflexivity.
  - eexists. split; [reflexivity|]. unfold localeCompare, symbolLeb.
    destruct (String.compare (Combined.symbol a) (Combined.symbol b)); reflexivity.
Qed.

(** The order of the processed balances is the one of the sort policy when
    no difference of values underflows. *)
Lemma process_sorted l p :
  processBalancesWithNetworks l = Ok p -> noUnderflow p -> sortedByPolicy p.
Proof.
  intros Hp Hu. unfold processBalancesWithNetworks in Hp.
  pose proof (process_wellFormed l p) as W.
  destruct (combineBalances l) as [m|e] eqn:Hm; [|discriminate].
  cbn [bind] in Hp.
  destruct (combineBalances_spec l) as (m' & Hm' & Hget & Hnd).
  { apply W. unfold processBalancesWithNetworks. rewrite Hm. exact Hp. }
  rewrite Hm in Hm'. injection Hm' as <-.
  assert (Hb : Forall builtEntry (mapValues m)).
  { apply Forall_forall. intros x Hx. apply (mapValues_In l m x Hget Hnd) in Hx.
    destruct Hx as [k Hk]. eapply entryFor_built; eassumption. }
  destruct (sort_ok compareBalances builtEntry compareBalances_built (mapValues m) Hb)
    as (p' & Hp' & Hperm).
  rewrite Hp in Hp'. injection Hp' as <-.
  apply (sort_sorted compareBalances mayPrecede (fun x => In x p /\ builtEntry x))
    with (l := mapValues m).
  - intros x y [Ix Bx] [Iy By]. eapply compareBalances_policy; eassumption.
  - apply mayPrecede_total.
  - apply mayPrecede_trans.
  - rewrite Forall_forall in *. intros x Hx. split; [|apply Hb; exact Hx].
    eapply Permutation_in; [symmetry; exact Hperm | exact Hx].
  - exact Hp.
Qed.

Lemma StronglySorted_filter {A : Type} (R : A -> A -> Prop) f l :
  StronglySorted R l -> StronglySorted R (filter f l).
Proof.
  induction 1 as [|x l Hs IH Hx]; simpl; [constructor|].
  destruct (f x); [|exact IH]. constructor; [exact IH|].
  rewrite Forall_forall in *. intros y Hy. apply filter_In in Hy. apply Hx, Hy.
Qed.

(** The same for the balances kept for display. *)
Lemma display_sorted l p showZeroBalances :
  processBalancesWithNetworks l = Ok p -> noUnderflow p ->
  sortedByPolicy (displayList p showZeroBalances).
Proof.
  intros Hp Hu. pose proof (process_sorted l p Hp Hu) as S.
  unfold displayList. destruct showZeroBalances; [exact S|].
  apply StronglySorted_filter. exact S.
Qed.

(** * The properties of the specification *)

(** ** The sum invariant *)

(** C1: every entry that [processBalancesWithNetworks] produces holds, as
    its total amount, the exact sum of the amounts of its network
    contributions and, as its total USD value, the exact sum of their USD
    values: the strings parse to decimals whose rational values add up
    without any error. *)
Theorem C1_sum_invariant (balances : list WalletBalance.t)
  (processed : list Combined.t) (e : Combined.t) :
  processBalancesWithNetworks balances = Ok processed ->
  In e processed ->
  exists total totalUsd amounts usdValues,
    Decimal.ofString (Combined.balance e) = Some total
    /\ Decimal.ofString (Combined.usdValue e) = Some totalUsd
    /\ map (fun n => Decimal.ofString (NetworkBalance.balance n)) (Combined.networks e)
       = map Some amounts
    /\ map (fun n => Decimal.ofString (NetworkBalance.usdValue n)) (Combined.networks e)
       = map Some usdValues
    /\ (Decimal.toQ total == Qsum (map Decimal.toQ amounts))%Q
    /\ (Decimal.toQ totalUsd == Qsum (map Decimal.toQ usdValues))%Q.
Proof.
  intros Hp He.
  pose proof (process_wellFormed _ _ Hp) as Hwf.
  destruct (process_entries _ _ Hp) as [Hin _].
  apply Hin in He. destruct He as [k Hk].
  destruct (entryFor_Some _ _ _ Hk) as (first & others & G & -> & _).
  exists (sumFrom (amountOf first) (map amountOf others)),
         (sumFrom (usdOf first) (map usdOf others)),
         (map amountOf (first :: others)), (map usdOf (first :: others)).
  repeat split.
  - apply DecimalStrings.ofString_toString. auto with canonical.
  - apply DecimalStrings.ofString_toString. auto with canonical.
  - apply networks_amounts. apply Forall_forall. intros b Hb.
    apply (wellFormed_group k balances); [exact Hwf | rewrite G; exact Hb].
  - apply networks_usdValues.
  - apply sumFrom_toQ.
  - apply sumFrom_toQ.
Qed.

Lemma C1_sum_invariant_witness :
  exists total totalUsd amounts usdValues,
    Decimal.ofString (Combined.balance Sample.usdtEntry) = Some total
    /\ Decimal.ofString (Combined.usdValue Sample.usdtEntry) = Some totalUsd
    /\ map (fun n => Decimal.ofString (NetworkBalance.balance n))
           (Combined.networks Sample.usdtEntry) = map Some amounts
    /\ map (fun n => Decimal.ofString (NetworkBalance.usdValue n))
           (Combined.networks Sample.usdtEntry) = map Some usdValues
    /\ (Decimal.toQ total == Qsum (map Decimal.toQ amounts))%Q
    /\ (Decimal.toQ totalUsd == Qsum (map Decimal.toQ usdValues))%Q.
Proof.
  apply (C1_sum_invariant Sample.usdtRows [Sample.usdtEntry] Sample.usdtEntry).
  - vm_compute. reflexivity.
  - left. reflexivity.
Defined.

(** ** Merge commutativity *)

(** C2, as amended: for two inputs that are permutations of each other the
    processing succeeds on both or on none, the results hold as many
    entries, and to each entry of one run answers an entry of the other of
    the same base symbol and type, the same total amount and total USD
    value, and the same network contributions up to their order.  The
    display fields [symbol], [name], [decimals] and [token] are those of the
    first row of the key in each input order: the entries agree on them as
    well when the rows of one base symbol and type carry the same token. *)
Theorem C2_merge_commutes (balances1 balances2 : list WalletBalance.t)
  (processed1 : list Combined.t) :
  Permutation balances1 balances2 ->
  processBalancesWithNetworks balances1 = Ok processed1 ->
  exists processed2,
    processBalancesWithNetworks balances2 = Ok processed2
    /\ length processed1 = length processed2
    /\ forall e1, In e1 processed1 ->
         exists e2, In e2 processed2
           /\ Combined.baseSymbol e1 = Combined.baseSymbol e2
           /\ Combined.type e1 = Combined.type e2
           /\ Combined.balance e1 = Combined.balance e2
           /\ Combined.usdValue e1 = Combined.usdValue e2
           /\ Permutation (Combined.networks e1) (Combined.networks e2)
           /\ ((forall r r', In r balances1 -> In r' balances1 ->
                  sameAsset r r' = true ->
                  WalletBalance.token r = WalletBalance.token r') ->
               sameUpToNetworks e1 e2).
Proof.
  intros Hperm Hp1.
  pose proof (process_wellFormed _ _ Hp1) as Hwf1.
  pose proof (wellFormed_perm _ _ Hperm Hwf1) as Hwf2.
  destruct (process_spec _ Hwf2) as (p2 & Hp2 & Hin2 & Hnd2).
  destruct (process_entries _ _ Hp1) as [Hin1 Hnd1].
  exists p2. split; [exact Hp2|]. split.
  - rewrite <- (length_map entryKey processed1), <- (length_map entryKey p2).
    apply Permutation_length, NoDup_Permutation; try assumption.
    intros k. rewrite (process_keys _ _ k Hp1), (process_keys _ _ k Hp2).
    pose proof (group_perm k _ _ Hperm) as Hg.
    split; intros H E; apply H.
    + rewrite E in Hg. apply Permutation_nil. symmetry. exact Hg.
    + rewrite E in Hg. apply Permutation_nil. exact Hg.
  - intros e1 He1. apply Hin1 in He1. destruct He1 as [k Hk].
    destruct (entryFor_Some _ _ _ Hk) as (f1 & o1 & G1 & -> & K1).
    destruct (entryFor_perm k _ _ f1 o1 Hperm G1) as (f2 & o2 & G2 & Hg & K2).
    assert (Hk2 : entryFor k balances2 = Some (groupEntry f2 o2)).
    { unfold entryFor. rewrite G2. reflexivity. }
    pose proof (mergeKey_inj _ _ _ _ K2) as [Eb Et].
    assert (Ebal : sumFrom (amountOf f1) (map amountOf o1)
                   = sumFrom (amountOf f2) (map amountOf o2)).
    { apply sumFrom_perm; auto with canonical.
      apply (Permutation_map amountOf) in Hg. exact Hg. }
    assert (Eusd : sumFrom (usdOf f1) (map usdOf o1)
                   = sumFrom (usdOf f2) (map usdOf o2)).
    { apply sumFrom_perm; auto with canonical.
      apply (Permutation_map usdOf) in Hg. exact Hg. }
    assert (Enet : Permutation (map networkOf (f1 :: o1)) (map networkOf (f2 :: o2))).
    { apply Permutation_map. exact Hg. }
    exists (groupEntry f2 o2).
    split; [apply Hin2; exists k; exact Hk2|].
    unfold sameUpToNetworks, groupEntry.
    cbn [Combined.symbol Combined.baseSymbol Combined.name Combined.decimals
         Combined.balance Combined.usdValue Combined.type Combined.token
         Combined.networks].
    rewrite Ebal, Eusd, Eb, Et.
    do 4 (split; [reflexivity|]). split; [exact Enet|].
    intros Htok.
    assert (T : WalletBalance.token f2 = WalletBalance.token f1).
    { assert (I1 : In f1 balances1).
      { apply (group_In k balances1 f1). rewrite G1. left. reflexivity. }
      assert (I2 : In f2 balances1).
      { apply (Permutation_in (l := balances2)); [symmetry; exact Hperm|].
        apply (group_In k balances2 f2). rewrite G2. left. reflexivity. }
      symmetry. apply Htok; try assumption.
      rewrite <- keyOf_sameAsset. apply String.eqb_eq. exact K2. }
    rewrite T. repeat split; try reflexivity. exact Enet.
Qed.

Lemma C2_merge_commutes_witness :
  exists processed2,
    processBalancesWithNetworks (rev Sample.usdtRows) = Ok processed2
    /\ length [Sample.usdtEntry] = length processed2
    /\ forall e1, In e1 [Sample.usdtEntry] ->
         exists e2, In e2 processed2
           /\ Combined.baseSymbol e1 = Combined.baseSymbol e2
           /\ Combined.type e1 = Combined.type e2
           /\ Combined.balance e1 = Combined.balance e2
           /\ Combined.usdValue e1 = Combined.usdValue e2
           /\ Permutation (Combined.networks e1) (Combined.networks e2)
           /\ ((forall r r', In r Sample.usdtRows -> In r' Sample.usdtRows ->
                  sameAsset r r' = true ->
                  WalletBalance.token r = WalletBalance.token r') ->
               sameUpToNetworks e1 e2).
Proof.
  apply (C2_merge_commutes Sample.usdtRows (rev Sample.usdtRows) [Sample.usdtEntry]).
  - apply Permutation_rev.
  - vm_compute. reflexivity.
Defined.

(** C2 fails as stated: USDT has 6 decimals on one network and 18 on the
    other; the entry takes its display fields from the row met first, so the
    two orders of the rows give entries that differ in [decimals] and in
    [token]. *)
Lemma C2_counterexample :
  Permutation Sample.usdtRows (rev Sample.usdtRows)
  /\ processBalancesWithNetworks Sample.usdtRows = Ok [Sample.usdtEntry]
  /\ exists processed2,
       processBalancesWithNetworks (rev Sample.usdtRows) = Ok processed2
       /\ forall e2, In e2 processed2 -> ~ sameUpToNetworks Sample.usdtEntry e2.
Proof.
  split; [apply Permutation_rev|]. split; [vm_compute; reflexivity|].
  eexists. split; [vm_compute; reflexivity|].
  intros e2 [<-|[]] (_ & _ & _ & D & _). discriminate D.
Qed.

(** ** The sort order *)

(** C3 fails on the code: the comparison function returns the difference
    of two values as a number, and a difference below the least positive
    number becomes 0.  Two entries worth 1e-400 and 2e-400 are then taken as
    equal and stay in the order of the input, the lower value first. *)
Theorem C3_order_lost_by_underflow :
  exists a b,
    processBalancesWithNetworks Sample.tinyRows = Ok [a; b]
    /\ Combined.symbol a = "AAA"%string /\ Combined.symbol b = "BBB"%string
    /\ nonZeroValue a = true /\ nonZeroValue b = true
    /\ decimalLeb (usdDecimal b) (usdDecimal a) = false
    /\ compareBalances a b = Ok JsNumber.zero
    /\ ~ sortedByPolicy [a; b].
Proof.
  eexists. eexists.
  split; [vm_compute; reflexivity|].
  do 6 (split; [vm_compute; reflexivity|]).
  intros S. apply StronglySorted_inv in S. destruct S as [_ F].
  apply Forall_inv in F. vm_compute in F. discriminate F.
Qed.

(** ** The totals of a type *)

(** C4, as amended: when the rows of one base symbol and type carry the
    same price, [spotTotal] is the sum of the total USD values of the spot
    entries kept for display, each value made a number and the numbers
    added from the left to 0; [fundingTotal] is the same over the funding
    entries. *)
Theorem C4_type_totals (db : Database) (userId : string) (type : option string)
  (pagination : PaginationParams.t) (showZeroBalances : bool) (r : Response.t)
  (displayBalances : list Combined.t) :
  findActiveWallets db userId <> [] ->
  uniformPrices (fetched db userId type) ->
  getBalances db userId type pagination showZeroBalances = Ok r ->
  displayed db userId type showZeroBalances = Ok displayBalances ->
  Response.spotTotal r
  = Some (numberSum (map valueNumber (filter (isType spot) displayBalances)))
  /\ Response.fundingTotal r
     = Some (numberSum (map valueNumber (filter (isType funding) displayBalances))).
Proof.
  intros W Hu G D.
  destruct (getBalances_cases db userId type pagination showZeroBalances)
    as [(W' & _) | [(_ & p & Hp & D' & G') | (_ & e & _ & _ & G')]];
    [contradiction | | rewrite G' in G; discriminate G].
  rewrite G' in G. injection G as <-.
  rewrite D' in D. injection D as <-.
  cbn [answerOf Response.spotTotal Response.fundingTotal].
  rewrite !(totalTerm_display _ _ _ _ Hp Hu). split; reflexivity.
Qed.

Lemma C4_type_totals_witness :
  exists r displayBalances,
    getBalances Sample.usdtDb "alice" None Sample.firstPage true = Ok r
    /\ displayed Sample.usdtDb "alice" None true = Ok displayBalances
    /\ Response.spotTotal r
       = Some (numberSum (map valueNumber (filter (isType spot) displayBalances)))
    /\ Response.fundingTotal r
       = Some (numberSum (map valueNumber (filter (isType funding) displayBalances))).
Proof.
  eexists. eexists.
  split; [vm_compute; reflexivity|].
  split; [vm_compute; reflexivity|].
  apply (C4_type_totals Sample.usdtDb "alice" None Sample.firstPage true).
  - discriminate.
  - exact usdtRows_uniform.
  - vm_compute. reflexivity.
  - vm_compute. reflexivity.
Defined.

(** C4 fails as stated: with one entry worth 0.2 dollars and one worth 0.1
    the exact sum is 0.3, which as a number is 0.29999999999999999, while
    [calculateTotal] makes each value a number and adds the numbers, which
    gives 0.30000000000000004. *)
Lemma C4_counterexample :
  exists r displayBalances,
    getBalances Sample.dimesDb "alice" None Sample.firstPage true = Ok r
    /\ displayed Sample.dimesDb "alice" None true = Ok displayBalances
    /\ map Combined.usdValue displayBalances = ["0.2"; "0.1"]%string
    /\ exactTotal spot displayBalances = S754_finite false 5404319552844595 (-54)
    /\ Response.spotTotal r = Some (S754_finite false 5404319552844596 (-54))
    /\ Response.spotTotal r <> Some (exactTotal spot displayBalances).
Proof.
  eexists. eexists.
  split; [vm_compute; reflexivity|].
  split; [vm_compute; reflexivity|].
  repeat split; try (vm_compute; reflexivity).
  vm_compute. discriminate.
Qed.

(** The total of a type follows the price of the first row of an entry:
    USDT held without price on a test network (5) and with the price 1 on
    the main network (10) is one entry worth 10 dollars, and [spotTotal] is
    0 when the row without price comes first. *)
Example total_by_first_price :
  exists r displayBalances,
    getBalances Sample.pricelessFirstDb "alice" None Sample.firstPage true = Ok r
    /\ displayed Sample.pricelessFirstDb "alice" None true = Ok displayBalances
    /\ map Combined.usdValue displayBalances = ["10"%string]
    /\ Response.spotTotal r = Some JsNumber.zero.
Proof.
  eexists. eexists.
  split; [vm_compute; reflexivity|].
  split; [vm_compute; reflexivity|].
  split; vm_compute; reflexivity.
Qed.

(** The sum of numbers is not the number of the sum: one entry worth 0.1
    and one worth 0.2 total 0.30000000000000004, while 0.3 as a number is
    0.29999999999999999. *)
Example numbers_are_added_one_by_one :
  let a := Decimal.mk 1 1 in
  let b := Decimal.mk 2 1 in
  JsNumber.add (JsNumber.add JsNumber.zero (Decimal.toNumber a)) (Decimal.toNumber b)
  = S754_finite false 5404319552844596 (-54)
  /\ Decimal.toNumber (Decimal.plus a b) = S754_finite false 5404319552844595 (-54).
Proof. split; vm_compute; reflexivity. Qed.

(** ** Pagination *)

(** C5 fails on the code: [getBalances] computes the coerced page number
    and page size, but slices with the parameters as given.  On three
    balances with page 0 and limit 1 it returns no balance, while the first
    page by the coerced parameters holds the balance of the highest value. *)
Theorem C5_slice_uses_raw_parameters :
  let pagination := PaginationParams.mk (JsNumber.ofZ 0) (JsNumber.ofZ 1) in
  exists r displayBalances,
    getBalances Sample.threeDb "alice" None pagination true = Ok r
    /\ displayed Sample.threeDb "alice" None true = Ok displayBalances
    /\ map Combined.symbol displayBalances = ["AAA"; "BBB"; "CCC"]%string
    /\ Response.balances r = []
    /\ map Combined.symbol (pageOfCoerced displayBalances pagination) = ["AAA"%string]
    /\ Pagination.page (Response.pagination r) = JsNumber.ofZ 0.
Proof.
  eexists. eexists.
  split; [vm_compute; reflexivity|].
  split; [vm_compute; reflexivity|].
  repeat split; vm_compute; reflexivity.
Qed.

(** The same with page -1: the second balance is returned instead of the
    first. *)
Example slice_negative_page :
  let pagination := PaginationParams.mk (JsNumber.ofZ (-1)) (JsNumber.ofZ 1) in
  exists r,
    getBalances Sample.threeDb "alice" None pagination true = Ok r
    /\ map Combined.symbol (Response.balances r) = ["BBB"%string].
Proof. eexists. split; vm_compute; reflexivity. Qed.

(** With parameters that need no coercion the page is the one of the
    specification (fourth scenario). *)
Example slice_second_page :
  let pagination := PaginationParams.mk (JsNumber.ofZ 2) (JsNumber.ofZ 1) in
  exists r,
    getBalances Sample.threeDb "alice" None pagination true = Ok r
    /\ map Combined.symbol (Response.balances r) = ["BBB"%string]
    /\ Pagination.hasMore (Response.pagination r) = true
    /\ Pagination.totalPages (Response.pagination r) = JsNumber.ofZ 3.
Proof. eexists. repeat split; vm_compute; reflexivity. Qed.

(** ** The change percentage *)

(** C6 fails on the code: a user who holds 5 USDT of a test network,
    whose token has no price, has a portfolio worth 0: the USD value of the
    one entry is 0 and so are [spotTotal], [fundingTotal] and [total].  The
    loop of the 24-hour change values the entry at the price of the token it
    finds by symbol, the priced USDT, so its total value is 5 and
    [changePercent24h] is 0.01 and not 0; with the two tokens stored in the
    other order it is 0. *)
Theorem C6_zero_portfolio_has_change :
  exists r r',
    getBalances Scenario.testnetOnlyDb "alice" None Sample.firstPage true = Ok r
    /\ map Combined.usdValue (Response.balances r) = ["0"%string]
    /\ Response.total r = JsNumber.zero
    /\ Response.spotTotal r = Some JsNumber.zero
    /\ Response.fundingTotal r = Some JsNumber.zero
    /\ snd (changeTotals Scenario.testnetOnlyDb (Response.balances r)) = JsNumber.ofZ 5
    /\ Response.changePercent24h r = stringToNumber "0.01"
    /\ Response.changePercent24h r <> JsNumber.zero
    /\ getBalances Scenario.testnetFirstDb "alice" None Sample.firstPage true = Ok r'
    /\ Response.balances r' = Response.balances r
    /\ Response.total r' = JsNumber.zero
    /\ Response.changePercent24h r' = JsNumber.zero.
Proof.
  eexists. eexists.
  split; [vm_compute; reflexivity|].
  split; [vm_compute; reflexivity|].
  split; [vm_compute; reflexivity|].
  split; [vm_compute; reflexivity|].
  split; [vm_compute; reflexivity|].
  split; [vm_compute; reflexivity|].
  split; [vm_compute; reflexivity|].
  split; [vm_compute; discriminate|].
  split; [vm_compute; reflexivity|].
  split; [vm_compute; reflexivity|].
  split; vm_compute; reflexivity.
Qed.

(** ** Rows without price *)

(** C7 fails on the code: USDT held with the price 1 (10) and, on a test
    network, without price (5) is one entry, whose total USD value is 10;
    [calculateTotal] and the loop of the 24-hour change value its amount 15
    at the price of one token, so the row without price adds 5 dollars to
    [spotTotal] and to [total] and its share to the change: the totals are
    not those of the same balances without that row. *)
Theorem C7_priceless_row_valued_at_first_price :
  noPrice (WalletBalance.token Sample.pricelessRow) = true
  /\ exists r r',
       getBalances Sample.pricedFirstDb "alice" None Sample.firstPage true = Ok r
       /\ getBalances Sample.pricedOnlyDb "alice" None Sample.firstPage true = Ok r'
       /\ map Combined.usdValue (Response.balances r) = ["10"%string]
       /\ Response.spotTotal r = Some (JsNumber.ofZ 15)
       /\ Response.spotTotal r' = Some (JsNumber.ofZ 10)
       /\ Response.total r <> Response.total r'
       /\ Response.change24h r <> Response.change24h r'.
Proof.
  split; [vm_compute; reflexivity|].
  eexists. eexists.
  split; [vm_compute; reflexivity|].
  split; [vm_compute; reflexivity|].
  split; [vm_compute; reflexivity|].
  split; [vm_compute; reflexivity|].
  split; [vm_compute; reflexivity|].
  split; vm_compute; discriminate.
Qed.

(** ** Malformed amounts *)

(** C8, as amended: a fetched row whose amount is a malformed decimal
    string other than the empty string makes [getBalances] throw: no answer
    is produced. *)
Theorem C8_malformed_amount_throws (db : Database) (userId : string)
  (type : option string) (pagination : PaginationParams.t) (showZeroBalances : bool)
  (b : WalletBalance.t) :
  In b (fetched db userId type) ->
  WalletBalance.balance b <> ""%string ->
  Decimal.ofString (WalletBalance.balance b) = None ->
  exists argument,
    getBalances db userId type pagination showZeroBalances = Throw (DecimalError argument).
Proof.
  intros Hin Hne Hbad.
  assert (Hwf : wellFormed b = false).
  { unfold wellFormed, parses, rawAmount, orZero.
    destruct (String.eqb_spec (WalletBalance.balance b) ""); [contradiction|].
    rewrite Hbad. reflexivity. }
  destruct (process_throws _ b Hin Hwf) as [[argument] He].
  exists argument. apply getBalances_throws; [|exact He].
  eapply fetched_wallets; eassumption.
Qed.

Lemma C8_malformed_amount_throws_witness :
  exists argument,
    getBalances Sample.malformedDb "alice" None Sample.firstPage true
    = Throw (DecimalError argument).
Proof.
  apply (C8_malformed_amount_throws Sample.malformedDb "alice" None Sample.firstPage true
           Sample.malformedRow).
  - vm_compute. right. left. reflexivity.
  - discriminate.
  - vm_compute. reflexivity.
Defined.

(** C8 fails as stated: the empty string is no decimal literal, yet a row
    whose amount is the empty string is read as the amount 0 and the call
    answers. *)
Lemma C8_counterexample :
  In Sample.emptyAmountRow (fetched Sample.emptyAmountDb "alice" None)
  /\ Decimal.ofString (WalletBalance.balance Sample.emptyAmountRow) = None
  /\ exists r,
       getBalances Sample.emptyAmountDb "alice" None Sample.firstPage true = Ok r
       /\ map Combined.balance (Response.balances r) = ["0"%string].
Proof.
  split; [vm_compute; left; reflexivity|].
  split; [vm_compute; reflexivity|].
  eexists. split; vm_compute; reflexivity.
Qed.

(** ** The merge key *)

(** C9: the key [baseSymbol_type] stands for exactly one pair of a base
    symbol and a balance type, whatever characters the base symbol holds; so
    the rows merged into one entry are those of equal base symbol and equal
    type: each row has one entry of its base symbol and type, whose network
    contributions are those of the rows of that base symbol and type and of
    no other row. *)
Theorem C9_merge_key_injective (balances : list WalletBalance.t)
  (processed : list Combined.t) :
  processBalancesWithNetworks balances = Ok processed ->
  (forall b1 t1 b2 t2, mergeKey b1 t1 = mergeKey b2 t2 <-> b1 = b2 /\ t1 = t2)
  /\ (forall r, In r balances ->
        exists e, In e processed
          /\ Combined.baseSymbol e = Token.baseSymbol (WalletBalance.token r)
          /\ Combined.type e = WalletBalance.type r
          /\ Combined.networks e = map networkOf (filter (sameAsset r) balances)
          /\ (forall e', In e' processed ->
                Combined.baseSymbol e' = Combined.baseSymbol e ->
                Combined.type e' = Combined.type e -> e' = e)).
Proof.
  intros Hp. split.
  - intros b1 t1 b2 t2. split; [apply mergeKey_inj | intros [-> ->]; reflexivity].
  - intros r Hr.
    destruct (process_entries _ _ Hp) as [Hin Hnd].
    assert (G : group (keyOf r) balances = filter (sameAsset r) balances).
    { unfold group. apply filter_ext. intros r'. apply keyOf_sameAsset. }
    destruct (group (keyOf r) balances) as [|first others] eqn:Gr.
    { exfalso. assert (Hg : In r (group (keyOf r) balances))
        by (apply group_In; split; [exact Hr | reflexivity]).
      rewrite Gr in Hg. destruct Hg. }
    assert (Hk : entryFor (keyOf r) balances = Some (groupEntry first others)).
    { unfold entryFor. rewrite Gr. reflexivity. }
    assert (Hf : keyOf first = keyOf r).
    { apply (group_In (keyOf r) balances first). rewrite Gr. left. reflexivity. }
    apply mergeKey_inj in Hf. destruct Hf as [Hb Ht].
    exists (groupEntry first others). repeat split.
    + apply Hin. exists (keyOf r). exact Hk.
    + exact Hb.
    + exact Ht.
    + cbn [groupEntry Combined.networks]. rewrite <- G. reflexivity.
    + intros e' He' Eb Et.
      apply (NoDup_map_inj entryKey processed); try assumption.
      * apply Hin. exists (keyOf r). exact Hk.
      * unfold entryKey. rewrite Eb, Et. reflexivity.
Qed.

Lemma C9_merge_key_injective_witness :
  (forall b1 t1 b2 t2, mergeKey b1 t1 = mergeKey b2 t2 <-> b1 = b2 /\ t1 = t2)
  /\ (forall r, In r Sample.usdtRows ->
        exists e, In e [Sample.usdtEntry]
          /\ Combined.baseSymbol e = Token.baseSymbol (WalletBalance.token r)
          /\ Combined.type e = WalletBalance.type r
          /\ Combined.networks e = map networkOf (filter (sameAsset r) Sample.usdtRows)
          /\ (forall e', In e' [Sample.usdtEntry] ->
                Combined.baseSymbol e' = Combined.baseSymbol e ->
                Combined.type e' = Combined.type e -> e' = e)).
Proof.
  apply (C9_merge_key_injective Sample.usdtRows [Sample.usdtEntry]).
  vm_compute. reflexivity.
Defined.

(** ** The total of the answer *)

(** C10 fails as stated: a call for a user without active wallet is
    answered, and the answer has no [spotTotal] and no [fundingTotal] of
    which [total] could be the sum. *)
Lemma C10_counterexample :
  exists r,
    getBalances Sample.usdtDb "carol" None Sample.firstPage true = Ok r
    /\ Response.spotTotal r = None
    /\ Response.fundingTotal r = None
    /\ ~ (exists s f, Response.spotTotal r = Some s /\ Response.fundingTotal r = Some f
                      /\ Response.total r = JsNumber.add s f).
Proof.
  eexists. split; [vm_compute; reflexivity|].
  split; [reflexivity|]. split; [reflexivity|].
  intros (s & f & Hs & _). discriminate Hs.
Qed.

(** C10, as amended: in the answer of [getBalances] for a user with an
    active wallet the field [total] is the sum of [spotTotal] and
    [fundingTotal], a value and not a count; for a user without active
    wallet the two are absent and [total] is 0; in both the number of
    balances kept for display is reported as [pagination.total]. *)
Theorem C10_total_is_value (db : Database) (userId : string) (type : option string)
  (pagination : PaginationParams.t) (showZeroBalances : bool) (r : Response.t) :
  getBalances db userId type pagination showZeroBalances = Ok r ->
  (forall s f, Response.spotTotal r = Some s -> Response.fundingTotal r = Some f ->
               Response.total r = JsNumber.add s f)
  /\ (findActiveWallets db userId <> [] ->
      exists s f, Response.spotTotal r = Some s /\ Response.fundingTotal r = Some f)
  /\ (findActiveWallets db userId = [] ->
      Response.spotTotal r = None /\ Response.fundingTotal r = None
      /\ Response.total r = JsNumber.zero)
  /\ exists displayBalances,
       displayed db userId type showZeroBalances = Ok displayBalances
       /\ Pagination.total (Response.pagination r)
          = JsNumber.ofNat (length displayBalances).
Proof.
  intros H.
  destruct (getBalances_cases db userId type pagination showZeroBalances)
    as [(W & D & G) | [(W & p & _ & D & G) | (W & e & _ & _ & G)]];
    rewrite G in H; [| |discriminate]; injection H as <-.
  - repeat split; try discriminate; try contradiction.
    exists []. split; [exact D | reflexivity].
  - split; [|split; [|split]].
    + intros s f Hs Hf. cbn in Hs, Hf. injection Hs as <-. injection Hf as <-. reflexivity.
    + intros _. eexists. eexists. split; reflexivity.
    + intros W'. contradiction.
    + eexists. split; [exact D | reflexivity].
Qed.

Lemma C10_total_is_value_witness :
  exists r,
    getBalances Sample.usdtDb "alice" None Sample.firstPage true = Ok r
    /\ (forall s f, Response.spotTotal r = Some s -> Response.fundingTotal r = Some f ->
                    Response.total r = JsNumber.add s f)
    /\ (findActiveWallets Sample.usdtDb "alice" <> [] ->
        exists s f, Response.spotTotal r = Some s /\ Response.fundingTotal r = Some f)
    /\ (findActiveWallets Sample.usdtDb "alice" = [] ->
        Response.spotTotal r = None /\ Response.fundingTotal r = None
        /\ Response.total r = JsNumber.zero)
    /\ exists displayBalances,
         displayed Sample.usdtDb "alice" None true = Ok displayBalances
         /\ Pagination.total (Response.pagination r)
            = JsNumber.ofNat (length displayBalances).
Proof.
  eexists. split; [vm_compute; reflexivity|].
  apply (C10_total_is_value Sample.usdtDb "alice" None Sample.firstPage true).
  vm_compute. reflexivity.
Defined.

(** * Further properties of the wallet service *)

(** ** When [getBalances] answers *)

(** X1.  [getBalances] answers exactly when the user has no active wallet or the
    amount and the price of every fetched row parse: once the rows are
    combined, neither the sort, the filter nor the totals throw. *)
Theorem getBalances_answers_iff (db : Database) (userId : string) (type : option string)
  (pagination : PaginationParams.t) (showZeroBalances : bool) :
  (exists r, getBalances db userId type pagination showZeroBalances = Ok r)
  <-> findActiveWallets db userId = []
      \/ forallb wellFormed (fetched db userId type) = true.
Proof.
  destruct (getBalances_cases db userId type pagination showZeroBalances)
    as [(W & _ & G) | [(W & p & Hp & _ & G) | (W & e & Hp & _ & G)]].
  - split; [intros _; left; exact W | intros _; eexists; exact G].
  - split; [intros _; right; eapply process_wellFormed; exact Hp
           | intros _; eexists; exact G].
  - split.
    + intros [r Hr]. rewrite G in Hr. discriminate Hr.
    + intros [E|Hwf]; [contradiction|].
      destruct (process_spec _ Hwf) as (p & Hp' & _). rewrite Hp in Hp'. discriminate Hp'.
Qed.

Lemma combineStep_offending m b :
  wellFormed b = false -> combineStep m b = Throw (DecimalError (offendingField b)).
Proof.
  intros H. unfold wellFormed, parses, rawAmount, rawPrice in H.
  unfold combineStep, newDecimal, offendingField, parses, rawAmount, rawPrice.
  destruct (Decimal.ofString (orZero (WalletBalance.balance b))); simpl.
  - destruct (Decimal.ofString (orZeroOpt (Token.currentPrice (WalletBalance.token b))));
      simpl; [discriminate | reflexivity].
  - reflexivity.
Qed.

Lemma offendingField_parses b : wellFormed b = false -> parses (offendingField b) = false.
Proof.
  unfold wellFormed, offendingField. destruct (parses (rawAmount b)) eqn:A; simpl; auto.
Qed.

Lemma first_illFormed l :
  forallb wellFormed l = false ->
  exists before b after,
    l = before ++ b :: after /\ forallb wellFormed before = true /\ wellFormed b = false.
Proof.
  induction l as [|x l IH]; simpl; [discriminate|].
  destruct (wellFormed x) eqn:Hx; simpl.
  - intros H. destruct (IH H) as (before & b & after & -> & Hb & Hbad).
    exists (x :: before), b, after. simpl. rewrite Hx, Hb. auto.
  - intros _. exists [], x, l. auto.
Qed.

(** X2.  The error of [processBalancesWithNetworks] names its cause: it carries
    the amount (or ['0'] for an empty one) of the first row that does not
    parse, or the price of that row when its amount parses, and no row
    before it is at fault. *)
Theorem process_error_names_first_bad_field (balances : list WalletBalance.t)
  (argument : string) :
  processBalancesWithNetworks balances = Throw (DecimalError argument) ->
  exists before b after,
    balances = before ++ b :: after
    /\ forallb wellFormed before = true
    /\ wellFormed b = false
    /\ argument = offendingField b
    /\ Decimal.ofString argument = None.
Proof.
  intros H.
  destruct (forallb wellFormed balances) eqn:Hwf.
  { destruct (process_spec _ Hwf) as (p & Hp & _). rewrite H in Hp. discriminate Hp. }
  destruct (first_illFormed _ Hwf) as (before & b & after & -> & Hb & Hbad).
  exists before, b, after.
  destruct (combineBalances_spec _ Hb) as (m & Hm & _).
  unfold processBalancesWithNetworks, combineBalances in H.
  rewrite foldM_app in H. unfold combineBalances in Hm. rewrite Hm in H.
  cbn [bind foldM] in H. rewrite (combineStep_offending m b Hbad) in H.
  cbn [bind] in H. injection H as <-.
  repeat split; try assumption.
  pose proof (offendingField_parses b Hbad) as P. unfold parses in P.
  destruct (Decimal.ofString (offendingField b)); [discriminate | reflexivity].
Qed.

Lemma process_error_names_first_bad_field_witness :
  exists before b after,
    Scenario.badPriceRows = before ++ b :: after
    /\ forallb wellFormed before = true
    /\ wellFormed b = false
    /\ "n/a"%string = offendingField b
    /\ Decimal.ofString "n/a" = None.
Proof.
  apply (process_error_names_first_bad_field Scenario.badPriceRows "n/a").
  vm_compute. reflexivity.
Defined.

(** ** The zero filter *)

Lemma filter_idem {A : Type} (f : A -> bool) l : filter f (filter f l) = filter f l.
Proof.
  induction l as [|x l IH]; simpl; [reflexivity|].
  destruct (f x) eqn:E; simpl; [rewrite E, IH|]; auto.
Qed.

(** X3.  Without zero balances, the balances kept are those kept with zero
    balances whose total USD value is not zero, in the same order; each of
    them has a value that parses and is not zero, and filtering twice
    changes nothing. *)
Theorem zero_filter_keeps_nonzero (db : Database) (userId : string)
  (type : option string) (shown : list Combined.t) :
  displayed db userId type true = Ok shown ->
  displayed db userId type false = Ok (filter nonZeroValue shown)
  /\ (forall e, In e (filter nonZeroValue shown) ->
        exists v, Decimal.ofString (Combined.usdValue e) = Some v
                  /\ Decimal.isZero v = false)
  /\ filter nonZeroValue (filter nonZeroValue shown) = filter nonZeroValue shown.
Proof.
  intros D.
  destruct (findActiveWallets db userId) as [|w ws] eqn:W.
  - rewrite (displayed_empty _ _ _ _ W) in D. injection D as <-.
    split; [apply displayed_empty; exact W|]. split; [intros e []|reflexivity].
  - assert (Hw : findActiveWallets db userId <> []) by (rewrite W; discriminate).
    destruct (processBalancesWithNetworks (fetched db userId type)) as [p|e] eqn:Hp.
    + rewrite (displayed_processed _ _ _ true p Hw Hp) in D. injection D as <-.
      split; [apply (displayed_processed _ _ _ false p Hw Hp)|].
      split; [|apply filter_idem].
      intros e He. apply filter_In in He. destruct He as [He Nz].
      pose proof (process_sound _ _ Hp) as Hs. rewrite Forall_forall in Hs.
      destruct (Hs e He) as (f & o & -> & _).
      exists (sumFrom (usdOf f) (map usdOf o)). split.
      * apply DecimalStrings.ofString_toString. auto with canonical.
      * unfold nonZeroValue in Nz. rewrite sound_usdDecimal in Nz.
        apply negb_true_iff. exact Nz.
    + unfold displayed, fetched in *. rewrite W in D, Hp. rewrite Hp in D. discriminate D.
Qed.

Lemma zero_filter_keeps_nonzero_witness :
  displayed Sample.threeDb "alice" None false
  = Ok (filter nonZeroValue
          [Combined.mk "AAA" "AAA" "Token A" 8 "1" "30" spot Sample.tokenA
             [NetworkBalance.mk "chainA" "NATIVE" "1" spot "30"];
           Combined.mk "BBB" "BBB" "Token B" 8 "1" "10" spot Sample.tokenB
             [NetworkBalance.mk "chainB" "NATIVE" "1" spot "10"];
           Combined.mk "CCC" "CCC" "Token C" 8 "1" "0" spot Sample.tokenC
             [NetworkBalance.mk "chainC" "NATIVE" "1" spot "0"]]).
Proof.
  apply (zero_filter_keeps_nonzero Sample.threeDb "alice" None).
  vm_compute. reflexivity.
Defined.

(** ** The page *)

Lemma slice_segment {A : Type} (l : list A) (first last : JsNumber.number) :
  exists before after, l = before ++ slice l first last ++ after.
Proof.
  unfold slice.
  set (k := sliceIndex (length l) (JsNumber.toIntegerOrInfinity first)).
  set (n := (sliceIndex (length l) (JsNumber.toIntegerOrInfinity last) - k)%nat).
  exists (firstn k l), (skipn n (skipn k l)).
  rewrite (firstn_skipn n (skipn k l)), (firstn_skipn k l). reflexivity.
Qed.

(** X4.  Whatever the page and the limit are, negative, fractional, NaN or
    infinite, the balances returned are one run of consecutive balances of
    those kept for display, in their order: pagination drops balances at the
    two ends and does nothing else. *)
Theorem page_is_a_segment (db : Database) (userId : string) (type : option string)
  (pagination : PaginationParams.t) (showZeroBalances : bool) (r : Response.t)
  (shown : list Combined.t) :
  getBalances db userId type pagination showZeroBalances = Ok r ->
  displayed db userId type showZeroBalances = Ok shown ->
  exists before after, shown = before ++ Response.balances r ++ after.
Proof.
  intros G D.
  destruct (getBalances_cases db userId type pagination showZeroBalances)
    as [(_ & D' & G') | [(_ & p & _ & D' & G') | (_ & e & _ & _ & G')]];
    rewrite G' in G; [| |discriminate G]; injection G as <-;
    rewrite D' in D; injection D as <-.
  - exists [], []. reflexivity.
  - apply slice_segment.
Qed.

Lemma page_is_a_segment_witness :
  exists r before after,
    getBalances Sample.threeDb "alice" None
      (PaginationParams.mk (JsNumber.ofZ (-1)) (JsNumber.ofZ 1)) true = Ok r
    /\ [Combined.mk "AAA" "AAA" "Token A" 8 "1" "30" spot Sample.tokenA
          [NetworkBalance.mk "chainA" "NATIVE" "1" spot "30"];
        Combined.mk "BBB" "BBB" "Token B" 8 "1" "10" spot Sample.tokenB
          [NetworkBalance.mk "chainB" "NATIVE" "1" spot "10"];
        Combined.mk "CCC" "CCC" "Token C" 8 "1" "0" spot Sample.tokenC
          [NetworkBalance.mk "chainC" "NATIVE" "1" spot "0"]]
       = before ++ Response.balances r ++ after.
Proof.
  eexists.
  assert (G : getBalances Sample.threeDb "alice" None
                (PaginationParams.mk (JsNumber.ofZ (-1)) (JsNumber.ofZ 1)) true = Ok _)
    by (vm_compute; reflexivity).
  destruct (page_is_a_segment Sample.threeDb "alice" None _ true _ _ G
              ltac:(vm_compute; reflexivity)) as (before & after & E).
  exists before, after. split; [exact G | exact E].
Defined.

Lemma slice_first_twenty {A : Type} (l : list A) :
  slice l
    (JsNumber.mul (JsNumber.sub (JsNumber.ofZ 1) JsNumber.one) (JsNumber.ofZ 20))
    (JsNumber.add
       (JsNumber.mul (JsNumber.sub (JsNumber.ofZ 1) JsNumber.one) (JsNumber.ofZ 20))
       (JsNumber.ofZ 20))
  = firstn 20 l.
Proof.
  unfold slice.
  change (JsNumber.toIntegerOrInfinity
            (JsNumber.mul (JsNumber.sub (JsNumber.ofZ 1) JsNumber.one) (JsNumber.ofZ 20)))
    with (JsNumber.Finite 0).
  change (JsNumber.toIntegerOrInfinity
            (JsNumber.add
               (JsNumber.mul (JsNumber.sub (JsNumber.ofZ 1) JsNumber.one) (JsNumber.ofZ 20))
               (JsNumber.ofZ 20)))
    with (JsNumber.Finite 20).
  unfold sliceIndex. cbn [Z.ltb Z.compare].
  replace (Z.to_nat (Z.min 0 (Z.of_nat (length l)))) with 0%nat by lia.
  replace (Z.to_nat (Z.min 20 (Z.of_nat (length l)))) with (Nat.min 20 (length l)) by lia.
  rewrite Nat.sub_0_r. cbn [skipn].
  destruct (Nat.le_ge_cases 20 (length l)) as [L|L].
  - rewrite Nat.min_l by exact L. reflexivity.
  - rewrite Nat.min_r by exact L. rewrite firstn_all, firstn_all2 by exact L. reflexivity.
Qed.

(** X5.  With the pagination that [getBalances] takes when none is given, page
    1 with limit 20, the balances returned are the first 20 of those kept
    for display, or all of them when they are fewer. *)
Theorem default_page_is_first_twenty (db : Database) (userId : string)
  (type : option string) (showZeroBalances : bool) (r : Response.t)
  (shown : list Combined.t) :
  getBalances db userId type defaultPagination showZeroBalances = Ok r ->
  displayed db userId type showZeroBalances = Ok shown ->
  Response.balances r = firstn 20 shown.
Proof.
  intros G D.
  destruct (getBalances_cases db userId type defaultPagination showZeroBalances)
    as [(_ & D' & G') | [(_ & p & _ & D' & G') | (_ & e & _ & _ & G')]];
    rewrite G' in G; [| |discriminate G]; injection G as <-;
    rewrite D' in D; injection D as <-.
  - reflexivity.
  - apply slice_first_twenty.
Qed.

Lemma default_page_is_first_twenty_witness :
  exists r,
    getBalances Sample.threeDb "alice" None defaultPagination true = Ok r
    /\ Response.balances r
       = firstn 20
           [Combined.mk "AAA" "AAA" "Token A" 8 "1" "30" spot Sample.tokenA
              [NetworkBalance.mk "chainA" "NATIVE" "1" spot "30"];
            Combined.mk "BBB" "BBB" "Token B" 8 "1" "10" spot Sample.tokenB
              [NetworkBalance.mk "chainB" "NATIVE" "1" spot "10"];
            Combined.mk "CCC" "CCC" "Token C" 8 "1" "0" spot Sample.tokenC
              [NetworkBalance.mk "chainC" "NATIVE" "1" spot "0"]].
Proof.
  eexists.
  assert (G : getBalances Sample.threeDb "alice" None defaultPagination true = Ok _)
    by (vm_compute; reflexivity).
  split; [exact G|].
  apply (default_page_is_first_twenty Sample.threeDb "alice" None true _ _ G).
  vm_compute. reflexivity.
Defined.

(** X6.  The totals, the 24-hour change and the count do not depend on the page
    asked for: two calls that differ in the pagination only answer both or
    throw both, and their answers agree on every field but the balances of
    the page and the page data. *)
Theorem totals_do_not_depend_on_page (db : Database) (userId : string)
  (type : option string) (pagination pagination' : PaginationParams.t)
  (showZeroBalances : bool) (r : Response.t) :
  getBalances db userId type pagination showZeroBalances = Ok r ->
  exists r',
    getBalances db userId type pagination' showZeroBalances = Ok r'
    /\ Response.total r' = Response.total r
    /\ Response.spotTotal r' = Response.spotTotal r
    /\ Response.fundingTotal r' = Response.fundingTotal r
    /\ Response.change24h r' = Response.change24h r
    /\ Response.changePercent24h r' = Response.changePercent24h r
    /\ Pagination.total (Response.pagination r') = Pagination.total (Response.pagination r).
Proof.
  intros G.
  destruct (getBalances_cases db userId type pagination showZeroBalances)
    as [(W & _ & G1) | [(W & p & Hp & _ & G1) | (_ & e & _ & _ & G1)]];
    rewrite G1 in G; [| |discriminate G]; injection G as <-.
  - exists (emptyAnswer pagination'). split; [apply getBalances_empty; exact W|].
    repeat split.
  - exists (answerOf db pagination' (displayList p showZeroBalances)).
    split; [apply getBalances_processed; assumption|]. repeat split.
Qed.

Lemma totals_do_not_depend_on_page_witness :
  exists r r',
    getBalances Sample.threeDb "alice" None Sample.firstPage true = Ok r
    /\ getBalances Sample.threeDb "alice" None
         (PaginationParams.mk (JsNumber.ofZ 2) (JsNumber.ofZ 1)) true = Ok r'
    /\ Response.total r' = Response.total r
    /\ Response.spotTotal r' = Response.spotTotal r
    /\ Response.fundingTotal r' = Response.fundingTotal r
    /\ Response.change24h r' = Response.change24h r
    /\ Response.changePercent24h r' = Response.changePercent24h r
    /\ Pagination.total (Response.pagination r') = Pagination.total (Response.pagination r).
Proof.
  eexists.
  assert (G : getBalances Sample.threeDb "alice" None Sample.firstPage true = Ok _)
    by (vm_compute; reflexivity).
  destruct (totals_do_not_depend_on_page Sample.threeDb "alice" None Sample.firstPage
              (PaginationParams.mk (JsNumber.ofZ 2) (JsNumber.ofZ 1)) true _ G)
    as (r' & G' & E).
  exists r'. split; [exact G|]. split; [exact G' | exact E].
Defined.

(** ** The rows behind an answer *)

Lemma fetched_In db userId type b :
  In b (fetched db userId type) ->
  In b (walletBalances db)
  /\ (exists w, In w (wallets db) /\ Wallet.id w = WalletBalance.walletId b
                /\ Wallet.userId w = userId /\ Wallet.status w = "active"%string)
  /\ (forall ty, type = Some ty -> ty <> ""%string ->
                 typeString (WalletBalance.type b) = ty).
Proof.
  unfold fetched, queryBalances. intros H. apply filter_In in H.
  destruct H as [Hin H]. apply andb_true_iff in H. destruct H as [Hw Ht].
  split; [exact Hin|]. split.
  - apply existsb_exists in Hw. destruct Hw as (i & Hi & E).
    apply String.eqb_eq in E. apply in_map_iff in Hi. destruct Hi as (w & <- & Hwin).
    unfold findActiveWallets in Hwin. apply filter_In in Hwin.
    destruct Hwin as [Hwin Hc]. apply andb_true_iff in Hc. destruct Hc as [Hu Hs].
    apply String.eqb_eq in Hu, Hs. exists w. auto.
  - intros ty -> Hne.
    destruct (String.eqb_spec ty ""); [contradiction|].
    apply String.eqb_eq. exact Ht.
Qed.

Lemma shown_entry_rows db userId type showZeroBalances shown e :
  displayed db userId type showZeroBalances = Ok shown -> In e shown ->
  exists first others,
    e = groupEntry first others
    /\ forall b, In b (first :: others) -> In b (fetched db userId type).
Proof.
  intros D He.
  destruct (findActiveWallets db userId) as [|w ws] eqn:W.
  - rewrite (displayed_empty _ _ _ _ W) in D. injection D as <-. destruct He.
  - assert (Hw : findActiveWallets db userId <> []) by (rewrite W; discriminate).
    destruct (processBalancesWithNetworks (fetched db userId type)) as [p|x] eqn:Hp.
    + rewrite (displayed_processed _ _ _ _ p Hw Hp) in D. injection D as <-.
      apply displayList_In in He.
      destruct (process_entries _ _ Hp) as [Hin _]. apply Hin in He.
      destruct He as [k Hk].
      destruct (entryFor_Some _ _ _ Hk) as (f & o & G & -> & _).
      exists f, o. split; [reflexivity|].
      intros b Hb. rewrite <- G in Hb. apply group_In in Hb. apply Hb.
    + unfold displayed, fetched in *. rewrite W in D, Hp. rewrite Hp in D. discriminate D.
Qed.

(** X7.  Every network contribution in the balances kept for display is the
    contribution of a stored row of a wallet that belongs to the user and is
    active: no row of another user or of an inactive wallet enters the
    answer. *)
Theorem only_rows_of_own_active_wallets (db : Database) (userId : string)
  (type : option string) (showZeroBalances : bool) (shown : list Combined.t)
  (e : Combined.t) (n : NetworkBalance.t) :
  displayed db userId type showZeroBalances = Ok shown ->
  In e shown -> In n (Combined.networks e) ->
  exists b w,
    In b (walletBalances db) /\ n = networkOf b
    /\ In w (wallets db) /\ Wallet.id w = WalletBalance.walletId b
    /\ Wallet.userId w = userId /\ Wallet.status w = "active"%string.
Proof.
  intros D He Hn.
  destruct (shown_entry_rows _ _ _ _ _ _ D He) as (f & o & -> & Hrows).
  cbn [groupEntry Combined.networks] in Hn. apply in_map_iff in Hn.
  destruct Hn as (b & <- & Hb).
  destruct (fetched_In _ _ _ _ (Hrows b Hb)) as (Hin & (w & Hw) & _).
  exists b, w. tauto.
Qed.

Lemma only_rows_of_own_active_wallets_witness :
  exists b w,
    In b (walletBalances Scenario.sharedDb)
    /\ NetworkBalance.mk "bitcoin" "NATIVE" "2" spot "20000" = networkOf b
    /\ In w (wallets Scenario.sharedDb) /\ Wallet.id w = WalletBalance.walletId b
    /\ Wallet.userId w = "alice"%string /\ Wallet.status w = "active"%string.
Proof.
  apply (only_rows_of_own_active_wallets Scenario.sharedDb "alice" None true
           [Combined.mk "BTC" "BTC" "Bitcoin" 8 "2" "20000" spot Sample.btc
              [NetworkBalance.mk "bitcoin" "NATIVE" "2" spot "20000"];
            Combined.mk "ETH" "ETH" "Ethereum" 18 "3" "6000" funding Sample.eth
              [NetworkBalance.mk "ethereum" "NATIVE" "3" funding "6000"];
            Combined.mk "DOGE" "DOGE" "Dogecoin" 8 "0" "0" spot Sample.doge
              [NetworkBalance.mk "dogecoin" "NATIVE" "0" spot "0"]]
           (Combined.mk "BTC" "BTC" "Bitcoin" 8 "2" "20000" spot Sample.btc
              [NetworkBalance.mk "bitcoin" "NATIVE" "2" spot "20000"])).
  - vm_compute. reflexivity.
  - left. reflexivity.
  - left. reflexivity.
Defined.

Lemma typeString_inj a b : typeString a = typeString b -> a = b.
Proof. destruct a, b; simpl; intros H; try reflexivity; discriminate H. Qed.

(** X8.  When a type is given to [getBalances], every balance kept has that
    type, so a type that is neither ['spot'] nor ['funding'] leaves no
    balance.  For a user with an active wallet, with ['spot'] the funding
    total of the answer is 0 and with ['funding'] the spot total is 0; for a
    user without active wallet the answer has neither of the two totals. *)
Theorem type_filter_keeps_one_type (db : Database) (userId ty : string)
  (pagination : PaginationParams.t) (showZeroBalances : bool) (r : Response.t)
  (shown : list Combined.t) :
  ty <> ""%string ->
  getBalances db userId (Some ty) pagination showZeroBalances = Ok r ->
  displayed db userId (Some ty) showZeroBalances = Ok shown ->
  (forall e, In e shown -> typeString (Combined.type e) = ty)
  /\ (ty <> "spot"%string -> ty <> "funding"%string -> shown = [])
  /\ (ty = "spot"%string ->
      Response.fundingTotal r
      = match findActiveWallets db userId with
        | [] => None
        | _ :: _ => Some JsNumber.zero
        end)
  /\ (ty = "funding"%string ->
      Response.spotTotal r
      = match findActiveWallets db userId with
        | [] => None
        | _ :: _ => Some JsNumber.zero
        end).
Proof.
  intros Hne G D.
  assert (T : forall e, In e shown -> typeString (Combined.type e) = ty).
  { intros e He.
    destruct (shown_entry_rows _ _ _ _ _ _ D He) as (f & o & -> & Hrows).
    cbn [groupEntry Combined.type].
    destruct (fetched_In _ _ _ _ (Hrows f (or_introl eq_refl))) as (_ & _ & Ht).
    apply Ht; [reflexivity | exact Hne]. }
  assert (F : forall t, typeString t <> ty -> filter (isType t) shown = []).
  { intros t Hty. clear D G. induction shown as [|e shown IH]; [reflexivity|].
    cbn [filter]. destruct (isType t e) eqn:I.
    - exfalso. apply Hty. unfold isType in I. apply BalanceType_eqb_eq in I.
      rewrite <- I. apply T. left. reflexivity.
    - apply IH. intros e' He'. apply T. right. exact He'. }
  split; [exact T|].
  destruct (getBalances_cases db userId (Some ty) pagination showZeroBalances)
    as [(W & D' & G') | [(W & p & _ & D' & G') | (_ & x & _ & _ & G')]];
    [| | rewrite G' in G; discriminate G].
  - rewrite G' in G. injection G as <-. rewrite D' in D. injection D as <-.
    rewrite W. split; [reflexivity|]. split; reflexivity.
  - rewrite G' in G. injection G as <-. rewrite D' in D. injection D as <-.
    destruct (findActiveWallets db userId) as [|w ws]; [contradiction W; reflexivity|].
    split; [|split].
    + intros Hs Hf. destruct (displayList p showZeroBalances) as [|e l]; [reflexivity|].
      exfalso. pose proof (T e (or_introl eq_refl)) as Te.
      destruct (Combined.type e); simpl in Te; congruence.
    + intros ->. cbn [answerOf Response.fundingTotal].
      rewrite (F funding) by discriminate. reflexivity.
    + intros ->. cbn [answerOf Response.spotTotal].
      rewrite (F spot) by discriminate. reflexivity.
Qed.

Lemma type_filter_keeps_one_type_witness :
  exists r shown,
    getBalances Scenario.sharedDb "alice" (Some "spot"%string) Sample.firstPage true = Ok r
    /\ displayed Scenario.sharedDb "alice" (Some "spot"%string) true = Ok shown
    /\ (forall e, In e shown -> typeString (Combined.type e) = "spot"%string)
    /\ Response.fundingTotal r = Some JsNumber.zero.
Proof.
  eexists. eexists.
  assert (G : getBalances Scenario.sharedDb "alice" (Some "spot"%string)
                Sample.firstPage true = Ok _) by (vm_compute; reflexivity).
  assert (D : displayed Scenario.sharedDb "alice" (Some "spot"%string) true = Ok _)
    by (vm_compute; reflexivity).
  split; [exact G|]. split; [exact D|].
  destruct (type_filter_keeps_one_type Scenario.sharedDb "alice" "spot"
              Sample.firstPage true _ _ ltac:(discriminate) G D) as (T & _ & S & _).
  split; [exact T | exact (S eq_refl)].
Defined.

(** ** What the aggregation keeps *)

Lemma group_cons key b l :
  group key (b :: l) = if (keyOf b =? key)%string then b :: group key l else group key l.
Proof. reflexivity. Qed.

Lemma groups_cons_other b l ks :
  ~ In (keyOf b) ks ->
  flat_map (fun k => group k (b :: l)) ks = flat_map (fun k => group k l) ks.
Proof.
  induction ks as [|k ks IH]; intros H; [reflexivity|].
  cbn [flat_map]. rewrite group_cons.
  destruct (String.eqb_spec (keyOf b) k) as [E|E].
  - exfalso. apply H. left. symmetry. exact E.
  - rewrite IH; [reflexivity|]. intros I. apply H. right. exact I.
Qed.

Lemma groups_cons b l ks :
  NoDup ks -> In (keyOf b) ks ->
  Permutation (flat_map (fun k => group k (b :: l)) ks)
              (b :: flat_map (fun k => group k l) ks).
Proof.
  induction ks as [|k ks IH]; intros N I; [destruct I|].
  inversion N as [|? ? Hn N']; subst.
  cbn [flat_map]. rewrite group_cons.
  destruct (String.eqb_spec (keyOf b) k) as [E|E].
  - subst k. rewrite (groups_cons_other b l ks Hn). apply Permutation_refl.
  - destruct I as [I|I]; [congruence|].
    etransitivity; [apply Permutation_app_head, IH; assumption|].
    apply Permutation_sym, Permutation_middle.
Qed.

(** The groups of the keys partition the rows. *)
Lemma groups_partition l ks :
  NoDup ks -> (forall b, In b l -> In (keyOf b) ks) ->
  Permutation (flat_map (fun k => group k l) ks) l.
Proof.
  intros N. induction l as [|b l IH]; intros H.
  - clear. induction ks as [|k ks IHk]; [constructor | exact IHk].
  - etransitivity; [apply groups_cons; [exact N | apply H; left; reflexivity]|].
    apply perm_skip, IH. intros x Hx. apply H. right. exact Hx.
Qed.

Lemma processed_networks l p e :
  processBalancesWithNetworks l = Ok p -> In e p ->
  Combined.networks e = map networkOf (group (entryKey e) l)
  /\ group (entryKey e) l <> [].
Proof.
  intros Hp He. destruct (process_entries _ _ Hp) as [Hin _].
  apply Hin in He. destruct He as [k Hk].
  pose proof (entryFor_key _ _ _ Hk) as K.
  destruct (entryFor_Some _ _ _ Hk) as (f & o & G & -> & _).
  rewrite K, G. split; [reflexivity | discriminate].
Qed.

(** X9.  The aggregation loses no contribution and makes none up: the network
    contributions of all the entries together are the contributions of the
    rows, each once, and every entry has one at least. *)
Theorem contributions_are_the_rows (balances : list WalletBalance.t)
  (processed : list Combined.t) :
  processBalancesWithNetworks balances = Ok processed ->
  Permutation (allNetworks processed) (map networkOf balances)
  /\ length (allNetworks processed) = length balances
  /\ forall e, In e processed -> Combined.networks e <> [].
Proof.
  intros Hp.
  assert (P : Permutation (allNetworks processed) (map networkOf balances)).
  { destruct (process_entries _ _ Hp) as [_ Hnd].
    assert (E : allNetworks processed
                = map networkOf
                    (flat_map (fun k => group k balances) (map entryKey processed))).
    { unfold allNetworks.
      assert (S : forall q, (forall e, In e q -> In e processed) ->
                  flat_map Combined.networks q
                  = map networkOf (flat_map (fun k => group k balances) (map entryKey q))).
      { induction q as [|e q IH]; intros Hq; [reflexivity|].
        cbn [flat_map map]. rewrite map_app, <- IH.
        - rewrite (proj1 (processed_networks _ _ e Hp (Hq e (or_introl eq_refl)))).
          reflexivity.
        - intros x Hx. apply Hq. right. exact Hx. }
      apply S. auto. }
    rewrite E. apply Permutation_map, groups_partition; [exact Hnd|].
    intros b Hb. apply (process_keys _ _ (keyOf b) Hp).
    intros G. assert (I : In b (group (keyOf b) balances))
      by (apply group_In; split; [exact Hb | reflexivity]).
    rewrite G in I. destruct I. }
  split; [exact P|]. split.
  - rewrite (Permutation_length P). apply length_map.
  - intros e He. destruct (processed_networks _ _ e Hp He) as [-> G].
    destruct (group (entryKey e) balances); [contradiction | discriminate].
Qed.

Lemma contributions_are_the_rows_witness :
  Permutation (allNetworks [Sample.usdtEntry]) (map networkOf Sample.usdtRows)
  /\ length (allNetworks [Sample.usdtEntry]) = length Sample.usdtRows
  /\ forall e, In e [Sample.usdtEntry] -> Combined.networks e <> [].
Proof.
  apply (contributions_are_the_rows Sample.usdtRows [Sample.usdtEntry]).
  vm_compute. reflexivity.
Defined.

Lemma group_rowsOfEntry e l : group (entryKey e) l = rowsOfEntry e l.
Proof.
  unfold group, rowsOfEntry. apply filter_ext. intros r.
  unfold keyOf, entryKey.
  destruct (String.eqb_spec
              (mergeKey (Token.baseSymbol (WalletBalance.token r)) (WalletBalance.type r))
              (mergeKey (Combined.baseSymbol e) (Combined.type e))) as [E|E].
  - apply mergeKey_inj in E. destruct E as [-> ->].
    rewrite String.eqb_refl. symmetry. apply BalanceType_eqb_eq. reflexivity.
  - symmetry. apply not_true_is_false. intros H.
    apply andb_true_iff in H. destruct H as [Hb Ht].
    apply String.eqb_eq in Hb. apply BalanceType_eqb_eq in Ht.
    apply E. rewrite Hb, Ht. reflexivity.
Qed.

(** X10.  An entry shows the token of the first row of its base symbol and type
    in the order of the input: its [symbol], [name], [decimals] and [token]
    are those of that row, whatever the later rows carry, and its network
    contributions follow the order of the rows. *)
Theorem entry_shows_first_row (balances : list WalletBalance.t)
  (processed : list Combined.t) (e : Combined.t) :
  processBalancesWithNetworks balances = Ok processed ->
  In e processed ->
  exists first others,
    rowsOfEntry e balances = first :: others
    /\ Combined.token e = WalletBalance.token first
    /\ Combined.symbol e = Token.symbol (WalletBalance.token first)
    /\ Combined.name e = Token.name (WalletBalance.token first)
    /\ Combined.decimals e = Token.decimals (WalletBalance.token first)
    /\ Combined.networks e = map networkOf (first :: others).
Proof.
  intros Hp He. destruct (process_entries _ _ Hp) as [Hin _].
  apply Hin in He. destruct He as [k Hk].
  pose proof (entryFor_key _ _ _ Hk) as K.
  destruct (entryFor_Some _ _ _ Hk) as (f & o & G & E & _).
  exists f, o. rewrite <- group_rowsOfEntry, K, G. subst e. repeat split.
Qed.

Lemma entry_shows_first_row_witness :
  exists first others,
    rowsOfEntry Sample.usdtEntry Sample.usdtRows = first :: others
    /\ Combined.token Sample.usdtEntry = WalletBalance.token first
    /\ Combined.symbol Sample.usdtEntry = Token.symbol (WalletBalance.token first)
    /\ Combined.name Sample.usdtEntry = Token.name (WalletBalance.token first)
    /\ Combined.decimals Sample.usdtEntry = Token.decimals (WalletBalance.token first)
    /\ Combined.networks Sample.usdtEntry = map networkOf (first :: others).
Proof.
  apply (entry_shows_first_row Sample.usdtRows [Sample.usdtEntry]).
  - vm_compute. reflexivity.
  - left. reflexivity.
Defined.

(** ** The order of the answer *)

(** X11.  When no difference of two distinct non-zero values of the entries
    underflows to zero as a number, the balances kept for display stand in
    the order of the sort policy: the entries of non-zero value first, by
    value from the greatest, then those of value zero by symbol. *)
Theorem shown_balances_are_sorted (db : Database) (userId : string)
  (type : option string) (showZeroBalances : bool)
  (processed shown : list Combined.t) :
  processBalancesWithNetworks (fetched db userId type) = Ok processed ->
  noUnderflow processed ->
  displayed db userId type showZeroBalances = Ok shown ->
  sortedByPolicy shown.
Proof.
  intros Hp Hu D.
  destruct (getBalances_cases db userId type defaultPagination showZeroBalances)
    as [(_ & D' & _) | [(_ & p & Hp' & D' & _) | (_ & e & Hp' & _ & _)]].
  - rewrite D' in D. injection D as <-. constructor.
  - rewrite Hp in Hp'. injection Hp' as <-.
    rewrite D' in D. injection D as <-.
    eapply display_sorted; eassumption.
  - rewrite Hp in Hp'. discriminate Hp'.
Qed.

Lemma shown_balances_are_sorted_witness :
  sortedByPolicy
    [Combined.mk "AAA" "AAA" "Token A" 8 "1" "30" spot Sample.tokenA
       [NetworkBalance.mk "chainA" "NATIVE" "1" spot "30"];
     Combined.mk "BBB" "BBB" "Token B" 8 "1" "10" spot Sample.tokenB
       [NetworkBalance.mk "chainB" "NATIVE" "1" spot "10"];
     Combined.mk "CCC" "CCC" "Token C" 8 "1" "0" spot Sample.tokenC
       [NetworkBalance.mk "chainC" "NATIVE" "1" spot "0"]].
Proof.
  apply (shown_balances_are_sorted Sample.threeDb "alice" None true
           [Combined.mk "AAA" "AAA" "Token A" 8 "1" "30" spot Sample.tokenA
              [NetworkBalance.mk "chainA" "NATIVE" "1" spot "30"];
            Combined.mk "BBB" "BBB" "Token B" 8 "1" "10" spot Sample.tokenB
              [NetworkBalance.mk "chainB" "NATIVE" "1" spot "10"];
            Combined.mk "CCC" "CCC" "Token C" 8 "1" "0" spot Sample.tokenC
              [NetworkBalance.mk "chainC" "NATIVE" "1" spot "0"]]).
  - vm_compute. reflexivity.
  - intros a b Ha Hb Na Nb Ne.
    destruct Ha as [<-|[<-|[<-|[]]]]; destruct Hb as [<-|[<-|[<-|[]]]];
      try (vm_compute in Na; discriminate Na);
      try (vm_compute in Nb; discriminate Nb);
      try (exfalso; apply Ne; reflexivity);
      vm_compute; reflexivity.
  - vm_compute. reflexivity.
Defined.

(** ** [formatBalance] *)

(** X12.  [formatBalance] never throws and ignores [decimals]: its result is
    always a decimal literal, ['0'] when the balance is not one, and
    formatting a formatted balance changes nothing. *)
Theorem formatBalance_normal_form (balance : string) (decimals decimals' : Z) :
  parses (formatBalance balance decimals) = true
  /\ formatBalance (formatBalance balance decimals) decimals'
     = formatBalance balance decimals
  /\ (parses balance = false -> formatBalance balance decimals = "0"%string).
Proof.
  unfold formatBalance, newDecimal, parses.
  destruct (Decimal.ofString balance) as [d|] eqn:E.
  - pose proof (DecimalStrings.ofString_canonical _ _ E) as C.
    rewrite (DecimalStrings.ofString_toString d C).
    split; [reflexivity|]. split; [reflexivity | discriminate].
  - split; [reflexivity|]. split; reflexivity.
Qed.

(** ** [getTokenPrices] *)

Lemma findIndexFrom_bounds {A : Type} (f : A -> bool) l i j :
  findIndexFrom f l i = Some j -> (i <= j < i + length l)%nat.
Proof.
  revert i. induction l as [|x l IH]; intros i; simpl; [discriminate|].
  destruct (f x).
  - intros E. injection E as <-. lia.
  - intros E. apply IH in E. lia.
Qed.

Lemma findIndexFrom_None {A : Type} (f : A -> bool) l i :
  findIndexFrom f l i = None <-> existsb f l = false.
Proof.
  revert i. induction l as [|x l IH]; intros i; simpl; [tauto|].
  destruct (f x); simpl; [split; discriminate | apply IH].
Qed.

Lemma findIndexFrom_app {A : Type} (f : A -> bool) p q i :
  findIndexFrom f (p ++ q) i
  = match findIndexFrom f p i with
    | Some j => Some j
    | None => findIndexFrom f q (i + length p)
    end.
Proof.
  revert i. induction p as [|x p IH]; intros i; simpl.
  - rewrite Nat.add_0_r. reflexivity.
  - destruct (f x); [reflexivity|]. rewrite IH.
    replace (S i + length p)%nat with (i + S (length p))%nat by lia. reflexivity.
Qed.

Lemma existsb_symbol seen s :
  existsb (fun k => (k =? s)%string) seen = true <-> In s seen.
Proof.
  rewrite existsb_exists. split.
  - intros (k & Hk & E). apply String.eqb_eq in E. subst. exact Hk.
  - intros H. exists s. split; [exact H | apply String.eqb_refl].
Qed.

Lemma existsb_sameSymbol (t : Token.t) p :
  existsb (fun x => (Token.symbol x =? Token.symbol t)%string) p = true
  <-> In (Token.symbol t) (map Token.symbol p).
Proof.
  rewrite existsb_exists, in_map_iff. split.
  - intros (x & Hx & E). apply String.eqb_eq in E. exists x. auto.
  - intros (x & E & Hx). exists x. split; [exact Hx|]. apply String.eqb_eq. exact E.
Qed.

Lemma uniqueFrom_firstsFrom l : forall p seen,
  (forall s, In s seen <-> In s (map Token.symbol p)) ->
  filterIndexedFrom
    (fun token index =>
       match findIndex (fun t => (Token.symbol t =? Token.symbol token)%string) (p ++ l) with
       | Some first => (index =? first)%nat
       | None => false
       end)
    l (length p)
  = firstsFrom seen l.
Proof.
  induction l as [|t l IH]; intros p seen Hs; [reflexivity|].
  cbn [filterIndexedFrom firstsFrom].
  assert (Hrec : forall seen',
            (forall s, In s seen' <-> In s (map Token.symbol (p ++ [t]))) ->
            filterIndexedFrom
              (fun token index =>
                 match findIndex (fun t0 => (Token.symbol t0 =? Token.symbol token)%string)
                                 (p ++ t :: l) with
                 | Some first => (index =? first)%nat
                 | None => false
                 end)
              l (S (length p))
            = firstsFrom seen' l).
  { intros seen' Hs'. specialize (IH (p ++ [t]) seen' Hs').
    rewrite <- app_assoc, length_app in IH. cbn [app length] in IH.
    rewrite Nat.add_1_r in IH. exact IH. }
  unfold findIndex at 1. rewrite findIndexFrom_app. cbn [findIndexFrom].
  rewrite String.eqb_refl. cbn [Nat.add].
  destruct (findIndexFrom (fun t0 => (Token.symbol t0 =? Token.symbol t)%string) p 0)
    as [j|] eqn:F.
  - pose proof (findIndexFrom_bounds _ _ _ _ F) as B.
    replace (length p =? j)%nat with false by (symmetry; apply Nat.eqb_neq; lia).
    assert (Hin : In (Token.symbol t) seen).
    { apply Hs, existsb_sameSymbol.
      destruct (existsb (fun x => (Token.symbol x =? Token.symbol t)%string) p) eqn:X;
        [reflexivity|].
      apply (findIndexFrom_None _ p 0%nat) in X. rewrite X in F. discriminate F. }
    apply existsb_symbol in Hin. rewrite Hin.
    apply Hrec. intros s. rewrite map_app, in_app_iff. cbn [map In].
    rewrite <- Hs. split; [auto|]. intros [H|[<-|[]]]; [exact H|].
    apply existsb_symbol. exact Hin.
  - rewrite Nat.eqb_refl.
    assert (Hn : existsb (fun k => (k =? Token.symbol t)%string) seen = false).
    { apply not_true_is_false. intros X. apply existsb_symbol, Hs, existsb_sameSymbol in X.
      apply (findIndexFrom_None _ p 0%nat) in F. rewrite F in X. discriminate X. }
    rewrite Hn. f_equal.
    apply Hrec. intros s. rewrite map_app, in_app_iff. cbn [map In].
    rewrite <- Hs. tauto.
Qed.

Lemma uniqueTokens_firstsFrom tokens : uniqueTokens tokens = firstsFrom [] tokens.
Proof.
  unfold uniqueTokens, filterIndexed.
  apply (uniqueFrom_firstsFrom tokens [] []). intros s. reflexivity.
Qed.

Lemma firstsFrom_symbols l : forall seen s,
  In s (map Token.symbol (firstsFrom seen l))
  <-> In s (map Token.symbol l) /\ ~ In s seen.
Proof.
  induction l as [|t l IH]; intros seen s; cbn [firstsFrom map In]; [tauto|].
  destruct (existsb (fun k => (k =? Token.symbol t)%string) seen) eqn:X.
  - apply existsb_symbol in X. rewrite IH. split.
    + intros [H N]. auto.
    + intros [[<-|H] N]; [contradiction | auto].
  - assert (N : ~ In (Token.symbol t) seen).
    { intros H. apply existsb_symbol in H. rewrite H in X. discriminate X. }
    cbn [map In]. rewrite IH. cbn [In].
    destruct (string_dec (Token.symbol t) s) as [<-|D]; [tauto|]. tauto.
Qed.

Lemma firstsFrom_NoDup l : forall seen, NoDup (map Token.symbol (firstsFrom seen l)).
Proof.
  induction l as [|t l IH]; intros seen; cbn [firstsFrom map]; [constructor|].
  destruct (existsb (fun k => (k =? Token.symbol t)%string) seen); [apply IH|].
  cbn [map]. constructor; [|apply IH].
  rewrite firstsFrom_symbols. cbn [In]. tauto.
Qed.

Lemma firstsFrom_sublist l : forall seen t, In t (firstsFrom seen l) -> In t l.
Proof.
  induction l as [|x l IH]; intros seen t; cbn [firstsFrom]; [tauto|].
  destruct (existsb (fun k => (k =? Token.symbol x)%string) seen).
  - intros H. right. eapply IH, H.
  - intros [<-|H]; [left; reflexivity | right; eapply IH, H].
Qed.

(** X13.  [getTokenPrices] asks for the price of every symbol of its tokens and
    asks once: the tokens it keeps are tokens of the input, no two of them
    have the same symbol, and their symbols are those of the input. *)
Theorem prices_requested_once (tokens : list Token.t) :
  NoDup (requestedSymbols tokens)
  /\ (forall s, In s (requestedSymbols tokens) <-> In s (map Token.symbol tokens))
  /\ (forall t, In t (uniqueTokens tokens) -> In t tokens).
Proof.
  unfold requestedSymbols. rewrite uniqueTokens_firstsFrom. split; [|split].
  - apply firstsFrom_NoDup.
  - intros s. rewrite firstsFrom_symbols. cbn [In]. tauto.
  - apply firstsFrom_sublist.
Qed.




(** ** [getTotalBalance] *)

(** X15.  [getTotalBalance] answers exactly when [getBalances] answers and the
    currency is USD in any case of letters or the exchange service has a
    rate for it; every other case is the one error of the function. *)
Theorem total_balance_answers_iff (toUpperCase : string -> string)
  (getRateForCurrency : string -> option JsNumber.number)
  (db : Database) (userId currency : string) (type : option string) :
  (exists n, getTotalBalance toUpperCase getRateForCurrency db userId currency type
             = Returned n)
  <-> (findActiveWallets db userId = []
       \/ forallb wellFormed (fetched db userId type) = true)
      /\ (toUpperCase currency = "USD"%string
          \/ exists rate, getRateForCurrency currency = Some rate).
Proof.
  unfold getTotalBalance.
  destruct (getBalances_cases db userId type defaultPagination true)
    as [(W & _ & G) | [(W & p & Hp & _ & G) | (W & e & Hp & _ & G)]]; rewrite G.
  - destruct (String.eqb_spec (toUpperCase currency) "USD") as [U|U].
    + split; [intros _; split; [left; exact W | left; exact U] | intros _; eexists; reflexivity].
    + destruct (getRateForCurrency currency) as [rate|].
      * split; [intros _; split; [left; exact W | right; eexists; reflexivity]
               | intros _; eexists; reflexivity].
      * split; [intros [n Hn]; discriminate Hn|].
        intros [_ [X|[rate X]]]; [contradiction | discriminate X].
  - assert (Hwf : forallb wellFormed (fetched db userId type) = true)
      by (eapply process_wellFormed; exact Hp).
    destruct (String.eqb_spec (toUpperCase currency) "USD") as [U|U].
    + split; [intros _; split; [right; exact Hwf | left; exact U]
             | intros _; eexists; reflexivity].
    + destruct (getRateForCurrency currency) as [rate|].
      * split; [intros _; split; [right; exact Hwf | right; eexists; reflexivity]
               | intros _; eexists; reflexivity].
      * split; [intros [n Hn]; discriminate Hn|].
        intros [_ [X|[rate X]]]; [contradiction | discriminate X].
  - split; [intros [n Hn]; discriminate Hn|].
    intros [[E|Hwf] _]; [contradiction|].
    destruct (process_spec _ Hwf) as (p & Hp' & _). rewrite Hp in Hp'. discriminate Hp'.
Qed.

(** X16.  The total balance is the [total] of [getBalances] with zero balances
    shown, at whatever page it is asked: as it is for USD, and times the
    rate of the exchange service for another currency. *)
Theorem total_balance_is_converted_total (toUpperCase : string -> string)
  (getRateForCurrency : string -> option JsNumber.number)
  (db : Database) (userId currency : string) (type : option string)
  (pagination : PaginationParams.t) (r : Response.t) :
  getBalances db userId type pagination true = Ok r ->
  getTotalBalance toUpperCase getRateForCurrency db userId currency type
  = if (toUpperCase currency =? "USD")%string then Returned (Response.total r)
    else match getRateForCurrency currency with
         | Some rate => Returned (JsNumber.mul (Response.total r) rate)
         | None => Raised FailedToCalculateTotalBalance
         end.
Proof.
  intros G. unfold getTotalBalance.
  destruct (getBalances_cases db userId type pagination true)
    as [(W & _ & G1) | [(W & p & Hp & _ & G1) | (_ & e & _ & _ & G1)]];
    rewrite G1 in G; [| |discriminate G]; injection G as <-.
  - rewrite (getBalances_empty db userId type defaultPagination true W). reflexivity.
  - rewrite (getBalances_processed db userId type defaultPagination true p W Hp).
    reflexivity.
Qed.

Lemma total_balance_is_converted_total_witness :
  getTotalBalance asciiUpper Scenario.rateService Scenario.sharedDb "alice" "usd" None
  = Returned (JsNumber.ofZ 26000)
  /\ getTotalBalance asciiUpper Scenario.rateService Scenario.sharedDb "alice" "NGN" None
     = Returned (JsNumber.ofZ 39000000)
  /\ getTotalBalance asciiUpper Scenario.rateService Scenario.sharedDb "alice" "EUR" None
     = Raised FailedToCalculateTotalBalance.
Proof.
  assert (G : getBalances Scenario.sharedDb "alice" None
                (PaginationParams.mk (JsNumber.ofZ 7) (JsNumber.ofZ 3)) true = Ok _)
    by (vm_compute; reflexivity).
  split; [|split].
  - rewrite (total_balance_is_converted_total asciiUpper Scenario.rateService
               Scenario.sharedDb "alice" "usd" None _ _ G).
    vm_compute. reflexivity.
  - rewrite (total_balance_is_converted_total asciiUpper Scenario.rateService
               Scenario.sharedDb "alice" "NGN" None _ _ G).
    vm_compute. reflexivity.
  - rewrite (total_balance_is_converted_total asciiUpper Scenario.rateService
               Scenario.sharedDb "alice" "EUR" None _ _ G).
    vm_compute. reflexivity.
Defined.

(** ** [getWallet] and [getWalletBalances] *)

Lemma getWallet_Returned db userId walletId wallet :
  getWallet db userId walletId = Returned wallet ->
  In wallet (wallets db) /\ Wallet.id wallet = walletId /\ Wallet.userId wallet = userId.
Proof.
  unfold getWallet.
  destruct (find _ (wallets db)) as [w|] eqn:F; [|discriminate].
  intros E. injection E as <-. apply find_some in F. destruct F as [Hin H].
  apply andb_true_iff in H. destruct H as [Hi Hu].
  apply String.eqb_eq in Hi, Hu. auto.
Qed.

Lemma getWallet_Raised db userId walletId :
  (forall w, In w (wallets db) -> Wallet.id w = walletId -> Wallet.userId w <> userId) ->
  getWallet db userId walletId = Raised (NotFoundException "Wallet not found").
Proof.
  intros H. unfold getWallet.
  destruct (find _ (wallets db)) as [w|] eqn:F; [|reflexivity].
  apply find_some in F. destruct F as [Hin X].
  apply andb_true_iff in X. destruct X as [Hi Hu].
  apply String.eqb_eq in Hi, Hu. exfalso. exact (H w Hin Hi Hu).
Qed.

(** X17.  The balances of a wallet are served to its owner only: when
    [getWalletBalances] returns, the user has a wallet of the identifier
    asked, of whatever status, and the rows returned are all the rows of the
    database of that wallet and of the type asked, spot when none is. *)
Theorem wallet_balances_are_the_owners (db : Database) (userId walletId : string)
  (type : option BalanceType) (rows : list WalletBalance.t) :
  getWalletBalances db userId walletId type = Returned rows ->
  (exists wallet, In wallet (wallets db) /\ Wallet.id wallet = walletId
                  /\ Wallet.userId wallet = userId)
  /\ forall b, In b rows
       <-> In b (walletBalances db)
           /\ WalletBalance.walletId b = walletId
           /\ WalletBalance.type b = match type with Some t => t | None => spot end.
Proof.
  unfold getWalletBalances.
  destruct (getWallet db userId walletId) as [wallet|e] eqn:G; [|discriminate].
  intros E. injection E as <-.
  destruct (getWallet_Returned _ _ _ _ G) as (Hin & Hi & Hu).
  split; [exists wallet; auto|].
  intros b. rewrite filter_In, andb_true_iff, String.eqb_eq, BalanceType_eqb_eq, Hi.
  tauto.
Qed.

Lemma wallet_balances_are_the_owners_witness :
  (exists wallet, In wallet (wallets Scenario.sharedDb) /\ Wallet.id wallet = "w3"%string
                  /\ Wallet.userId wallet = "alice"%string)
  /\ forall b, In b [WalletBalance.mk "w3" "1" spot Sample.btc]
       <-> In b (walletBalances Scenario.sharedDb)
           /\ WalletBalance.walletId b = "w3"%string
           /\ WalletBalance.type b = spot.
Proof.
  apply (wallet_balances_are_the_owners Scenario.sharedDb "alice" "w3" None).
  vm_compute. reflexivity.
Defined.

(** X18.  The wallet of another user is not found: when no wallet of the
    identifier asked belongs to the user, [getWallet] and
    [getWalletBalances] throw [NotFoundException], whether or not a wallet of
    that identifier exists. *)
Theorem foreign_wallet_is_not_found (db : Database) (userId walletId : string)
  (type : option BalanceType) :
  (forall w, In w (wallets db) -> Wallet.id w = walletId -> Wallet.userId w <> userId) ->
  getWallet db userId walletId = Raised (NotFoundException "Wallet not found")
  /\ getWalletBalances db userId walletId type
     = Raised (NotFoundException "Wallet not found").
Proof.
  intros H. unfold getWalletBalances.
  rewrite (getWallet_Raised _ _ _ H). split; reflexivity.
Qed.

Lemma foreign_wallet_is_not_found_witness :
  getWallet Scenario.sharedDb "bob" "w1" = Raised (NotFoundException "Wallet not found")
  /\ getWalletBalances Scenario.sharedDb "bob" "w1" (Some spot)
     = Raised (NotFoundException "Wallet not found").
Proof.
  apply (foreign_wallet_is_not_found Scenario.sharedDb "bob" "w1" (Some spot)).
  intros w Hin Hi.
  destruct Hin as [<-|[<-|[<-|[]]]]; vm_compute in Hi |- *; discriminate.
Defined.

(** X19.  Every wallet that [getWallets] lists for a user is found by
    [getWallet] for that user under its identifier: the wallet found has
    that identifier and that user.  It need not be active. *)
Theorem listed_wallet_is_found (db : Database) (userId : string) (w : Wallet.t) :
  In w (getWallets db userId) ->
  exists wallet,
    getWallet db userId (Wallet.id w) = Returned wallet
    /\ Wallet.id wallet = Wallet.id w
    /\ Wallet.userId wallet = userId
    /\ In wallet (wallets db).
Proof.
  unfold getWallets. intros H. apply filter_In in H. destruct H as [Hin H].
  apply andb_true_iff in H. destruct H as [Hu _]. apply String.eqb_eq in Hu.
  destruct (getWallet db userId (Wallet.id w)) as [wallet|e] eqn:G.
  - exists wallet. destruct (getWallet_Returned _ _ _ _ G) as (A & B & C). auto.
  - unfold getWallet in G.
    destruct (find _ (wallets db)) as [x|] eqn:F; [discriminate|].
    pose proof (find_none _ _ F w Hin) as N. cbn beta in N.
    rewrite String.eqb_refl in N. cbn [andb] in N.
    apply String.eqb_neq in N. contradiction.
Qed.

Lemma listed_wallet_is_found_witness :
  exists wallet,
    getWallet Scenario.sharedDb "alice" (Wallet.id Sample.wallet1) = Returned wallet
    /\ Wallet.id wallet = Wallet.id Sample.wallet1
    /\ Wallet.userId wallet = "alice"%string
    /\ In wallet (wallets Scenario.sharedDb).
Proof.
  apply (listed_wallet_is_found Scenario.sharedDb "alice" Sample.wallet1).
  vm_compute. left. reflexivity.
Defined.

(** ** The controller *)

(** X20.  A request for the balances that gives no page and no limit, and no
    type or a type that is neither ['spot'] nor ['funding'], is answered
    with the first 20 of the entries of all types of the user, the entries
    of value zero among them, as page 1 with limit 20. *)
Theorem request_without_parameters (db : Database) (userId : string)
  (type : option string) (shown : list Combined.t) :
  (forall t, type = Some t -> t <> "spot"%string /\ t <> "funding"%string) ->
  displayed db userId None true = Ok shown ->
  exists r,
    controllerGetBalances db userId type None None = Ok r
    /\ Response.balances r = firstn 20 shown
    /\ Pagination.page (Response.pagination r) = JsNumber.ofZ 1
    /\ Pagination.limit (Response.pagination r) = JsNumber.ofZ 20.
Proof.
  intros Ht D.
  assert (E : controllerGetBalances db userId type None None
              = getBalances db userId None defaultPagination true).
  { unfold controllerGetBalances. destruct type as [t|]; [|reflexivity].
    destruct (Ht t eq_refl) as [S F].
    apply String.eqb_neq in S, F. rewrite S, F. reflexivity. }
  rewrite E.
  destruct (getBalances_cases db userId None defaultPagination true)
    as [(_ & D' & G') | [(_ & p & _ & D' & G') | (_ & e & _ & D' & _)]];
    rewrite D' in D; [| |discriminate D]; injection D as <-; rewrite G'.
  - eexists. split; [reflexivity|]. repeat split.
  - eexists. split; [reflexivity|]. split; [apply slice_first_twenty|]. split; reflexivity.
Qed.

Lemma request_without_parameters_witness :
  exists r,
    controllerGetBalances Sample.threeDb "alice" (Some "margin"%string) None None = Ok r
    /\ Response.balances r
       = firstn 20
           [Combined.mk "AAA" "AAA" "Token A" 8 "1" "30" spot Sample.tokenA
              [NetworkBalance.mk "chainA" "NATIVE" "1" spot "30"];
            Combined.mk "BBB" "BBB" "Token B" 8 "1" "10" spot Sample.tokenB
              [NetworkBalance.mk "chainB" "NATIVE" "1" spot "10"];
            Combined.mk "CCC" "CCC" "Token C" 8 "1" "0" spot Sample.tokenC
              [NetworkBalance.mk "chainC" "NATIVE" "1" spot "0"]]
    /\ Pagination.page (Response.pagination r) = JsNumber.ofZ 1
    /\ Pagination.limit (Response.pagination r) = JsNumber.ofZ 20.
Proof.
  apply (request_without_parameters Sample.threeDb "alice" (Some "margin"%string)).
  - intros t E. injection E as <-. split; discriminate.
  - vm_compute. reflexivity.
Defined.
